(** * HorseLinc server: controllers and models, embedded in Rocq

    The development follows the Express/Mongoose server of the repository:
    the Mongoose schemas become records, the MongoDB collections become
    lists of documents held in one [DB] record, and every controller
    (an [async (req, res, next)] function) becomes a function in a small
    state-and-exception monad over a [World] (the database together with
    the trace of outside effects: e-mails, push notifications and Stripe
    calls).

    Conventions.
    - A JavaScript [Number] is an exact rational ([Qc]); IEEE rounding of
      doubles is not part of the model.  [toFixed] rounds to the nearest
      decimal, the larger one on a tie, as ECMAScript specifies it for the
      exact value of the number.
    - A Mongoose [ObjectId] is a natural number, a [Date] is a number of
      milliseconds.  One handler run sees one clock value [now] for all of
      its [new Date()] calls.
    - A field that may be [null] or [undefined] is an [option]; JavaScript
      truthiness of such a field is [is_Some]-like and written out where a
      string or number can also be falsy.
    - A [.populate(...)]-ed reference is looked up in the collection when
      the code dereferences it; dereferencing [null] throws a [TypeError]
      exactly where the source would.

    The file has three parts: the server (schemas, the handler monad, the
    controllers of payments, invoices, requests and horses, and the CSV
    export of invoices); the vocabulary of the statements together with a
    small database for examples; and the proofs, where the numbered
    statements C1 to C10 are the properties the server is expected to
    have. *)

From stdpp Require Import gmap strings list fin_maps numbers pretty.
From Stdlib Require Import Ascii QArith Qcanon Qround.

Open Scope Qc_scope.
Open Scope string_scope.

(** ** JavaScript numbers, strings and errors *)

Abbreviation Id := nat.
Abbreviation Date := Z.

Definition QcZ (z : Z) : Qc := Q2Qc (inject_Z z).

(** [Number.prototype.toFixed(d)] followed by unary [+]: the decimal with
    [d] digits nearest to [x]; of two equally near ones, the larger. *)
Definition roundHalfUp (x : Qc) : Z := Qfloor (this x + (1 # 2))%Q.

Definition toFixed0 (x : Qc) : Qc := QcZ (roundHalfUp x).

Definition toFixed2 (x : Qc) : Qc :=
  Q2Qc (Qmake (roundHalfUp (x * QcZ 100)) 100).

(** [x || 0] on an optional number. *)
Definition orZero (x : option Qc) : Qc := default 0 x.

(** Truthiness of an optional string: [null], [undefined] and the empty
    string are falsy. *)
Definition truthyStr (s : option string) : bool :=
  match s with
  | Some (String _ _) => true
  | _ => false
  end.

(** Truthiness of a number: [0] is falsy. *)
Definition truthyNum (x : Qc) : bool := negb (bool_decide (x = 0)).

Inductive JsError :=
| TypeError (message : string)
| StripeError (message : string)
| ValidationError (errors : list (string * string)).

Definition errorMessage (e : JsError) : string :=
  match e with
  | TypeError m => m
  | StripeError m => m
  | ValidationError errs =>
      String.concat ", " (map snd errs)
  end.

Global Instance JsError_eq_dec : EqDecision JsError.
Proof. solve_decision. Defined.

(** ** Schemas *)

(** [owner.schema.js]: a user together with a percentage split.  The
    record holds the subdocument as Mongoose casts it. *)
Module Owner.
Record t := mk { _user : Id; percentage : Qc }.
Global Instance eq_dec : EqDecision t.
Proof. solve_decision. Defined.
End Owner.

Module User.
Record t := mk {
  _id : Id;
  name : string;
  email : string;
  roles : list string;
  deviceIds : list string;
  stripeCustomerId : option string;
  stripeSellerId : option string;
  accountSetupComplete : bool
}.
Global Instance eq_dec : EqDecision t.
Proof. solve_decision. Defined.

Definition HORSE_MANAGER := "horse manager".
Definition SERVICE_PROVIDER := "service provider".

(** [UserSchema.statics.isServiceProvider] and [isManager]. *)
Definition isServiceProvider (user : t) : bool :=
  bool_decide (SERVICE_PROVIDER ∈ roles user).
Definition isManager (user : t) : bool :=
  bool_decide (HORSE_MANAGER ∈ roles user).
End User.

(** [horse.model.js]. *)
Module Horse.
Record t := mk {
  _id : Id;
  barnName : option string;
  showName : option string;
  gender : option string;
  _owners : list Owner.t;
  _leasedTo : option Id;
  _trainer : option Id;
  _createdBy : option Id
}.
Global Instance eq_dec : EqDecision t.
Proof. solve_decision. Defined.

(** The [_owners] validator.  The arrow function returns [sum === 100]
    for a non-empty array and falls off its end ([undefined]) for an
    empty one. *)
Definition ownersSum (owners : list Owner.t) : Qc :=
  fold_left (fun accumulator currentValue =>
               accumulator + Owner.percentage currentValue) owners 0.

Definition ownersValidator (owners : list Owner.t) : option bool :=
  if negb (bool_decide (length owners = 0%nat))
  then Some (bool_decide (ownersSum owners = QcZ 100))
  else None.

Definition OWNERSHIP_MESSAGE := "Ownership must total 100%".

(** Mongoose runs a synchronous validator and accepts the value when the
    result is [undefined] or truthy ([SchemaType.prototype.doValidate]). *)
Definition validatorPasses (result : option bool) : bool :=
  match result with
  | None => true
  | Some ok => ok
  end.

(** [required: true]: a string must be present and non-empty, a
    reference must be present. *)
Definition requiredError {A} (path : string) (present : A -> bool)
    (v : option A) : list (string * string) :=
  match v with
  | Some a => if present a then [] else [(path, "Path `" ++ path ++ "` is required.")]
  | None => [(path, "Path `" ++ path ++ "` is required.")]
  end.

Definition nonEmpty (s : string) : bool :=
  match s with String _ _ => true | EmptyString => false end.

(** [document.validate()]: the errors of all paths, keyed by path. *)
Definition validate (h : t) : list (string * string) :=
  requiredError "barnName" nonEmpty (barnName h) ++
  requiredError "showName" nonEmpty (showName h) ++
  requiredError "gender" nonEmpty (gender h) ++
  (if validatorPasses (ownersValidator (_owners h)) then []
   else [("_owners", OWNERSHIP_MESSAGE)]) ++
  requiredError "_trainer" (fun _ : Id => true) (_trainer h) ++
  requiredError "_createdBy" (fun _ : Id => true) (_createdBy h).

(** [getDummyOwner] is only used to build responses and is left out. *)

Definition backwardsCompatibilityError : string :=
  "An important update to this app has been released, please upgrade before using this feature.".
End Horse.

(** [payment-approver.schema.js]. *)
Module PaymentApprover.
Record t := mk {
  _approver : Id;
  _payer : option Id;
  isUnlimited : bool;
  maxAmount : option Qc
}.
Global Instance eq_dec : EqDecision t.
Proof. solve_decision. Defined.
End PaymentApprover.

(** [request.model.js]. *)
Module Request.
Record Service := mkService {
  service : string;
  rate : Qc;
  quantity : option Qc
}.
Global Instance Service_eq_dec : EqDecision Service.
Proof. solve_decision. Defined.

Record t := mk {
  _id : Id;
  date : Date;
  _horse : option Id;
  _horseManager : option Id;
  _serviceProvider : Id;
  _reassignedTo : option Id;
  _previousReassignees : list Id;
  services : list Service;
  instructions : option string;
  providerNotes : option string;
  total : Qc;
  deletedAt : option Date;
  declinedAt : option Date;
  acceptedAt : option Date;
  paidAt : option Date;
  addedToInvoice : bool;
  createdAt : Date
}.
Global Instance eq_dec : EqDecision t.
Proof. solve_decision. Defined.

(** [service.quantity || 1]. *)
Definition quantityOrOne (s : Service) : Qc :=
  match quantity s with
  | Some q => if truthyNum q then q else 1
  | None => 1
  end.

(** [RequestSchema.statics.getServiceCount]. *)
Definition getServiceCount (requests : list t) : Qc :=
  fold_left (fun serviceTotal request =>
    fold_left (fun acc s => acc + quantityOrOne s) (services request) serviceTotal)
    requests 0.

(** [RequestSchema.statics.getServices]. *)
Definition getServices (requests : list t) : list Service :=
  fold_left (fun outputServices request =>
    fold_left (fun acc s => (acc ++ [s])%list) (services request) outputServices)
    requests [].

(** The total recomputed from the services, as both the request and the
    invoice controllers do with [reduce]/[forEach]. *)
Definition servicesTotal (ss : list Service) : Qc :=
  fold_left (fun accumulator currentValue =>
               accumulator + rate currentValue * quantityOrOne currentValue) ss 0.

Definition set_paidAt (d : option Date) (r : t) : t :=
  mk (_id r) (date r) (_horse r) (_horseManager r) (_serviceProvider r)
     (_reassignedTo r) (_previousReassignees r) (services r) (instructions r)
     (providerNotes r) (total r) (deletedAt r) (declinedAt r) (acceptedAt r)
     d (addedToInvoice r) (createdAt r).

Definition set_deletedAt (d : option Date) (r : t) : t :=
  mk (_id r) (date r) (_horse r) (_horseManager r) (_serviceProvider r)
     (_reassignedTo r) (_previousReassignees r) (services r) (instructions r)
     (providerNotes r) (total r) d (declinedAt r) (acceptedAt r)
     (paidAt r) (addedToInvoice r) (createdAt r).

Definition set_services (ss : list Service) (tot : Qc) (r : t) : t :=
  mk (_id r) (date r) (_horse r) (_horseManager r) (_serviceProvider r)
     (_reassignedTo r) (_previousReassignees r) ss (instructions r)
     (providerNotes r) tot (deletedAt r) (declinedAt r) (acceptedAt r)
     (paidAt r) (addedToInvoice r) (createdAt r).
End Request.

(** [invoice.model.js], the schema. *)
Module Invoice.
Record t := mk {
  _id : Id;
  amount : Qc;
  tip : option Qc;
  paidOutsideAppAt : option Date;
  paidInFullAt : option Date;
  _owners : list Owner.t;
  _payingUsers : list Owner.t;
  paymentApprovals : list PaymentApprover.t;
  _leasee : option Id;
  _horse : option Id;
  _requests : list Id;
  _serviceProvider : Id;
  _trainer : Id;
  _reassignees : list Id;
  deletedAt : option Date;
  createdAt : Date
}.
Global Instance eq_dec : EqDecision t.
Proof. solve_decision. Defined.

Definition set_paidInFullAt (d : option Date) (i : t) : t :=
  mk (_id i) (amount i) (tip i) (paidOutsideAppAt i) d (_owners i)
     (_payingUsers i) (paymentApprovals i) (_leasee i) (_horse i)
     (_requests i) (_serviceProvider i) (_trainer i) (_reassignees i)
     (deletedAt i) (createdAt i).

Definition set_paidOutsideAppAt (d : option Date) (i : t) : t :=
  mk (_id i) (amount i) (tip i) d (paidInFullAt i) (_owners i)
     (_payingUsers i) (paymentApprovals i) (_leasee i) (_horse i)
     (_requests i) (_serviceProvider i) (_trainer i) (_reassignees i)
     (deletedAt i) (createdAt i).

Definition set_tip (x : option Qc) (i : t) : t :=
  mk (_id i) (amount i) x (paidOutsideAppAt i) (paidInFullAt i) (_owners i)
     (_payingUsers i) (paymentApprovals i) (_leasee i) (_horse i)
     (_requests i) (_serviceProvider i) (_trainer i) (_reassignees i)
     (deletedAt i) (createdAt i).

Definition set_deletedAt (d : option Date) (i : t) : t :=
  mk (_id i) (amount i) (tip i) (paidOutsideAppAt i) (paidInFullAt i)
     (_owners i) (_payingUsers i) (paymentApprovals i) (_leasee i) (_horse i)
     (_requests i) (_serviceProvider i) (_trainer i) (_reassignees i)
     d (createdAt i).
End Invoice.

(** [payment.model.js]. *)
Module Payment.
Record Transaction := mkTransaction {
  transactionType : string;
  t_request : option Id;
  t_serviceProvider : option Id;
  t_payingUser : option Id;
  transferId : string;
  transactionId : string;
  transactionDate : Date
}.
Global Instance Transaction_eq_dec : EqDecision Transaction.
Proof. solve_decision. Defined.

Record t := mk {
  _id : Id;
  _horseManager : option Id;
  _serviceProvider : option Id;
  _payingUser : option Id;
  _paymentSubmittedBy : option Id;
  transactions : list Transaction;
  paidOutsideApp : bool;
  date : option Date;
  amount : Qc;
  tip : Qc;
  _invoice : option Id;
  percentOfInvoice : option Qc;
  _requests : list Id
}.
Global Instance eq_dec : EqDecision t.
Proof. solve_decision. Defined.

Definition set_transactions (txs : list Transaction) (p : t) : t :=
  mk (_id p) (_horseManager p) (_serviceProvider p) (_payingUser p)
     (_paymentSubmittedBy p)
     txs (paidOutsideApp p) (date p) (amount p) (tip p) (_invoice p)
     (percentOfInvoice p) (_requests p).

Definition set_amount (a : Qc) (p : t) : t :=
  mk (_id p) (_horseManager p) (_serviceProvider p) (_payingUser p)
     (_paymentSubmittedBy p)
     (transactions p) (paidOutsideApp p) (date p) a (tip p) (_invoice p)
     (percentOfInvoice p) (_requests p).
End Payment.

(** [notification.model.js], as far as the controllers here fill it. *)
Module Notification.
Record t := mk {
  message : string;
  _recipients : list Id;
  sendPush : bool
}.
Global Instance eq_dec : EqDecision t.
Proof. solve_decision. Defined.
End Notification.

(** ** The outside world: environment, Stripe, database, effects *)

(** [process.env]. *)
Record Env := mkEnv {
  STRIPE_SERVICE_FEE_PERCENTAGE : Qc;
  ADMIN_EMAIL : string;
  FROM_EMAIL : string
}.

(** The two Stripe calls of the server.  The API is an oracle: what a
    call answers is an input of the run.  [transfers_create] also gets the
    number of transfer calls made before it, so that two equal transfers
    may fare differently. *)
Module Stripe.
Record Transfer := mkTransfer {
  amount : Qc;
  currency : string;
  destination : option string;
  source_transaction : option string
}.
Record ChargeObj := mkCharge {
  c_amount : Qc;
  c_currency : string;
  customer : option string;
  receipt_email : string
}.
Inductive ChargeResult :=
| ChargeReturns (id : string) (failure_message : option string)
| ChargeThrows (message : string).
Inductive TransferResult :=
| TransferReturns (id : string)
| TransferThrows (message : string).
Record Api := mkApi {
  charges_create : ChargeObj -> option string -> ChargeResult;
  transfers_create : nat -> Transfer -> TransferResult
}.
Global Instance Transfer_eq_dec : EqDecision Transfer.
Proof. solve_decision. Defined.
Global Instance ChargeObj_eq_dec : EqDecision ChargeObj.
Proof. solve_decision. Defined.
Global Instance ChargeResult_eq_dec : EqDecision ChargeResult.
Proof. solve_decision. Defined.
Global Instance TransferResult_eq_dec : EqDecision TransferResult.
Proof. solve_decision. Defined.
End Stripe.

(** What leaves the server during a run, oldest first. *)
Inductive Effect :=
| Mail (to : string) (bcc : option string) (subject : string) (html : string)
| Push (include_player_ids : list string) (contents : string)
| Charge (c : Stripe.ChargeObj) (idempotency_key : option string)
         (r : Stripe.ChargeResult)
| Transfer (t : Stripe.Transfer) (r : Stripe.TransferResult).

Global Instance Effect_eq_dec : EqDecision Effect.
Proof. solve_decision. Defined.

Definition isTransfer (e : Effect) : bool :=
  match e with Transfer _ _ => true | _ => false end.
Definition isCharge (e : Effect) : bool :=
  match e with Charge _ _ _ => true | _ => false end.
Definition isStripeCall (e : Effect) : bool := isTransfer e || isCharge e.

(** A document is anything with an [_id]. *)
Class Document (A : Type) := idOf : A -> Id.
Global Instance User_document : Document User.t := User._id.
Global Instance Horse_document : Document Horse.t := Horse._id.
Global Instance Request_document : Document Request.t := Request._id.
Global Instance Invoice_document : Document Invoice.t := Invoice._id.
Global Instance Payment_document : Document Payment.t := Payment._id.

(** The MongoDB collections, each in its natural order. *)
Record DB := mkDB {
  users : list User.t;
  horses : list Horse.t;
  requests : list Request.t;
  invoices : list Invoice.t;
  payments : list Payment.t;
  notifications : list Notification.t
}.

Definition set_horses (f : list Horse.t -> list Horse.t) (d : DB) : DB :=
  mkDB (users d) (f (horses d)) (requests d) (invoices d) (payments d)
       (notifications d).
Definition set_requests (f : list Request.t -> list Request.t) (d : DB) : DB :=
  mkDB (users d) (horses d) (f (requests d)) (invoices d) (payments d)
       (notifications d).
Definition set_invoices (f : list Invoice.t -> list Invoice.t) (d : DB) : DB :=
  mkDB (users d) (horses d) (requests d) (f (invoices d)) (payments d)
       (notifications d).
Definition set_payments (f : list Payment.t -> list Payment.t) (d : DB) : DB :=
  mkDB (users d) (horses d) (requests d) (invoices d) (f (payments d))
       (notifications d).
Definition add_notification (n : Notification.t) (d : DB) : DB :=
  mkDB (users d) (horses d) (requests d) (invoices d) (payments d)
       (notifications d ++ [n])%list.

Record World := mkWorld {
  db : DB;
  trace : list Effect
}.

(** ** The handler monad: state over the world, with exceptions

    A thrown error leaves the world as it was at the throw: what was
    written or sent before stays written and sent. *)
Inductive Outcome (A : Type) :=
| Ret (a : A)
| Throw (e : JsError).
Arguments Ret {A} a.
Arguments Throw {A} e.

Definition M (A : Type) : Type := World -> Outcome A * World.

Definition ret {A} (a : A) : M A := fun w => (Ret a, w).
Definition throw {A} (e : JsError) : M A := fun w => (Throw e, w).
Definition bind {A B} (m : M A) (k : A -> M B) : M B :=
  fun w => match m w with
           | (Ret a, w') => k a w'
           | (Throw e, w') => (Throw e, w')
           end.

Declare Scope js_scope.
Delimit Scope js_scope with js.
Notation "'let*' x ':=' m 'in' k" := (bind m (fun x => k))
  (at level 10, x pattern, m at level 100, k at level 200) : js_scope.
Notation "m ';;;' k" := (bind m (fun _ => k))
  (at level 100, k at level 200, right associativity) : js_scope.
Open Scope js_scope.

(** [try { m } catch (error) { h error }]. *)
Definition tryCatch {A} (m : M A) (h : JsError -> M A) : M A :=
  fun w => match m w with
           | (Ret a, w') => (Ret a, w')
           | (Throw e, w') => h e w'
           end.

(** [try { m } finally { f }] where the [finally] block does not return a
    value of its own: it runs on both exits, and an error of [m] is
    rethrown after it unless [f] throws itself. *)
Definition tryFinally {A} (m : M A) (f : M unit) : M A :=
  fun w => match m w with
           | (Ret a, w') =>
               match f w' with
               | (Ret _, w'') => (Ret a, w'')
               | (Throw e, w'') => (Throw e, w'')
               end
           | (Throw e, w') =>
               match f w' with
               | (Ret _, w'') => (Throw e, w'')
               | (Throw e', w'') => (Throw e', w'')
               end
           end.

Definition getDB : M DB := fun w => (Ret (db w), w).
Definition modifyDB (f : DB -> DB) : M unit :=
  fun w => (Ret tt, mkWorld (f (db w)) (trace w)).
Definition emit (e : Effect) : M unit :=
  fun w => (Ret tt, mkWorld (db w) (trace w ++ [e])%list).
Definition getTrace : M (list Effect) := fun w => (Ret (trace w), w).

(** Reading a property of [o]: a [TypeError] when [o] is [null]. *)
Definition deref {A} (what : string) (o : option A) : M A :=
  match o with
  | Some a => ret a
  | None => throw (TypeError ("Cannot read property '" ++ what ++ "' of null"))
  end.

(** [Promise.each(xs, f)] and a synchronous [forEach] with effects: one
    element after the other, stopping at the first throw. *)
Fixpoint forEach {A} (f : A -> M unit) (xs : list A) : M unit :=
  match xs with
  | [] => ret tt
  | x :: rest => f x ;;; forEach f rest
  end.

Fixpoint foldM {A S} (f : S -> A -> M S) (s : S) (xs : list A) : M S :=
  match xs with
  | [] => ret s
  | x :: rest => let* s' := f s x in foldM f s' rest
  end.

Fixpoint mapM {A B} (f : A -> M B) (xs : list A) : M (list B) :=
  match xs with
  | [] => ret []
  | x :: rest => let* y := f x in let* ys := mapM f rest in ret (y :: ys)
  end.

(** ** Responses *)

Inductive Json :=
| JMessage (message : string)
| JPayment (message : string) (payment : Payment.t)
| JPaymentDoc (payment : Payment.t)
| JInvoice (invoice : Invoice.t)
| JRequest (request : Request.t)
| JHorse (horse : Horse.t).

(** What the handler did with [res] and [next]. *)
Inductive Response :=
| Status (code : nat) (body : option Json)
| Next (err : JsError).

Global Instance Json_eq_dec : EqDecision Json.
Proof. solve_decision. Defined.
Global Instance Response_eq_dec : EqDecision Response.
Proof. solve_decision. Defined.

(** ** Number formatting for messages *)

Definition pad2 (n : Z) : string :=
  if (n <? 10)%Z then "0" ++ pretty n else pretty n.

(** [x.toFixed(2)] as the string it is. *)
Definition toFixed2Str (x : Qc) : string :=
  let n := roundHalfUp (x * QcZ 100) in
  (if (n <? 0)%Z then "-" else EmptyString)
    ++ pretty (Z.abs n / 100)%Z ++ "." ++ pad2 (Z.abs n mod 100)%Z.

(** [components/utils.js]. *)
Module utils.
Definition handleEntityNotFound : Response := Status 404 None.
Definition respondWithError (message : string) : Response :=
  Status 422 (Some (JMessage message)).
Definition respondWithSuccess (message : string) : Response :=
  Status 200 (Some (JMessage message)).
Definition respondWithResult (entity : Json) : Response :=
  Status 200 (Some entity).

(** [_.uniq]: the first occurrence of each element stays. *)
Fixpoint uniq (xs : list string) (seen : list string) : list string :=
  match xs with
  | [] => []
  | x :: rest =>
      if bool_decide (x ∈ seen) then uniq rest seen
      else x :: uniq rest (x :: seen)
  end.

(** [buildEmailString]: the separator is decided by comparing the index
    in the de-duplicated array with the length of the original one. *)
Fixpoint joinEmails (i total : nat) (unique : list string) : string :=
  match unique with
  | [] => EmptyString
  | email :: rest =>
      email ++ (if bool_decide (i = (total - 1)%nat) then EmptyString else ", ")
            ++ joinEmails (S i) total rest
  end.
Definition buildEmailString (emails : list string) : string :=
  joinEmails 0 (length emails) (uniq emails []).

(** [calculateInvoiceTotalWithFee]: the invoice amount with tip and
    service fee, as a string with two decimals. *)
Definition calculateInvoiceTotalWithFee (env : Env) (invoice : Invoice.t)
    : string :=
  let invoiceAmountPlusTip :=
    toFixed2 (Invoice.amount invoice + orZero (Invoice.tip invoice)) in
  let serviceFeeAmount :=
    toFixed2 (invoiceAmountPlusTip * STRIPE_SERVICE_FEE_PERCENTAGE env) in
  toFixed2Str (invoiceAmountPlusTip + serviceFeeAmount).

(** What [sanitizeObject] can be given: a falsy value, an array, or an
    object with its own properties. *)
Inductive Value (A : Type) :=
| Falsy
| Arr (items : list A)
| Obj (fields : gmap string A).
Arguments Falsy {A}.
Arguments Arr {A} items.
Arguments Obj {A} fields.

(** [sanitizeObject]: an object loses its own properties that are not in
    the white list; a falsy value and an array come back as they are. *)
Definition sanitizeObject {A} (object : Value A)
    (whitelistAttributes : list string) : Value A :=
  match object with
  | Obj fields =>
      Obj (filter (fun entry => bool_decide (fst entry ∈ whitelistAttributes))
                  fields)
  | other => other
  end.
End utils.

(** ** Mongoose queries and writes used by the controllers *)

(** [Model.find(query)] with the query as a boolean predicate. *)
Definition find {A} (query : A -> bool) (docs : list A) : list A :=
  List.filter query docs.

(** [Model.findById(id)] and [Model.findOne({ _id: id })]. *)
Definition findById `{Document A} (id : Id) (docs : list A) : option A :=
  List.find (fun stored => bool_decide (idOf stored = id)) docs.

(** The update behind [doc.save()] for a loaded document: the stored
    document with that [_id] changes, and nothing happens when it is
    gone. *)
Definition updateDoc `{Document A} (id : Id) (f : A -> A) (docs : list A)
    : list A :=
  map (fun stored => if bool_decide (idOf stored = id) then f stored else stored)
      docs.

(** [doc.save()] with the in-memory values of [doc]. *)
Definition saveDoc `{Document A} (doc : A) (docs : list A) : list A :=
  updateDoc (idOf doc) (fun _ => doc) docs.

(** [doc.remove()]. *)
Definition removeDoc `{Document A} (id : Id) (docs : list A) : list A :=
  List.filter (fun stored => negb (bool_decide (idOf stored = id))) docs.

(** A new [ObjectId]: one that no document of the collection has. *)
Definition newId `{Document A} (docs : list A) : Id :=
  S (foldr Nat.max 0%nat (map idOf docs)).

Definition Invoice_save (doc : Invoice.t) : M unit :=
  modifyDB (set_invoices (saveDoc doc)).
Definition Request_save (doc : Request.t) : M unit :=
  modifyDB (set_requests (saveDoc doc)).
Definition Payment_save (doc : Payment.t) : M unit :=
  modifyDB (set_payments (saveDoc doc)).
Definition Payment_remove (doc : Payment.t) : M unit :=
  modifyDB (set_payments (removeDoc (Payment._id doc))).

(** [Payment.create(doc)]: the schema requires [_serviceProvider] (and
    [amount], which is a number here); a valid document is appended with
    a new id. *)
Definition Payment_create (doc : Payment.t) : M Payment.t :=
  match Payment._serviceProvider doc with
  | None =>
      throw (ValidationError
               [("_serviceProvider", "Path `_serviceProvider` is required.")])
  | Some _ =>
      let* d := getDB in
      let created :=
        Payment.mk (newId (payments d)) (Payment._horseManager doc)
          (Payment._serviceProvider doc) (Payment._payingUser doc) (Payment._paymentSubmittedBy doc)
          (Payment.transactions doc) (Payment.paidOutsideApp doc)
          (Payment.date doc) (Payment.amount doc) (Payment.tip doc)
          (Payment._invoice doc) (Payment.percentOfInvoice doc)
          (Payment._requests doc) in
      modifyDB (set_payments (fun stored => stored ++ [created])%list) ;;;
      ret created
  end.

(** [Notification.create(doc)] with the schema's [pre('save')] hook: a new
    notification with [sendPush] pushes its message to the devices of its
    recipients, then the document is stored. *)
Definition Notification_create (n : Notification.t) : M unit :=
  let* d := getDB in
  (if Notification.sendPush n then
     let recipients :=
       find (fun u => bool_decide (User._id u ∈ Notification._recipients n))
            (users d) in
     let deviceIds := concat (map User.deviceIds recipients) in
     if bool_decide (deviceIds = []) then ret tt
     else emit (Push deviceIds (Notification.message n))
   else ret tt) ;;;
  modifyDB (add_notification n).

(** ** Populated documents *)

(** A request with [_reassignedTo] and [_serviceProvider] populated. *)
Record PRequest := mkPRequest {
  r_doc : Request.t;
  r_reassignedTo : option User.t;
  r_serviceProvider : option User.t
}.

Definition populateRequest (d : DB) (r : Request.t) : PRequest :=
  mkPRequest r
    (Request._reassignedTo r ≫= fun u => findById u (users d))
    (findById (Request._serviceProvider r) (users d)).

(** An invoice after
    [.populate('_requests _serviceProvider _reassignees _horse _trainer')],
    [paymentApprovals._approver] and [_payingUsers._user].  A populated
    array of references keeps the documents that exist; a single
    reference whose document is gone is [null]. *)
Record PInvoice := mkPInvoice {
  doc : Invoice.t;
  p_requests : list Request.t;
  p_serviceProvider : option User.t;
  p_reassignees : list User.t;
  p_horse : option Horse.t;
  p_trainer : option User.t;
  p_payingUsers : list (option User.t * Qc);
  p_approvers : list (option User.t)
}.

Definition populateInvoice (d : DB) (i : Invoice.t) : PInvoice :=
  mkPInvoice i
    (omap (fun r => findById r (requests d)) (Invoice._requests i))
    (findById (Invoice._serviceProvider i) (users d))
    (omap (fun u => findById u (users d)) (Invoice._reassignees i))
    (Invoice._horse i ≫= fun h => findById h (horses d))
    (findById (Invoice._trainer i) (users d))
    (map (fun o => (findById (Owner._user o) (users d), Owner.percentage o))
         (Invoice._payingUsers i))
    (map (fun a => findById (PaymentApprover._approver a) (users d))
         (Invoice.paymentApprovals i)).

Definition withDoc (f : Invoice.t -> Invoice.t) (i : PInvoice) : PInvoice :=
  mkPInvoice (f (doc i)) (p_requests i) (p_serviceProvider i)
    (p_reassignees i) (p_horse i) (p_trainer i) (p_payingUsers i)
    (p_approvers i).

(** ** [payment.controller.js] *)
Module PaymentController.

Definition currency := "usd".

(** The request: [req.body] (the fields the handler reads or stores) and
    [req.user]. *)
Record Body := mkBody {
  _invoice : option Id;
  _payingUser : option Id;
  _horseManager : option Id;
  _serviceProvider : option Id;
  percentOfInvoice : Qc;
  invoiceTotal : Qc;
  tip : option Qc;
  uuid : option string;
  _requests : list Id
}.
Record Req := mkReq { body : Body; user : User.t }.

Definition sendPushNotification (recipients : list (option User.t))
    (message : string) : M unit :=
  let* present := mapM (deref "deviceIds") recipients in
  let deviceIds := utils.uniq (concat (map User.deviceIds present)) [] in
  if bool_decide (deviceIds = []) then ret tt
  else emit (Push deviceIds message).

Definition sendEmail (to : string) (bcc : option string)
    (subject html : string) : M unit :=
  emit (Mail to bcc subject html).

(** [ownerPercentage]: a user's percentage of a total amount. *)
Definition ownerPercentage (percentOfInvoice amount : Qc) : Qc :=
  (percentOfInvoice / QcZ 100) * amount.

(** [emailInvoiceReceipt]: the receipts for a completed invoice.  The
    template data is read off the populated invoice before the first mail
    goes out. *)
Definition emailInvoiceReceipt (invoice : PInvoice) : M unit :=
  let* payers := mapM (fun p => deref "email" (fst p)) (p_payingUsers invoice) in
  let payingUserEmails := map User.email payers in
  let* approvers := mapM (deref "email") (p_approvers invoice) in
  let approverEmails := map User.email approvers in
  let managerEmailRecipients := (payingUserEmails ++ approverEmails)%list in
  let* _ := deref "barnName" (p_horse invoice) in
  let* _ := deref "name" (p_trainer invoice) in
  let* serviceProvider := deref "name" (p_serviceProvider invoice) in
  sendEmail (utils.buildEmailString managerEmailRecipients) None
    "HorseLinc - Invoice Paid In Full"
    "../app/invoice/views/invoiceReceiptManager.html" ;;;
  sendEmail (utils.buildEmailString [User.email serviceProvider]) None
    "HorseLinc - Invoice Paid In Full"
    "../app/invoice/views/invoiceReceiptProvider.html" ;;;
  forEach (fun reassignee =>
             sendEmail (User.email reassignee) None
               "HorseLinc - Invoice Paid In Full"
               "../app/invoice/views/invoiceReceiptReassignee.html")
          (p_reassignees invoice).

(** *** [create], lines 429-490: the pending transfers *)

Record Pending := mkPending {
  runningInvoiceTotal : Qc;
  pendingTransfers : list (Stripe.Transfer * option PRequest);
  reasigneeTransferAmounts : gmap Id Qc
}.

(** Dollars to Stripe cents: [+(x.toFixed(2) * 100).toFixed(2)]. *)
Definition toCents (x : Qc) : Qc := toFixed2 (toFixed2 x * QcZ 100).

(** The body of [Promise.each(invoice._requests, ...)]. *)
Definition pendingForRequest (env : Env) (newPayment : Body)
    (acc : Pending) (request : Request.t) : M Pending :=
  let* d := getDB in
  let* found := deref "total" (findById (Request._id request) (requests d)) in
  let requestObj := populateRequest d found in
  let originalTotal :=
    ownerPercentage (percentOfInvoice newPayment) (Request.total found) in
  let serviceFeeAmount := originalTotal * STRIPE_SERVICE_FEE_PERCENTAGE env in
  let totalChargeAmt := originalTotal + serviceFeeAmount in
  let running := runningInvoiceTotal acc + totalChargeAmt in
  let* (destinationAccount, amounts) :=
    match r_reassignedTo requestObj with
    | Some reassignee =>
        let reassigneeId := User._id reassignee in
        ret (reassignee,
             match reasigneeTransferAmounts acc !! reassigneeId with
             | Some sofar =>
                 <[reassigneeId := sofar + originalTotal]>
                   (reasigneeTransferAmounts acc)
             | None =>
                 <[reassigneeId := originalTotal]> (reasigneeTransferAmounts acc)
             end)
    | None =>
        let* provider := deref "stripeSellerId" (r_serviceProvider requestObj) in
        ret (provider, reasigneeTransferAmounts acc)
    end in
  let pendingTransfer :=
    Stripe.mkTransfer (toCents originalTotal) currency
      (User.stripeSellerId destinationAccount) None in
  ret (mkPending running
         (pendingTransfers acc ++ [(pendingTransfer, Some requestObj)])%list
         amounts).

(** The tip, when there is one, goes to the main service provider and is
    not tied to a request. *)
Definition pendingForTip (invoice : PInvoice) (populatedPayment : Payment.t)
    (acc : Pending) : M Pending :=
  if truthyNum (Payment.tip populatedPayment)
     && bool_decide (0 < Payment.tip populatedPayment)
  then
    let* payee := deref "stripeSellerId" (p_serviceProvider invoice) in
    let tipAmount := Payment.tip populatedPayment in
    let pendingTransfer :=
      Stripe.mkTransfer (toCents tipAmount) currency
        (User.stripeSellerId payee) None in
    ret (mkPending (runningInvoiceTotal acc + tipAmount)
           (pendingTransfers acc ++ [(pendingTransfer, None)])%list
           (reasigneeTransferAmounts acc))
  else ret acc.

Definition buildPending (env : Env) (newPayment : Body) (invoice : PInvoice)
    (populatedPayment : Payment.t) : M Pending :=
  let* perRequest :=
    foldM (pendingForRequest env newPayment) (mkPending 0 [] ∅)
          (p_requests invoice) in
  pendingForTip invoice populatedPayment perRequest.

(** *** [create], lines 521-685: one payout *)

Record Payouts := mkPayouts {
  failedPayoutCount : nat;
  transactions : list Payment.Transaction
}.

(** The [catch] block of a payout, after the counter: mail the admin and
    the provider concerned, push to the provider and to the payers. *)
Definition reportFailedPayout (env : Env) (invoice : PInvoice)
    (request : option PRequest) : M unit :=
  let* mainProvider := deref "name" (p_serviceProvider invoice) in
  let* _ := deref "name" (p_trainer invoice) in
  let payingUsers := map fst (p_payingUsers invoice) in
  let approvers := p_approvers invoice in
  let html := "../app/payment/views/stripePayoutFailureEmail.html" in
  match request with
  | Some request =>
      match r_reassignedTo request with
      | Some reassignee =>
          sendEmail (ADMIN_EMAIL env) (Some (User.email reassignee))
            "Stripe Payout Failure" html ;;;
          sendEmail (ADMIN_EMAIL env) (Some (User.email reassignee))
            "Stripe Payout Failure" html
      | None =>
          let* provider := deref "email" (r_serviceProvider request) in
          sendEmail (ADMIN_EMAIL env) (Some (User.email provider))
            "Stripe Payout Failure" html
      end
  | None =>
      sendEmail (ADMIN_EMAIL env) (Some (User.email mainProvider))
        "Stripe Payout Failure" html
  end ;;;
  let tipOrZero := orZero (Invoice.tip (doc invoice)) in
  let invoiceTotal := Invoice.amount (doc invoice) + tipOrZero in
  let serviceFee :=
    toFixed2 (Invoice.amount (doc invoice) * STRIPE_SERVICE_FEE_PERCENTAGE env) in
  let providerPushMessage :=
    "We've encountered an error transfering the funds for your paid invoice of $"
      ++ toFixed2Str invoiceTotal
      ++ ". We are actively working to correct this error." in
  let managerPushMessage :=
    "We've encountered an error transfering the funds for your paid invoice of $"
      ++ toFixed2Str (invoiceTotal + serviceFee + tipOrZero)
      ++ ". We are actively working to correct this error." in
  sendPushNotification [Some mainProvider] providerPushMessage ;;;
  sendPushNotification (payingUsers ++ approvers)%list managerPushMessage.

(** The transaction recorded in the [finally] block: a ['request']
    transaction when the payout has a request, a ['tip'] one otherwise. *)
Definition transactionFor (now : Date) (newPayment : Body) (chargeId : string)
    (request : option PRequest) (transferToken : string)
    : M Payment.Transaction :=
  match request with
  | Some request =>
      let* destinationAccount :=
        match r_reassignedTo request with
        | Some reassignee => ret reassignee
        | None => deref "_id" (r_serviceProvider request)
        end in
      ret (Payment.mkTransaction "request"
             (Some (Request._id (r_doc request)))
             (Some (User._id destinationAccount))
             (_payingUser newPayment) transferToken chargeId now)
  | None =>
      ret (Payment.mkTransaction "tip" None (_serviceProvider newPayment)
             (_payingUser newPayment) transferToken chargeId now)
  end.

(** [try { m } catch ... finally { f }] where the value of the whole
    statement needs both the result of [m] and what [f] computed. *)
Definition finallyThen {A B} (m : M A) (f : M B) : M (A * B) :=
  fun w => match m w with
           | (Ret a, w') =>
               match f w' with
               | (Ret b, w'') => (Ret (a, b), w'')
               | (Throw e, w'') => (Throw e, w'')
               end
           | (Throw e, w') =>
               match f w' with
               | (Ret _, w'') => (Throw e, w'')
               | (Throw e', w'') => (Throw e', w'')
               end
           end.

(** The body of [Promise.each(pendingTransfers, ...)]. *)
Definition processTransfer (env : Env) (stripe : Stripe.Api) (now : Date)
    (newPayment : Body) (invoice : PInvoice) (populatedPayment : Payment.t)
    (chargeId : string) (st : Payouts)
    (transferWithRequest : Stripe.Transfer * option PRequest) : M Payouts :=
  let '(pending, request) := transferWithRequest in
  let pendingTransfer :=
    Stripe.mkTransfer (Stripe.amount pending) (Stripe.currency pending)
      (Stripe.destination pending) (Some chargeId) in
  let* sofar := getTrace in
  let answer :=
    Stripe.transfers_create stripe
      (length (List.filter isTransfer sofar)) pendingTransfer in
  emit (Transfer pendingTransfer answer) ;;;
  let transferToken :=
    match answer with
    | Stripe.TransferReturns id => id
    | Stripe.TransferThrows _ => EmptyString
    end in
  let* (failed, recorded) :=
    finallyThen
      (match answer with
       | Stripe.TransferReturns _ => ret (failedPayoutCount st)
       | Stripe.TransferThrows _ =>
           reportFailedPayout env invoice request ;;;
           ret (S (failedPayoutCount st))
       end)
      (let* transaction :=
         transactionFor now newPayment chargeId request transferToken in
       let recorded := (transactions st ++ [transaction])%list in
       Payment_save (Payment.set_transactions recorded populatedPayment) ;;;
       ret recorded) in
  ret (mkPayouts failed recorded).

(** *** [create], lines 687-731: after the payouts *)

(** Payments recorded against an invoice:
    [Payment.find({ _invoice: id })]. *)
Definition paymentsOfInvoice (d : DB) (invoice : option Id) : list Payment.t :=
  find (fun p => bool_decide (Payment._invoice p = invoice)) (payments d).

(** [Payment.find({ _invoice: i, _payingUser: u })]. *)
Definition paymentsOfInvoiceBy (d : DB) (invoice payingUser : option Id)
    : list Payment.t :=
  find (fun p => bool_decide (Payment._invoice p = invoice)
                 && bool_decide (Payment._payingUser p = payingUser))
       (payments d).

(** Lines 687-708: tell the payer, the main provider and the
    reassignees. *)
Definition announcePayment (req : Req) (payingUser : User.t)
    (invoice : PInvoice) (pending : Pending) (populatedPayment : Payment.t)
    : M unit :=
  (if bool_decide (User._id payingUser ≠ User._id (user req)) then
     Notification_create
       (Notification.mk
          (User.name (user req) ++ " has made a payment of $"
             ++ toFixed2Str (runningInvoiceTotal pending) ++ " on your behalf.")
          [User._id payingUser] true)
   else ret tt) ;;;
  let serviceProviderTotal :=
    Payment.amount populatedPayment + Payment.tip populatedPayment in
  sendPushNotification [p_serviceProvider invoice]
    (User.name payingUser ++ " has made a payment of $"
       ++ toFixed2Str serviceProviderTotal ++ ".") ;;;
  forEach (fun reassignee =>
             let* share :=
               deref "toFixed"
                 (reasigneeTransferAmounts pending !! User._id reassignee) in
             sendPushNotification [Some reassignee]
               (User.name payingUser ++ " has made a payment of $"
                  ++ toFixed2Str share ++ "."))
          (p_reassignees invoice).

(** Lines 710-722: the tip is kept with the first payment, and the
    invoice is paid in full with the payment that brings the number of
    payments to the number of paying users. *)
Definition markInvoice (now : Date) (invoiceTip : option Qc)
    (previousPayments : list Payment.t) (invoice : Invoice.t) : Invoice.t :=
  let withTip :=
    if bool_decide (length previousPayments = 1%nat)
    then Invoice.set_tip invoiceTip invoice
    else invoice in
  if bool_decide (length previousPayments
                  = length (Invoice._payingUsers invoice))
  then Invoice.set_paidInFullAt (Some now) withTip
  else withTip.

(** Lines 710-731. *)
Definition settleInvoice (now : Date) (req : Req) (invoiceTip : option Qc)
    (invoice : PInvoice) : M PInvoice :=
  let* d := getDB in
  let previousPayments := paymentsOfInvoice d (_invoice (body req)) in
  let marked := withDoc (markInvoice now invoiceTip previousPayments) invoice in
  Invoice_save (doc marked) ;;;
  (if bool_decide (is_Some (Invoice.paidInFullAt (doc marked)))
   then emailInvoiceReceipt marked
   else ret tt) ;;;
  ret marked.

(** *** [create], lines 494-756: the charge with its [catch] *)

Definition DEFAULT_CHARGE_FAILURE :=
  "Your payment did not go through. Please contact HorseLinc.".

(** The [catch] block: report, delete the payment, unmark the invoice.
    [invoice.save()] writes the paths of the loaded document that were
    changed and not yet saved; here that is [paidInFullAt], set to [null]
    just before, since the [try] block saves the invoice right after it
    changes it. *)
Definition chargeFailed (env : Env) (invoice : PInvoice)
    (populatedPayment : Payment.t) (error : JsError) : M Response :=
  sendEmail (ADMIN_EMAIL env) None "Stripe Charge Failure"
    "../app/payment/views/stripeChargeFailureEmail.html" ;;;
  Payment_remove populatedPayment ;;;
  modifyDB (set_invoices
              (updateDoc (Invoice._id (doc invoice))
                         (Invoice.set_paidInFullAt None))) ;;;
  let message :=
    match errorMessage error with
    | EmptyString => DEFAULT_CHARGE_FAILURE
    | m => m
    end in
  ret (utils.respondWithError message).

(** Lines 515-732, the charge having returned: the payouts and the
    bookkeeping when the charge went through, nothing when it carries a
    failure message.  The value is what the rest of the handler goes on
    with: the failed-payout counter, the invoice and the payment as they
    are in memory. *)
Definition payOut (env : Env) (stripe : Stripe.Api) (now : Date)
    (req : Req) (invoiceTip : option Qc) (payingUser : User.t)
    (invoice : PInvoice) (pending : Pending) (populatedPayment : Payment.t)
    (chargeId : string) (failure_message : option string)
    : M (nat * PInvoice * Payment.t) :=
  if negb (truthyStr failure_message) then
    let* paid :=
      foldM (processTransfer env stripe now (body req) invoice
               populatedPayment chargeId)
            (mkPayouts 0 (Payment.transactions populatedPayment))
            (pendingTransfers pending) in
    let recorded :=
      Payment.set_transactions (transactions paid) populatedPayment in
    announcePayment req payingUser invoice pending recorded ;;;
    let* marked := settleInvoice now req invoiceTip invoice in
    ret (failedPayoutCount paid, marked, recorded)
  else ret (0%nat, invoice, populatedPayment).

(** The [try] block, lines 494-732. *)
Definition chargeAndPayOut (env : Env) (stripe : Stripe.Api) (now : Date)
    (req : Req) (invoiceTip : option Qc) (payingUser : User.t)
    (invoice : PInvoice) (pending : Pending) (populatedPayment : Payment.t)
    : M (nat * PInvoice * Payment.t) :=
  let chargeObj :=
    Stripe.mkCharge (toFixed0 (runningInvoiceTotal pending * QcZ 100)) currency
      (User.stripeCustomerId payingUser) (User.email payingUser) in
  let key := if truthyStr (uuid (body req)) then uuid (body req) else None in
  let answer := Stripe.charges_create stripe chargeObj key in
  emit (Charge chargeObj key answer) ;;;
  match answer with
  | Stripe.ChargeThrows message => throw (StripeError message)
  | Stripe.ChargeReturns chargeId failure_message =>
      payOut env stripe now req invoiceTip payingUser invoice pending
        populatedPayment chargeId failure_message
  end.

(** The [try] with its [catch]: either the answer of the [catch] block,
    with which the handler returns, or the values to go on with. *)
Definition attempt (env : Env) (stripe : Stripe.Api) (now : Date)
    (req : Req) (invoiceTip : option Qc) (payingUser : User.t)
    (invoice : PInvoice) (pending : Pending) (populatedPayment : Payment.t)
    : M (Response + nat * PInvoice * Payment.t) :=
  tryCatch
    (let* done :=
       chargeAndPayOut env stripe now req invoiceTip payingUser invoice
         pending populatedPayment in
     ret (inr done))
    (fun error =>
       let* response := chargeFailed env invoice populatedPayment error in
       ret (inl response)).

(** *** [create], lines 758-790: the answer *)

Definition PAYOUT_CAUTION :=
  "Your payment has been submitted, but it may not have reached its final payee(s). Please contact HorseLinc.".

Definition answer (now : Date) (failed : nat) (invoice : PInvoice)
    (populatedPayment : Payment.t) : M Response :=
  if bool_decide (0 < failed)%nat then
    ret (Status 200 (Some (JPayment PAYOUT_CAUTION populatedPayment)))
  else if bool_decide (is_Some (Invoice.paidInFullAt (doc invoice))) then
    forEach (fun request => Request_save (Request.set_paidAt (Some now) request))
            (p_requests invoice) ;;;
    ret (Status 200 (Some (JPayment "Invoice paid in full" populatedPayment)))
  else
    ret (Status 200 (Some (JPayment "Payment successful" populatedPayment))).

(** *** [create], the whole handler *)

Definition incompletePaymentInformation (req : Req) (payingUser : User.t)
    : string :=
  if bool_decide (User._id payingUser = User._id (user req)) then
    "You need to complete your payment information in your profile before you may proceed."
  else
    User.name payingUser
      ++ " needs to complete their payment information in their profile before you may proceed.".

Definition alreadyPaid (payingUser : User.t) : string :=
  "A payment has already been made against this invoice for "
    ++ User.name payingUser.

(** Lines 413-790: the guards have passed. *)
Definition pay (env : Env) (stripe : Stripe.Api) (now : Date) (req : Req)
    (invoice : PInvoice) (payingUser : User.t) : M Response :=
  let invoiceTip := tip (body req) in
  let newPayment := body req in
  let tipShare :=
    ownerPercentage (percentOfInvoice newPayment) (orZero (tip newPayment)) in
  let amountShare :=
    ownerPercentage (percentOfInvoice newPayment) (invoiceTotal newPayment) in
  let* populatedPayment :=
    Payment_create
      (Payment.mk 0 (_horseManager newPayment) (_serviceProvider newPayment)
         (_payingUser newPayment)
         (Some (User._id (user req))) [] false (Some now) amountShare tipShare
         (_invoice newPayment) (Some (percentOfInvoice newPayment))
         (_requests newPayment)) in
  let* pending := buildPending env newPayment invoice populatedPayment in
  let* outcome :=
    attempt env stripe now req invoiceTip payingUser invoice pending
      populatedPayment in
  match outcome with
  | inl response => ret response
  | inr (failed, marked, recorded) => answer now failed marked recorded
  end.

(** Lines 347-411: the guards. *)
Definition createBody (env : Env) (stripe : Stripe.Api) (now : Date)
    (req : Req) : M Response :=
  let* d := getDB in
  let* found :=
    deref "deletedAt"
      (_invoice (body req) ≫= fun i => findById i (invoices d)) in
  let invoice := populateInvoice d found in
  if bool_decide (is_Some (Invoice.deletedAt (doc invoice))) then
    ret (utils.respondWithError "This invoice has been deleted.")
  else
  let newPayment := body req in
  match _payingUser newPayment with
  | None => ret (utils.respondWithError Horse.backwardsCompatibilityError)
  | Some payingUserId =>
  match findById payingUserId (users d) with
  | None => ret (utils.respondWithError "Sorry, we couldn't find that user.")
  | Some payingUser =>
  if negb (truthyStr (User.stripeCustomerId payingUser))
     || negb (User.accountSetupComplete payingUser)
  then ret (utils.respondWithError (incompletePaymentInformation req payingUser))
  else
  let previousPaymentsForUser :=
    paymentsOfInvoiceBy d (_invoice newPayment) (_payingUser newPayment) in
  if negb (bool_decide (length previousPaymentsForUser = 0%nat)) then
    ret (utils.respondWithError (alreadyPaid payingUser))
  else pay env stripe now req invoice payingUser
  end
  end.

(** The outer [try]/[catch]: any other error goes to [next]. *)
Definition create (env : Env) (stripe : Stripe.Api) (now : Date) (req : Req)
    : M Response :=
  tryCatch (createBody env stripe now req) (fun err => ret (Next err)).

End PaymentController.

(** ** [invoice.controller.js] *)
Module InvoiceController.

(** A request as it comes inside the body of an invoice update. *)
Record BodyRequest := mkBodyRequest {
  r_id : Id;
  r_services : list Request.Service
}.

(** [req.body] after [sanitizeObject(req.body, WHITELIST_REQUEST_ATTRIBUTES)]:
    [None] is a key that is not in the body. *)
Record Body := mkBody {
  _id : option Id;
  tip : option (option Qc);
  paidOutsideAppAt : option (option Date);
  paidInFullAt : option (option Date);
  _owners : option (list Owner.t);
  _payingUsers : option (list Owner.t);
  paymentApprovals : option (list PaymentApprover.t);
  _leasee : option (option Id);
  _horse : option (option Id);
  _requests : list BodyRequest;
  _serviceProvider : option Id;
  _reassignees : option (list Id);
  _trainer : option Id
}.

Record Req := mkReq { params_id : Id; body : Body; user : User.t }.

Definition sendPushNotification (recipients : list (option User.t))
    (message : string) : M unit :=
  let* present := mapM (deref "deviceIds") recipients in
  let deviceIds := utils.uniq (concat (map User.deviceIds present)) [] in
  if bool_decide (deviceIds = []) then ret tt
  else emit (Push deviceIds message).

(** [getTotalForUser].  In the [else] branch the source compares inside
    [String(...)], so every reassigned request counts. *)
Definition getTotalForUser (invoice : PInvoice) (user : User.t) : M Qc :=
  let* provider := deref "_id" (p_serviceProvider invoice) in
  if bool_decide (User._id user = User._id provider) || User.isManager user
  then ret (Invoice.amount (doc invoice) + orZero (Invoice.tip (doc invoice)))
  else
    ret (fold_left
           (fun totalForUser request =>
              if bool_decide (is_Some (Request._reassignedTo request))
              then totalForUser + Request.total request
              else totalForUser)
           (p_requests invoice) 0).

(** [getInvoiceReassignees]: the users the requests are reassigned to,
    each once, in the order of their first request. *)
Definition getInvoiceReassignees (requests : list PRequest) : list User.t :=
  fold_left
    (fun reassignees request =>
       match r_reassignedTo request with
       | Some reassignee =>
           if existsb (fun o => bool_decide (User._id o = User._id reassignee))
                      reassignees
           then reassignees
           else (reassignees ++ [reassignee])%list
       | None => reassignees
       end)
    requests [].

(** [_.assign(invoice, updatedInvoice)]: every key of the body is set on
    the document; [amount] was put into the body by the handler. *)
Definition assign (invoice : Invoice.t) (b : Body) (newAmount : Qc)
    : Invoice.t :=
  Invoice.mk
    (default (Invoice._id invoice) (_id b))
    newAmount
    (default (Invoice.tip invoice) (tip b))
    (default (Invoice.paidOutsideAppAt invoice) (paidOutsideAppAt b))
    (default (Invoice.paidInFullAt invoice) (paidInFullAt b))
    (default (Invoice._owners invoice) (_owners b))
    (default (Invoice._payingUsers invoice) (_payingUsers b))
    (default (Invoice.paymentApprovals invoice) (paymentApprovals b))
    (default (Invoice._leasee invoice) (_leasee b))
    (default (Invoice._horse invoice) (_horse b))
    (map r_id (_requests b))
    (default (Invoice._serviceProvider invoice) (_serviceProvider b))
    (default (Invoice._trainer invoice) (_trainer b))
    (default (Invoice._reassignees invoice) (_reassignees b))
    (Invoice.deletedAt invoice)
    (Invoice.createdAt invoice).

(** The callback of [Promise.map(updatedInvoice._requests, ...)]: the
    stored request takes the services of the body and the total
    recomputed from them.  The callbacks are run here in the order of
    the array. *)
Definition updateRequest (newInvoiceTotal : Qc) (request : BodyRequest)
    : M Qc :=
  let* d := getDB in
  match findById (r_id request) (requests d) with
  | Some oldRequest =>
      let total := Request.servicesTotal (r_services request) in
      Request_save (Request.set_services (r_services request) total oldRequest) ;;;
      ret (newInvoiceTotal + total)
  | None => ret newInvoiceTotal
  end.

Definition UPDATE_REFUSED :=
  "Invoice cannot be updated once a payment has been made.".

Definition updateBody (req : Req) : M Response :=
  let updatedInvoice := body req in
  let* d := getDB in
  let invoicePayments :=
    PaymentController.paymentsOfInvoice d (_id updatedInvoice) in
  if negb (bool_decide (length invoicePayments = 0%nat)) then
    ret (utils.respondWithError UPDATE_REFUSED)
  else
  let* newInvoiceTotal := foldM updateRequest 0 (_requests updatedInvoice) in
  let* d := getDB in
  match findById (params_id req) (invoices d) with
  | Some invoice =>
      let assigned := assign invoice updatedInvoice newInvoiceTotal in
      Invoice_save assigned ;;;
      let* d := getDB in
      let* stored :=
        deref "_serviceProvider"
          (findById (Invoice._id assigned) (invoices d)) in
      let populatedInvoice := populateInvoice d stored in
      let* _ := deref "_id" (p_serviceProvider populatedInvoice) in
      let* _ := getTotalForUser populatedInvoice (user req) in
      let pushRecipients :=
        (map fst (p_payingUsers populatedInvoice)
           ++ p_approvers populatedInvoice)%list in
      let* horse := deref "barnName" (p_horse populatedInvoice) in
      sendPushNotification pushRecipients
        (User.name (user req) ++ " has updated the invoice for "
           ++ default "undefined" (Horse.barnName horse) ++ ".") ;;;
      ret (utils.respondWithResult (JInvoice stored))
  | None => ret utils.handleEntityNotFound
  end.

Definition update (req : Req) : M Response :=
  tryCatch (updateBody req) (fun err => ret (Next err)).

Definition DESTROY_REFUSED :=
  "There is already a payment against this invoice.".

Definition destroyBody (env : Env) (now : Date) (req : Req) : M Response :=
  let* d := getDB in
  match findById (params_id req) (invoices d) with
  | Some found =>
      let invoice := populateInvoice d found in
      let* provider := deref "_id" (p_serviceProvider invoice) in
      if bool_decide (User._id provider ≠ User._id (user req)) then
        ret (utils.respondWithError
               "You are not authorized to delete this invoice.")
      else
      let payments :=
        PaymentController.paymentsOfInvoice d (Some (params_id req)) in
      if negb (bool_decide (length payments = 0%nat)) then
        ret (utils.respondWithError DESTROY_REFUSED)
      else
      let deleted := withDoc (Invoice.set_deletedAt (Some now)) invoice in
      Invoice_save (doc deleted) ;;;
      forEach (fun request =>
                 let* d := getDB in
                 match findById (Request._id request) (requests d) with
                 | Some invoiceRequest =>
                     Request_save
                       (Request.set_deletedAt (Some now) invoiceRequest)
                 | None => ret tt
                 end)
              (p_requests deleted) ;;;
      forEach (fun reassignee =>
                 let* reassigneeTotal := getTotalForUser deleted reassignee in
                 sendPushNotification [Some reassignee]
                   ("Your invoice of $" ++ toFixed2Str reassigneeTotal
                      ++ " has been deleted by " ++ User.name provider ++ "."))
              (p_reassignees deleted) ;;;
      let payingUsers :=
        (map fst (p_payingUsers deleted) ++ p_approvers deleted)%list in
      let invoiceAmountPlusFee :=
        utils.calculateInvoiceTotalWithFee env (doc deleted) in
      sendPushNotification payingUsers
        ("Your invoice of $" ++ invoiceAmountPlusFee
           ++ " has been deleted by " ++ User.name provider ++ ".") ;;;
      ret (utils.respondWithSuccess "Invoice successfully deleted")
  | None => ret utils.handleEntityNotFound
  end.

Definition destroy (env : Env) (now : Date) (req : Req) : M Response :=
  tryCatch (destroyBody env now req) (fun err => ret (Next err)).

End InvoiceController.

(** ** [request.controller.js], [update] *)
Module RequestController.

(** A populated user as the client sends it back. *)
Record UserRef := mkUserRef { u_id : Id; u_name : string }.

(** [_reassignedTo] comes as a user object or as a bare id. *)
Inductive Reassign :=
| ReassignObj (u : UserRef)
| ReassignId (id : Id).

(** [req.body]; [None] is a key that is not in the body, [Some None] a
    key that is [null].  Bodies with a [_show] are outside this model. *)
Record Body := mkBody {
  _id : option Id;
  date : option Date;
  _horse : option Id;
  _horseManager : option UserRef;
  _serviceProvider : option UserRef;
  _reassignedTo : option (option Reassign);
  _previousReassignees : option (list Id);
  services : option (list Request.Service);
  instructions : option string;
  providerNotes : option string;
  addedToInvoice : option bool
}.

Record Req := mkReq { params_id : Id; body : Body; user : User.t }.

(** [req.body._reassignedTo._id]: [undefined] on a bare id. *)
Definition reassign_id (r : Reassign) : option Id :=
  match r with
  | ReassignObj u => Some (u_id u)
  | ReassignId _ => None
  end.

(** [_reassignedTo._id || _reassignedTo]. *)
Definition reassigneeId (r : Reassign) : Id :=
  match r with
  | ReassignObj u => u_id u
  | ReassignId id => id
  end.

(** The request after sanitizing and the handler's own assignments. *)
Record Updated := mkUpdated {
  reassignedTo : option (option Reassign);
  previousReassignees : option (list Id);
  resetDates : bool;
  total : Qc
}.

(** [isMainServiceProvider(user, request)]. *)
Definition isMainServiceProvider (user : User.t) (provider : UserRef)
    (reassigned : option Reassign) : bool :=
  match reassigned with
  | None => bool_decide (User._id user = u_id provider)
  | Some r =>
      bool_decide (User._id user = u_id provider)
      && negb (bool_decide (User._id user = reassigneeId r))
  end.

(** [isReassignedServiceProvider(user, request)]. *)
Definition isReassignedServiceProvider (user : User.t) (provider : UserRef)
    (reassigned : option Reassign) : bool :=
  match reassigned with
  | None => false
  | Some r =>
      negb (bool_decide (User._id user = u_id provider))
      && bool_decide (User._id user = reassigneeId r)
  end.

(** [Request.isSameDay]: the day of the request starts at most 24 hours
    after today does.  Days are taken in UTC. *)
Definition startOfDay (t : Date) : Z := (t / 86400000)%Z.
Definition isSameDay (now : Date) (requestDate : option Date) : bool :=
  bool_decide ((startOfDay (default now requestDate) - startOfDay now) * 24 ≤ 24)%Z.

(** [_.assign(request, updatedRequest)]. *)
Definition assign (request : Request.t) (b : Body) (u : Updated)
    (services : list Request.Service) : Request.t :=
  Request.mk
    (Request._id request)
    (default (Request.date request) (date b))
    (match _horse b with Some h => Some h | None => Request._horse request end)
    (match _horseManager b with
     | Some m => Some (u_id m)
     | None => Request._horseManager request
     end)
    (match _serviceProvider b with
     | Some p => u_id p
     | None => Request._serviceProvider request
     end)
    (match reassignedTo u with
     | Some r => reassigneeId <$> r
     | None => Request._reassignedTo request
     end)
    (default (Request._previousReassignees request) (previousReassignees u))
    services
    (match instructions b with
     | Some i => Some i
     | None => Request.instructions request
     end)
    (match providerNotes b with
     | Some n => Some n
     | None => Request.providerNotes request
     end)
    (total u)
    (Request.deletedAt request)
    (if resetDates u then None else Request.declinedAt request)
    (if resetDates u then None else Request.acceptedAt request)
    (Request.paidAt request)
    (default (Request.addedToInvoice request) (addedToInvoice b))
    (Request.createdAt request).

Definition ALREADY_PAID := "This request has already been paid".

Definition updateBody (formatDate : option Date -> string) (now : Date)
    (req : Req) : M Response :=
  let* d := getDB in
  let* originalRequest :=
    deref "paidAt" (_id (body req) ≫= fun i => findById i (requests d)) in
  if bool_decide (is_Some (Request.paidAt originalRequest)) then
    ret (utils.respondWithError ALREADY_PAID)
  else
  let oldTotal := Request.total originalRequest in
  let originalServiceProviderId := Request._serviceProvider originalRequest in
  let* provider := deref "_id" (_serviceProvider (body req)) in
  let newServiceProviderId := u_id provider in
  let hasNewServiceProvider :=
    negb (bool_decide (originalServiceProviderId = newServiceProviderId)) in
  let originalReassigneeId := Request._reassignedTo originalRequest in
  let present := mjoin (_reassignedTo (body req)) in
  let newReassigneeId :=
    match present with
    | Some r =>
        if negb (bool_decide (reassign_id r = Some (u_id provider)))
        then Some (reassigneeId r) else None
    | None => None
    end in
  let hasNewReassignee :=
    match newReassigneeId with
    | Some new => negb (bool_decide (originalReassigneeId = Some new))
    | None => false
    end in
  let previous :=
    match originalReassigneeId with
    | Some original =>
        if negb (bool_decide (Some original = newReassigneeId)) then
          match _previousReassignees (body req) with
          | Some listed =>
              if negb (bool_decide (original ∈ listed))
              then Some (listed ++ [original])%list
              else Some listed
          | None => None
          end
        else _previousReassignees (body req)
    | None => _previousReassignees (body req)
    end in
  let hasOriginalProviderAsReassignee :=
    match present with
    | Some r => bool_decide (Some (u_id provider) = reassign_id r)
    | None => false
    end in
  let reassigned :=
    if hasOriginalProviderAsReassignee then Some None
    else _reassignedTo (body req) in
  let reset :=
    hasNewServiceProvider || hasNewReassignee
    || hasOriginalProviderAsReassignee in
  let* services := deref "forEach" (services (body req)) in
  let updatedRequest :=
    mkUpdated reassigned previous reset (Request.servicesTotal services) in
  let* d := getDB in
  match findById (params_id req) (requests d) with
  | Some request =>
      let* horse :=
        deref "barnName"
          (Request._horse request ≫= fun h => findById h (horses d)) in
      let horseName := default "undefined" (Horse.barnName horse) in
      let saved := assign request (body req) updatedRequest services in
      Request_save saved ;;;
      let* manager := deref "name" (_horseManager (body req)) in
      let horseManagerName := u_name manager in
      let serviceProviderName := u_name provider in
      let on := formatDate (date (body req)) in
      let notification :=
        if hasNewReassignee && User.isServiceProvider (user req) then
          Some (Notification.mk
                  (serviceProviderName ++ " has requested your assignment for "
                     ++ horseName ++ " on " ++ on ++ ".")
                  (match mjoin reassigned with
                   | Some (ReassignObj u) => [u_id u]
                   | _ => []
                   end)
                  (isSameDay now (date (body req))))
        else if negb hasNewReassignee
                && (isMainServiceProvider (user req) provider (mjoin reassigned)
                    || isReassignedServiceProvider (user req) provider
                         (mjoin reassigned))
        then
          if negb (bool_decide (oldTotal = total updatedRequest)) then
            Some (Notification.mk
                    (serviceProviderName
                       ++ " updated the requested services for " ++ horseName
                       ++ " on " ++ on ++ ".")
                    [u_id manager] true)
          else None
        else
          Some (Notification.mk
                  (horseManagerName ++ " updated an appointment for "
                     ++ horseName ++ " on " ++ on ++ ".")
                  (u_id provider ::
                     match mjoin reassigned with
                     | Some r => [reassigneeId r]
                     | None => []
                     end)
                  true) in
      match notification with
      | Some n =>
          if negb (bool_decide (Notification._recipients n = []))
          then Notification_create n else ret tt
      | None => ret tt
      end ;;;
      ret (utils.respondWithResult (JRequest saved))
  | None => ret utils.handleEntityNotFound
  end.

Definition update (formatDate : option Date -> string) (now : Date)
    (req : Req) : M Response :=
  tryCatch (updateBody formatDate now req) (fun err => ret (Next err)).

(** The names of the services of a request, separated by commas. *)
Fixpoint serviceNames (services : list Request.Service) : string :=
  match services with
  | [] => EmptyString
  | [service] => Request.service service
  | service :: rest => Request.service service ++ ", " ++ serviceNames rest
  end.

(** [destroy]: the request keeps its place in the collection and gets a
    [deletedAt]; the provider and the reassignee are notified. *)
Definition destroyBody (formatDate : option Date -> string) (now : Date)
    (req : Req) : M Response :=
  let* d := getDB in
  match findById (params_id req) (requests d) with
  | Some found =>
      let request := Request.set_deletedAt (Some now) found in
      Request_save request ;;;
      let* manager :=
        deref "name"
          (Request._horseManager request ≫= fun u => findById u (users d)) in
      let horseManagerName := User.name manager in
      let* provider :=
        deref "_id" (findById (Request._serviceProvider request) (users d)) in
      let recipients :=
        (User._id provider ::
           match Request._reassignedTo request with
           | Some reassignee => [reassignee]
           | None => []
           end) in
      let* horse :=
        deref "barnName"
          (Request._horse request ≫= fun h => findById h (horses d)) in
      let notificationMessage :=
        serviceNames (Request.services request) ++ " cancelled for "
          ++ default "undefined" (Horse.barnName horse) ++ " by "
          ++ horseManagerName ++ " on "
          ++ formatDate (Some (Request.date request)) ++ "." in
      Notification_create (Notification.mk notificationMessage recipients true) ;;;
      ret (utils.respondWithResult (JRequest request))
  | None => ret utils.handleEntityNotFound
  end.

Definition destroy (formatDate : option Date -> string) (now : Date)
    (req : Req) : M Response :=
  tryCatch (destroyBody formatDate now req) (fun err => ret (Next err)).



End RequestController.

(** ** [horse.controller.js]: the handlers that write a horse *)
Module HorseController.

(** [Horse.create(doc)] and [horse.save()]: the document is validated
    first, and a [ValidationError] leaves the collection as it was. *)
Definition Horse_create (doc : Horse.t) : M Horse.t :=
  let* d := getDB in
  let created :=
    Horse.mk (newId (horses d)) (Horse.barnName doc) (Horse.showName doc)
      (Horse.gender doc) (Horse._owners doc) (Horse._leasedTo doc)
      (Horse._trainer doc) (Horse._createdBy doc) in
  match Horse.validate created with
  | [] =>
      modifyDB (set_horses (fun stored => stored ++ [created])%list) ;;;
      ret created
  | errors => throw (ValidationError errors)
  end.

Definition Horse_save (doc : Horse.t) : M unit :=
  match Horse.validate doc with
  | [] => modifyDB (set_horses (saveDoc doc))
  | errors => throw (ValidationError errors)
  end.

(** The legacy single owner an old client sends back. *)
Record OwnerRef := mkOwnerRef {
  o_id : option Id;
  o_name : string
}.

(** [req.body] after sanitizing.  [None] is a key that is not in the
    body.  [_owner] is the dummy owner of old clients; its [_id] is
    [None] for the placeholder ['multipleOwners']. *)
Record Body := mkBody {
  barnName : option string;
  showName : option string;
  gender : option string;
  _owner : option OwnerRef;
  _owners : option (list Owner.t);
  _leasedTo : option (option Id);
  _trainer : option Id
}.

Record Req := mkReq { params_id : Id; body : Body; user : User.t }.

Definition createBody (req : Req) : M Response :=
  let newHorse := body req in
  if bool_decide (is_Some (_owner newHorse)) then
    ret (utils.respondWithError Horse.backwardsCompatibilityError)
  else
    let* horse :=
      Horse_create
        (Horse.mk 0 (barnName newHorse) (showName newHorse) (gender newHorse)
           (default [] (_owners newHorse)) (mjoin (_leasedTo newHorse))
           (_trainer newHorse) (Some (User._id (user req)))) in
    ret (utils.respondWithResult (JHorse horse)).

Definition create (req : Req) : M Response :=
  tryCatch (createBody req) (fun err => ret (Next err)).

(** [_.assign(horse, updatedHorse)]. *)
Definition assign (horse : Horse.t) (b : Body) : Horse.t :=
  Horse.mk (Horse._id horse)
    (match barnName b with Some x => Some x | None => Horse.barnName horse end)
    (match showName b with Some x => Some x | None => Horse.showName horse end)
    (match gender b with Some x => Some x | None => Horse.gender horse end)
    (default (Horse._owners horse) (_owners b))
    (default (Horse._leasedTo horse) (_leasedTo b))
    (match _trainer b with Some x => Some x | None => Horse._trainer horse end)
    (Horse._createdBy horse).

(** [userIsEditingSingleOwner]. *)
Definition userIsEditingSingleOwner (updatedOwner : OwnerRef)
    (originalHorse : Horse.t) : bool :=
  match Horse._owners originalHorse with
  | [only] => negb (bool_decide (o_id updatedOwner = Some (Owner._user only)))
  | _ => false
  end.

Definition lesseeAdded (ownerName horseName : string) : string :=
  ownerName ++ " has leased " ++ horseName
    ++ " to you. You will be charged for this horse's service payments.".
Definition lesseeRemoved (ownerName horseName : string) : string :=
  "You are no longer leasing " ++ horseName ++ ". " ++ ownerName
    ++ " has resumed ownership and will be charged for service payments.".

Definition updateBody (req : Req) : M Response :=
  let updatedHorse := body req in
  let* d := getDB in
  let found := findById (params_id req) (horses d) in
  let legacyOwner :=
    match _owner updatedHorse with
    | Some o => if bool_decide (is_Some (o_id o)) then Some o else None
    | None => None
    end in
  let* refused :=
    match legacyOwner with
    | Some o =>
        let* horse := deref "_owners" found in
        if negb (bool_decide (length (Horse._owners horse) = 1%nat)) then
          ret true
        else ret (userIsEditingSingleOwner o horse)
    | None => ret false
    end in
  if (refused : bool) then
    ret (utils.respondWithError Horse.backwardsCompatibilityError)
  else
  match found with
  | Some horse =>
      let oldLesseeId := Horse._leasedTo horse in
      let newLesseeId := mjoin (_leasedTo updatedHorse) in
      let saved := assign horse updatedHorse in
      Horse_save saved ;;;
      let ownerName :=
        match _owner updatedHorse with
        | Some o => o_name o
        | None => User.name (user req)
        end in
      let horseName := default "undefined" (barnName updatedHorse) in
      match oldLesseeId, newLesseeId with
      | Some old, Some new =>
          if negb (bool_decide (old = new)) then
            Notification_create
              (Notification.mk (lesseeAdded ownerName horseName) [new] true) ;;;
            Notification_create
              (Notification.mk (lesseeRemoved ownerName horseName) [new] true)
          else ret tt
      | None, Some new =>
          Notification_create
            (Notification.mk (lesseeAdded ownerName horseName) [new] true)
      | Some old, None =>
          Notification_create
            (Notification.mk (lesseeRemoved ownerName horseName) [old] true)
      | None, None => ret tt
      end ;;;
      ret (utils.respondWithResult (JHorse saved))
  | None => ret utils.handleEntityNotFound
  end.

Definition update (req : Req) : M Response :=
  tryCatch (updateBody req) (fun err => ret (Next err)).



(** [destroy].  The schema has no [_owner], so the first comparison of
    the access check is with [undefined] and never equal: the trainer and
    the owners have access. *)
Definition destroyBody (params_id : Id) (user : User.t) : M Response :=
  let* d := getDB in
  let* horse := deref "_owners" (findById params_id (horses d)) in
  let ownerIds := map Owner._user (Horse._owners horse) in
  if negb (bool_decide (Horse._trainer horse = Some (User._id user)))
     && negb (bool_decide (User._id user ∈ ownerIds))
  then
    ret (utils.respondWithError
           "You do not have access to delete this horse profile.")
  else
  let outstandingRequests :=
    find (fun r => bool_decide (Request._horse r = Some (Horse._id horse))
                   && bool_decide (Request.paidAt r = None))
         (requests d) in
  if negb (bool_decide (length outstandingRequests = 0%nat)) then
    ret (utils.respondWithError "This horse still has unpaid requests.")
  else
    modifyDB (set_horses (removeDoc (Horse._id horse))) ;;;
    ret (Status 204 None).

Definition destroy (params_id : Id) (user : User.t) : M Response :=
  tryCatch (destroyBody params_id user) (fun err => ret (Next err)).

End HorseController.

(** ** JavaScript string methods *)

(** [s.slice(0, -n)]. *)
Definition sliceEnd (n : nat) (s : string) : string :=
  String.substring 0 (String.length s - n) s.





(** ** [invoice.model.js], the CSV export *)
Module InvoiceModel.

(** A request of an exported invoice, with [_reassignedTo] and [_horse]
    populated. *)
Record XRequest := mkXRequest {
  x_doc : Request.t;
  x_reassignedTo : option User.t;
  x_horse : option Horse.t
}.

(** An invoice as [exportToCsv] loads it. *)
Record XInvoice := mkXInvoice {
  x_invoice : PInvoice;
  x_requests : list XRequest
}.


Section Csv.

(** [process.env], [moment.utc(d).subtract(5, 'hours').format('L')], the
    number behind [new Date(text)] and the text of a number. *)
Variable env : Env.
Variable formatL : Date -> string.
Variable dateValue : string -> Z.
Variable numberToString : Qc -> string.






Definition getPaymentDate (this : XInvoice) : string :=
  let i := doc (x_invoice this) in
  match Invoice.paidOutsideAppAt i, Invoice.paidInFullAt i with
  | Some outside, _ => formatL outside
  | None, Some paid => formatL paid
  | None, None => "12/31/9999"
  end.









Definition getPayerNames (this : XInvoice) : M string :=
  let* names :=
    mapM (fun payer => deref "name" (fst payer))
         (p_payingUsers (x_invoice this)) in
  ret (sliceEnd 2
         (String.concat EmptyString
            (map (fun u => User.name u ++ "; ") names))).


Definition getReassigneeNames (this : XInvoice) : string :=
  match p_reassignees (x_invoice this) with
  | [] => "N/A"
  | reassignees =>
      sliceEnd 2
        (String.concat EmptyString
           (map (fun r => User.name r ++ "; ") reassignees))
  end.









(** The key [Array.prototype.sort] compares: managers sort by invoice
    date, service providers by payment date, newest first. *)
Record Tuple := mkTuple {
  t_invoice : XInvoice;
  t_row : string;
  t_invoiceDate : string
}.

Definition sortKey (user : User.t) (t : Tuple) : Z :=
  if User.isManager user then dateValue (t_invoiceDate t)
  else dateValue (getPaymentDate (t_invoice t)).

(** A stable sort with the comparator [key two - key one]: a tuple goes
    before the tuples that came after it and whose key is not larger. *)
Fixpoint insertTuple (user : User.t) (t : Tuple) (sorted : list Tuple)
    : list Tuple :=
  match sorted with
  | [] => [t]
  | first :: rest =>
      if bool_decide (sortKey user first ≤ sortKey user t)%Z
      then t :: sorted
      else first :: insertTuple user t rest
  end.

Definition sortTuples (user : User.t) (ts : list Tuple) : list Tuple :=
  fold_right (insertTuple user) [] ts.




End Csv.
End InvoiceModel.

(** * The properties

    ** Vocabulary of the statements *)

(** *** Runs *)

(** What left the server between [w] and a later world [w']. *)
Definition newEffects (w w' : World) : list Effect :=
  drop (length (trace w)) (trace w').

(** [m] keeps [R]: whatever [m] answers, and also when it throws, the
    world it ends in is related to the world it started in.  With a
    reflexive and transitive [R] this goes through [bind], [tryCatch] and
    the loops. *)
Definition preserves {A} (R : relation World) (m : M A) : Prop :=
  forall w o w', m w = (o, w') -> R w w'.

(** The relations used as frames: a collection, or the trace, is what it
    was; or the trace has only grown by effects of an allowed kind. *)
Definition sameWorld : relation World := eq.

Definition sameInvoices : relation World :=
  fun w w' => invoices (db w') = invoices (db w).

Definition samePayments : relation World :=
  fun w w' => payments (db w') = payments (db w).

Definition sameRequests : relation World :=
  fun w w' => requests (db w') = requests (db w).

Definition sameUsers : relation World :=
  fun w w' => users (db w') = users (db w).

Definition sameTrace : relation World :=
  fun w w' => trace w' = trace w.

Definition emitsOnly (allowed : Effect -> bool) : relation World :=
  fun w w' =>
    exists new,
      trace w' = (trace w ++ new)%list /\ Forall (fun e => allowed e = true) new.

Definition notCharge (e : Effect) : bool := negb (isCharge e).

Definition notStripe (e : Effect) : bool := negb (isStripeCall e).

(** *** Payments *)
Section PaymentVocabulary.
Import PaymentController.

(** [error.message || 'Your payment did not go through. ...']. *)
Definition chargeFailureMessage (m : string) : string :=
  match m with
  | EmptyString => DEFAULT_CHARGE_FAILURE
  | _ => m
  end.

(** An answer that is an error: the 422 of [respondWithError], or an
    error handed to [next]. *)
Definition refusal (r : Response) : Prop :=
  (exists message, r = utils.respondWithError message) \/ (exists e, r = Next e).

(** The invoice a payment is for, and the user it is paid for. *)
Definition payerOf (p : Payment.t) : option Id * option Id :=
  (Payment._invoice p, Payment._payingUser p).

(** No invoice has two payments for the same paying user. *)
Definition onePaymentPerPayer (d : DB) : Prop :=
  forall i u, (length (paymentsOfInvoiceBy d (Some i) (Some u)) <= 1)%nat.

(** The payments may lose documents and the document [pid] may change,
    but no document changes the invoice and the payer it is for. *)
Definition keepsPayers (pid : Id) (key : option Id * option Id)
    : relation World :=
  fun w w' =>
    (forall x, x ∈ payments (db w) -> Payment._id x = pid -> payerOf x = key) ->
    sublist (map payerOf (payments (db w'))) (map payerOf (payments (db w)))
    /\ (forall x, x ∈ payments (db w') -> Payment._id x = pid -> payerOf x = key).




End PaymentVocabulary.

(** *** Horses *)
Section HorseVocabulary.
Import HorseController.

(** The invariant of C2: the percentages of a horse with owners sum to
    100. *)
Definition ownersTotal100 (h : Horse.t) : Prop :=
  Horse._owners h <> [] -> Horse.ownersSum (Horse._owners h) = QcZ 100.

Definition horsesValid (d : DB) : Prop := Forall ownersTotal100 (horses d).



(** Horses that were all valid are all valid afterwards. *)
Definition keepsHorsesValid : relation World :=
  fun w w' => horsesValid (db w) -> horsesValid (db w').

End HorseVocabulary.

(** *** The CSV export *)
Section CsvVocabulary.
Import InvoiceModel.





End CsvVocabulary.

(** *** Effects of a payment *)

(** A charge that Stripe took, and a transfer that Stripe refused. *)
Definition chargeWentThrough (e : Effect) : bool :=
  match e with
  | Charge _ _ (Stripe.ChargeReturns _ failure_message) =>
      negb (truthyStr failure_message)
  | _ => false
  end.

Definition payoutFailed (e : Effect) : bool :=
  match e with
  | Transfer _ (Stripe.TransferThrows _) => true
  | _ => false
  end.

(** ** A small stable: the data of the examples *)
Module Sample.

(** A service fee of 5%; Pat manages the horse Star, Sam is her farrier,
    and Ray is another farrier. *)
Definition env : Env :=
  mkEnv (Q2Qc (5 # 100)) "admin@horselinc.test" "no-reply@horselinc.test".
Definition now : Date := 1546300800000%Z.

Definition pat : User.t :=
  User.mk 1 "Pat" "pat@stable.test" [User.HORSE_MANAGER] ["device-pat"]
    (Some "cus_pat") None true.
Definition sam : User.t :=
  User.mk 2 "Sam" "sam@farrier.test" [User.SERVICE_PROVIDER] ["device-sam"]
    None (Some "acct_sam") true.
Definition ray : User.t :=
  User.mk 3 "Ray" "ray@farrier.test" [User.SERVICE_PROVIDER] ["device-ray"]
    None (Some "acct_ray") true.

Definition star : Horse.t :=
  Horse.mk 7 (Some "Star") (Some "Northern Star") (Some "Mare")
    [Owner.mk 1 (QcZ 100)] None (Some 1%nat) (Some 1%nat).

Definition shoeing : Request.Service := Request.mkService "Shoeing" (QcZ 100) None.
Definition trimming : Request.Service := Request.mkService "Trimming" (QcZ 40) None.

(** A shoeing of Star by Sam for $100, and the invoice for it, with Pat
    as its only paying user. *)
Definition request (id : Id) (paidAt : option Date) : Request.t :=
  Request.mk id now (Some 7%nat) (Some 1%nat) 2 None [] [shoeing] None None
    (QcZ 100) None None (Some now) paidAt true now.

Definition invoice (id : Id) (requests reassignees : list Id)
    (paidInFullAt : option Date) : Invoice.t :=
  Invoice.mk id (QcZ 100) None None paidInFullAt [Owner.mk 1 (QcZ 100)]
    [Owner.mk 1 (QcZ 100)] [] None (Some 7%nat) requests 2 1 reassignees None
    now.

(** Invoice 20 is open; invoice 21 lists Ray as a reassignee although its
    request is not reassigned; invoice 22 has been paid by Pat, with
    payment 30. *)
Definition payment30 : Payment.t :=
  Payment.mk 30 (Some 1%nat) (Some 2%nat) (Some 1%nat) (Some 1%nat) [] false (Some now)
    (QcZ 100) 0 (Some 22%nat) (Some (QcZ 100)) [12%nat].

Definition stable : DB :=
  mkDB [pat; sam; ray] [star]
    [request 10 None; request 11 None; request 12 (Some now)]
    [invoice 20 [10%nat] [] None; invoice 21 [11%nat] [3%nat] None;
     invoice 22 [12%nat] [] (Some now)]
    [payment30] [].

Definition world : World := mkWorld stable [].

(** Stripe on a good day, on a day when transfers fail, and on a day when
    charges fail. *)
Definition stripe : Stripe.Api :=
  Stripe.mkApi (fun _ _ => Stripe.ChargeReturns "ch_1" None)
               (fun _ _ => Stripe.TransferReturns "tr_1").
Definition stripeNoTransfers : Stripe.Api :=
  Stripe.mkApi (fun _ _ => Stripe.ChargeReturns "ch_1" None)
               (fun _ _ => Stripe.TransferThrows "Insufficient funds").
Definition stripeNoCharges : Stripe.Api :=
  Stripe.mkApi (fun _ _ => Stripe.ChargeThrows "Your card was declined.")
               (fun _ _ => Stripe.TransferReturns "tr_1").

(** [POST /api/payments]: Pat pays all of an invoice. *)
Definition payInvoice (id : Id) : PaymentController.Req :=
  PaymentController.mkReq
    (PaymentController.mkBody (Some id) (Some 1%nat) (Some 1%nat) (Some 2%nat)
       (QcZ 100) (QcZ 100) None (Some "uuid-1") [])
    pat.

(** [PUT /api/invoices/:id] by Sam: the body carries the invoice [_id]
    and one request with new services. *)
Definition putInvoice (id : Id) (bodyId : option Id) (request : Id)
    : InvoiceController.Req :=
  InvoiceController.mkReq id
    (InvoiceController.mkBody bodyId None None None None None None None None
       [InvoiceController.mkBodyRequest request [trimming]] None None None)
    sam.

(** [DELETE /api/invoices/:id] by Sam. *)
Definition deleteInvoice (id : Id) : InvoiceController.Req :=
  InvoiceController.mkReq id
    (InvoiceController.mkBody None None None None None None None None None
       [] None None None)
    sam.

(** [PUT /api/requests/:id] by Pat: the body carries the request [_id]
    and new services. *)
Definition putRequest (id : Id) (bodyId : option Id) : RequestController.Req :=
  RequestController.mkReq id
    (RequestController.mkBody bodyId None None
       (Some (RequestController.mkUserRef 1 "Pat"))
       (Some (RequestController.mkUserRef 2 "Sam"))
       None None (Some [trimming]) None None None)
    pat.

Definition formatDate (d : option Date) : string := "01/01/2019".

(** The CSV export of invoices 22 and 20, with fixed texts for dates
    and numbers. *)
Definition formatL (d : Date) : string := "01/01/2019".
Definition dateValue (s : string) : Z := 0%Z.

End Sample.

(** ** Vocabulary of the further properties *)

(** The sum of a list of numbers. *)
Definition sumOf (xs : list Qc) : Qc := foldr Qcplus 0 xs.

Section FurtherPaymentVocabulary.
Import PaymentController.

(** An effect that may follow the charge [chargeId]: not a charge, and a
    transfer only when it is funded by that charge. *)
Definition paidFrom (chargeId : string) (e : Effect) : bool :=
  match e with
  | Charge _ _ _ => false
  | Transfer t _ => bool_decide (Stripe.source_transaction t = Some chargeId)
  | _ => true
  end.

(** The charge that [create] makes for the pending transfers. *)
Definition chargeFor (req : Req) (payingUser : User.t) (pending : Pending)
    : Stripe.ChargeObj * option string :=
  (Stripe.mkCharge (toFixed0 (runningInvoiceTotal pending * QcZ 100)) currency
     (User.stripeCustomerId payingUser) (User.email payingUser),
   if truthyStr (uuid (body req)) then uuid (body req) else None).





End FurtherPaymentVocabulary.

(** The stored requests after the stored document of [x], if there is
    one, has been saved with [mark] applied to it. *)
Definition markStored (mark : Request.t -> Request.t)
    (stored : list Request.t) (x : Request.t) : list Request.t :=
  match findById (Request._id x) stored with
  | Some found => saveDoc (mark found) stored
  | None => stored
  end.

(** The stored requests after one request of the body of an invoice
    update has been written. *)
Definition withServices (stored : list Request.t)
    (request : InvoiceController.BodyRequest) : list Request.t :=
  match findById (InvoiceController.r_id request) stored with
  | Some oldRequest =>
      saveDoc (Request.set_services (InvoiceController.r_services request)
                 (Request.servicesTotal (InvoiceController.r_services request))
                 oldRequest)
              stored
  | None => stored
  end.

(** The requests of the body that are in the database. *)
Definition known (d : DB) (listed : list InvoiceController.BodyRequest)
    : list InvoiceController.BodyRequest :=
  List.filter
    (fun request =>
       bool_decide (is_Some (findById (InvoiceController.r_id request)
                               (requests d))))
    listed.

(** No tuple comes before a tuple with a larger key. *)
Fixpoint newestFirst (key : InvoiceModel.Tuple -> Z)
    (ts : list InvoiceModel.Tuple) : Prop :=
  match ts with
  | [] => True
  | t :: rest =>
      Forall (fun later => (key later <= key t)%Z) rest /\ newestFirst key rest
  end.

(** Stripe on a day when charges come back declined, and the stable
    after Sam has left. *)
Definition stripeDeclined : Stripe.Api :=
  Stripe.mkApi
    (fun _ _ => Stripe.ChargeReturns "ch_1" (Some "Your card was declined."))
    (fun _ _ => Stripe.TransferReturns "tr_1").

Definition worldWithoutSam : World :=
  mkWorld
    (mkDB [Sample.pat] (horses Sample.stable) (requests Sample.stable)
       (invoices Sample.stable) (payments Sample.stable) [])
    [].

(** Kim, a farrier who has no request, and an invoice of Sam whose only
    request was reassigned to Ray. *)
Definition kim : User.t :=
  User.mk 4 "Kim" "kim@farrier.test" [User.SERVICE_PROVIDER] ["device-kim"]
    None (Some "acct_kim") true.

Definition invoiceOfRay : PInvoice :=
  mkPInvoice (Sample.invoice 23 [13%nat] [3%nat] None)
    [Request.mk 13 Sample.now (Some 7%nat) (Some 1%nat) 2 (Some 3%nat) []
       [Sample.shoeing] None None (QcZ 100) None None (Some Sample.now) None
       true Sample.now]
    (Some Sample.sam) [Sample.ray] (Some Sample.star) (Some Sample.pat)
    [(Some Sample.pat, QcZ 100)] [].

(** A stable where Star is leased to Ray, and the update by which Pat
    leases her to Sam instead. *)
Definition worldWithLease : World :=
  mkWorld
    (mkDB (users Sample.stable)
       [Horse.mk 7 (Some "Star") (Some "Northern Star") (Some "Mare")
          [Owner.mk 1 (QcZ 100)] (Some 3%nat) (Some 1%nat) (Some 1%nat)]
       (requests Sample.stable) (invoices Sample.stable)
       (payments Sample.stable) [])
    [].

Definition leaseToSam : HorseController.Req :=
  HorseController.mkReq 7
    (HorseController.mkBody (Some "Star") None None None None
       (Some (Some 2%nat)) None)
    Sample.pat.

(** The transfer of a Stripe call, and a pending transfer as it is sent:
    funded by the charge. *)
Definition transferOf (e : Effect) : option Stripe.Transfer :=
  match e with
  | Transfer t _ => Some t
  | _ => None
  end.

Definition fundedBy (chargeId : string) (pending : Stripe.Transfer)
    : Stripe.Transfer :=
  Stripe.mkTransfer (Stripe.amount pending) (Stripe.currency pending)
    (Stripe.destination pending) (Some chargeId).

(** Pat pays all of invoice 20 with a tip of $10. *)
Definition payWithTip : PaymentController.Req :=
  PaymentController.mkReq
    (PaymentController.mkBody (Some 20%nat) (Some 1%nat) (Some 1%nat)
       (Some 2%nat) (QcZ 100) (QcZ 100) (Some (QcZ 10)) (Some "uuid-2") [])
    Sample.pat.

(** * Proofs

    ** Frames: what a handler leaves alone *)

Global Instance sameWorld_pre : PreOrder sameWorld.
Proof. split; unfold sameWorld; [intros ?; reflexivity | intros ? ? ? -> ->; reflexivity]. Qed.

Global Instance sameInvoices_pre : PreOrder sameInvoices.
Proof. split; unfold sameInvoices; [intros ?; reflexivity | intros ? ? ? H1 H2; congruence]. Qed.

Global Instance samePayments_pre : PreOrder samePayments.
Proof. split; unfold samePayments; [intros ?; reflexivity | intros ? ? ? H1 H2; congruence]. Qed.

Global Instance sameRequests_pre : PreOrder sameRequests.
Proof. split; unfold sameRequests; [intros ?; reflexivity | intros ? ? ? H1 H2; congruence]. Qed.

Global Instance sameUsers_pre : PreOrder sameUsers.
Proof. split; unfold sameUsers; [intros ?; reflexivity | intros ? ? ? H1 H2; congruence]. Qed.

Global Instance sameTrace_pre : PreOrder sameTrace.
Proof. split; unfold sameTrace; [intros ?; reflexivity | intros ? ? ? H1 H2; congruence]. Qed.

Global Instance emitsOnly_pre allowed : PreOrder (emitsOnly allowed).
Proof.
  split.
  - intros w. exists []. split; [by rewrite app_nil_r | constructor].
  - intros w1 w2 w3 (n1 & E1 & F1) (n2 & E2 & F2).
    exists (n1 ++ n2)%list. split.
    + by rewrite E2, E1, <- app_assoc.
    + by apply Forall_app.
Qed.

Section Preserves.

Context (R : relation World) `{!PreOrder R}.

Lemma preserves_ret {A} (a : A) : preserves R (ret a).
Proof. intros w o w' [= <- <-]. reflexivity. Qed.

Lemma preserves_throw {A} e : preserves R (@throw A e).
Proof. intros w o w' [= <- <-]. reflexivity. Qed.

Lemma preserves_deref {A} what (o : option A) : preserves R (deref what o).
Proof. destruct o; [apply preserves_ret | apply preserves_throw]. Qed.

Lemma preserves_getDB : preserves R getDB.
Proof. intros w o w' [= <- <-]. reflexivity. Qed.

Lemma preserves_getTrace : preserves R getTrace.
Proof. intros w o w' [= <- <-]. reflexivity. Qed.

Lemma preserves_bind {A B} (m : M A) (k : A -> M B) :
  preserves R m -> (forall a, preserves R (k a)) -> preserves R (bind m k).
Proof.
  intros Hm Hk w o w'. unfold bind.
  destruct (m w) as [[a|e] w1] eqn:E; intros H.
  - etrans; [exact (Hm _ _ _ E) | exact (Hk _ _ _ _ H)].
  - injection H as <- <-. exact (Hm _ _ _ E).
Qed.

Lemma preserves_tryCatch {A} (m : M A) (h : JsError -> M A) :
  preserves R m -> (forall e, preserves R (h e)) -> preserves R (tryCatch m h).
Proof.
  intros Hm Hh w o w'. unfold tryCatch.
  destruct (m w) as [[a|e] w1] eqn:E; intros H.
  - injection H as <- <-. exact (Hm _ _ _ E).
  - etrans; [exact (Hm _ _ _ E) | exact (Hh _ _ _ _ H)].
Qed.

Lemma preserves_finallyThen {A B} (m : M A) (f : M B) :
  preserves R m -> preserves R f ->
  preserves R (PaymentController.finallyThen m f).
Proof.
  intros Hm Hf w o w'. unfold PaymentController.finallyThen.
  destruct (m w) as [[a|e] w1] eqn:E;
    destruct (f w1) as [[b|e'] w2] eqn:E2; intros [= <- <-];
    (etrans; [exact (Hm _ _ _ E) | exact (Hf _ _ _ E2)]).
Qed.

Lemma preserves_forEach {A} (f : A -> M unit) xs :
  (forall x, preserves R (f x)) -> preserves R (forEach f xs).
Proof.
  intros Hf. induction xs as [|x xs IH]; simpl.
  - apply preserves_ret.
  - apply preserves_bind; [apply Hf | intros _; exact IH].
Qed.

Lemma preserves_foldM {A S} (f : S -> A -> M S) xs :
  (forall s x, preserves R (f s x)) -> forall s, preserves R (foldM f s xs).
Proof.
  intros Hf. induction xs as [|x xs IH]; intros s; simpl.
  - apply preserves_ret.
  - apply preserves_bind; [apply Hf | intros s'; apply IH].
Qed.

Lemma preserves_mapM {A B} (f : A -> M B) xs :
  (forall x, preserves R (f x)) -> preserves R (mapM f xs).
Proof.
  intros Hf. induction xs as [|x xs IH]; simpl.
  - apply preserves_ret.
  - apply preserves_bind; [apply Hf | intros y].
    apply preserves_bind; [exact IH | intros ys; apply preserves_ret].
Qed.

Lemma preserves_modifyDB (f : DB -> DB) :
  (forall w, R w (mkWorld (f (db w)) (trace w))) -> preserves R (modifyDB f).
Proof. intros H w o w' [= <- <-]. apply H. Qed.

Lemma preserves_emit e :
  (forall w, R w (mkWorld (db w) (trace w ++ [e]))) -> preserves R (emit e).
Proof. intros H w o w' [= <- <-]. apply H. Qed.

End Preserves.

(** The handlers are taken apart by unfolding their parts, combinator by
    combinator; [frame_prim] closes the frame of a single write or effect,
    [known_frame] is the place for frames proved by hand. *)
Create HintDb handlers.

#[global] Hint Unfold
  PaymentController.sendPushNotification PaymentController.sendEmail
  PaymentController.emailInvoiceReceipt PaymentController.pendingForRequest
  PaymentController.pendingForTip PaymentController.buildPending
  PaymentController.reportFailedPayout PaymentController.transactionFor
  PaymentController.processTransfer PaymentController.announcePayment
  PaymentController.settleInvoice PaymentController.answer
  PaymentController.chargeFailed
  Notification_create Invoice_save Request_save Payment_save Payment_remove
  : handlers.

Ltac frame_prim :=
  first
    [ reflexivity
    | exists []; split; [by rewrite app_nil_r | constructor]
    | eexists [_]; split; [reflexivity | repeat constructor] ].

Ltac known_frame := fail.

Ltac preserve_step :=
  lazymatch goal with
  | |- PreOrder _ => exact _
  | |- forall _, _ => intros ?
  | |- preserves _ (ret _) => apply preserves_ret
  | |- preserves _ (throw _) => apply preserves_throw
  | |- preserves _ (deref _ _) => apply preserves_deref
  | |- preserves _ getDB => apply preserves_getDB
  | |- preserves _ getTrace => apply preserves_getTrace
  | |- preserves _ (bind _ _) => apply preserves_bind
  | |- preserves _ (tryCatch _ _) => apply preserves_tryCatch
  | |- preserves _ (PaymentController.finallyThen _ _) =>
      apply preserves_finallyThen
  | |- preserves _ (forEach _ _) => apply preserves_forEach
  | |- preserves _ (foldM _ _ _) => apply preserves_foldM
  | |- preserves _ (mapM _ _) => apply preserves_mapM
  | |- preserves _ (modifyDB _) => apply preserves_modifyDB; intros ?; frame_prim
  | |- preserves _ (emit _) => apply preserves_emit; intros ?; frame_prim
  | |- preserves _ (if ?b then _ else _) => destruct b
  | |- preserves _ (match ?x with _ => _ end) => destruct x
  | |- preserves _ _ =>
      first [ known_frame
            | progress cbn beta iota zeta
            | progress autounfold with handlers ]
  end.

Ltac preserve := repeat preserve_step.

Lemma buildPending_reads env newPayment invoice populatedPayment :
  preserves sameWorld
    (PaymentController.buildPending env newPayment invoice populatedPayment).
Proof. preserve. Qed.

Section PayoutFrames.

Context (env : Env) (stripe : Stripe.Api) (now : Date)
  (newPayment : PaymentController.Body) (invoice : PInvoice)
  (populatedPayment : Payment.t) (chargeId : string).

Let payOne := PaymentController.processTransfer env stripe now newPayment
                invoice populatedPayment chargeId.

Lemma processTransfer_invoices st x : preserves sameInvoices (payOne st x).
Proof. subst payOne. destruct x. preserve. Qed.

Lemma processTransfer_requests st x : preserves sameRequests (payOne st x).
Proof. subst payOne. destruct x. preserve. Qed.

Lemma processTransfer_noCharge st x : preserves (emitsOnly notCharge) (payOne st x).
Proof. subst payOne. destruct x. preserve. Qed.

End PayoutFrames.

Lemma announcePayment_invoices req payingUser invoice pending p :
  preserves sameInvoices (PaymentController.announcePayment req payingUser invoice pending p).
Proof. preserve. Qed.

Lemma announcePayment_payments req payingUser invoice pending p :
  preserves samePayments (PaymentController.announcePayment req payingUser invoice pending p).
Proof. preserve. Qed.

Lemma announcePayment_noStripe req payingUser invoice pending p :
  preserves (emitsOnly notStripe) (PaymentController.announcePayment req payingUser invoice pending p).
Proof. preserve. Qed.

Lemma settleInvoice_payments now req tip invoice :
  preserves samePayments (PaymentController.settleInvoice now req tip invoice).
Proof. preserve. Qed.

Lemma settleInvoice_noStripe now req tip invoice :
  preserves (emitsOnly notStripe) (PaymentController.settleInvoice now req tip invoice).
Proof. preserve. Qed.

Lemma answer_payments now failed invoice p :
  preserves samePayments (PaymentController.answer now failed invoice p).
Proof. preserve. Qed.

Lemma answer_invoices now failed invoice p :
  preserves sameInvoices (PaymentController.answer now failed invoice p).
Proof. preserve. Qed.

Lemma answer_trace now failed invoice p :
  preserves sameTrace (PaymentController.answer now failed invoice p).
Proof. preserve. Qed.

(** ** Taking a run apart *)

(** The first [bind] of the run in [H]: one goal where its left part
    returned, one where it threw. *)
Ltac unbind H :=
  unfold bind at 1 in H;
  match type of H with
  | (match ?m ?w with _ => _ end) = _ =>
      let o := fresh "o" in let w1 := fresh "w" in let E := fresh "E" in
      destruct (m w) as [o w1] eqn:E; destruct o
  end.

Tactic Notation "unbind_in" hyp(H) "as" ident(w1) ident(E) :=
  unfold bind at 1 in H;
  match type of H with
  | (match ?m ?w with _ => _ end) = _ =>
      let o := fresh "o" in
      destruct (m w) as [o w1] eqn:E; destruct o
  end.

(** ** [payment.controller.js] *)
Section PaymentProperties.
Import PaymentController.

Lemma newEffects_app w w' l :
  trace w' = (trace w ++ l)%list -> newEffects w w' = l.
Proof. intros E. unfold newEffects. rewrite E. apply drop_app_length. Qed.

Lemma newEffects_same w w' : trace w' = trace w -> newEffects w w' = [].
Proof. intros E. apply newEffects_app. by rewrite app_nil_r. Qed.

Section Docs.

Context `{Document A}.
Implicit Types docs : list A.

Lemma newId_fresh docs x : x ∈ docs -> (idOf x < newId docs)%nat.
Proof.
  unfold newId. induction docs as [|y docs IH]; [by intros ?%elem_of_nil|].
  intros [->|Hin]%elem_of_cons; cbn; [lia|]. specialize (IH Hin). lia.
Qed.

Lemma removeDoc_fresh docs i :
  (forall x, x ∈ docs -> idOf x <> i) -> removeDoc i docs = docs.
Proof.
  intros Hfresh. unfold removeDoc.
  induction docs as [|y docs IH]; [done|]. cbn.
  rewrite bool_decide_eq_false_2 by (apply Hfresh; left). cbn.
  f_equal. apply IH. intros x Hx. apply Hfresh. by right.
Qed.

Lemma removeDoc_app docs docs' i :
  removeDoc i (docs ++ docs') = (removeDoc i docs ++ removeDoc i docs')%list.
Proof. unfold removeDoc. apply List.filter_app. Qed.

Lemma findById_Some docs i x : findById i docs = Some x -> idOf x = i /\ x ∈ docs.
Proof.
  unfold findById. intros [Hin Hp]%List.find_some. split.
  - by apply bool_decide_eq_true_1 in Hp.
  - by apply list_elem_of_In.
Qed.

Lemma findById_updateDoc docs i j (f : A -> A) :
  (forall x, idOf (f x) = idOf x) ->
  findById i (updateDoc j f docs)
  = if bool_decide (i = j) then f <$> findById i docs else findById i docs.
Proof.
  intros Hf. unfold findById, updateDoc.
  induction docs as [|y docs IH]; cbn; [by case_bool_decide|].
  destruct (bool_decide (idOf y = j)) eqn:Ej.
  - apply bool_decide_eq_true_1 in Ej. rewrite Hf.
    destruct (bool_decide (idOf y = i)) eqn:Ei.
    + apply bool_decide_eq_true_1 in Ei.
      rewrite bool_decide_eq_true_2 by congruence. done.
    + exact IH.
  - destruct (bool_decide (idOf y = i)) eqn:Ei.
    + apply bool_decide_eq_true_1 in Ei. apply bool_decide_eq_false_1 in Ej.
      rewrite bool_decide_eq_false_2 by congruence. done.
    + exact IH.
Qed.

Lemma findById_saveDoc docs i (doc : A) :
  findById i (saveDoc doc docs)
  = if bool_decide (i = idOf doc) then (fun _ => doc) <$> findById i docs
    else findById i docs.
Proof.
  unfold saveDoc. unfold findById, updateDoc.
  induction docs as [|y docs IH]; cbn; [by case_bool_decide|].
  destruct (bool_decide (idOf y = idOf doc)) eqn:Ej.
  - apply bool_decide_eq_true_1 in Ej.
    destruct (bool_decide (idOf doc = i)) eqn:Ei.
    + apply bool_decide_eq_true_1 in Ei.
      rewrite bool_decide_eq_true_2 by congruence.
      rewrite bool_decide_eq_true_2 by congruence. done.
    + apply bool_decide_eq_false_1 in Ei.
      rewrite (bool_decide_eq_false_2 (idOf y = i)) by congruence. exact IH.
  - apply bool_decide_eq_false_1 in Ej.
    destruct (bool_decide (idOf y = i)) eqn:Ei.
    + apply bool_decide_eq_true_1 in Ei.
      rewrite bool_decide_eq_false_2 by congruence. done.
    + exact IH.
Qed.

End Docs.

Lemma Payment_create_inv doc w o w1 :
  Payment_create doc w = (o, w1) ->
  (exists e, o = Throw e /\ w1 = w) \/
  (exists pp, o = Ret pp /\
     (forall x, x ∈ payments (db w) -> Payment._id x <> Payment._id pp) /\
     Payment._invoice pp = Payment._invoice doc /\
     Payment._payingUser pp = Payment._payingUser doc /\
     Payment.transactions pp = Payment.transactions doc /\
     w1 = mkWorld (set_payments (fun stored => stored ++ [pp])%list (db w)) (trace w)).
Proof.
  unfold Payment_create. destruct (Payment._serviceProvider doc).
  - intros [= <- <-]. right. eexists. split; [reflexivity|].
    cbn. split; [|done].
    intros x Hx. pose proof (newId_fresh _ _ Hx) as Hlt.
    unfold idOf, Payment_document in Hlt.
    intros Heq. rewrite Heq in Hlt. unfold idOf, Payment_document in Hlt. lia.
  - intros [= <- <-]. left. eauto.
Qed.

Section Attempt.

Context (env : Env) (stripe : Stripe.Api) (now : Date) (req : Req)
  (invoiceTip : option Qc) (payingUser : User.t) (invoice : PInvoice)
  (pending : Pending) (populatedPayment : Payment.t).

Let chargeObj :=
  Stripe.mkCharge (toFixed0 (runningInvoiceTotal pending * QcZ 100)) currency
    (User.stripeCustomerId payingUser) (User.email payingUser).

Let key := if truthyStr (uuid (body req)) then uuid (body req) else None.

Lemma chargeFailed_noCharge error :
  preserves (emitsOnly notCharge) (chargeFailed env invoice populatedPayment error).
Proof. preserve. Qed.

Lemma payOut_noCharge chargeId fm :
  preserves (emitsOnly notCharge)
    (payOut env stripe now req invoiceTip payingUser invoice pending
       populatedPayment chargeId fm).
Proof. unfold payOut. preserve. Qed.

Lemma attempt_charge_returns w o w' chargeId fm :
  Stripe.charges_create stripe chargeObj key = Stripe.ChargeReturns chargeId fm ->
  attempt env stripe now req invoiceTip payingUser invoice pending
    populatedPayment w = (o, w') ->
  exists new,
    trace w' = (trace w ++ Charge chargeObj key (Stripe.ChargeReturns chargeId fm) :: new)%list
    /\ Forall (fun e => notCharge e = true) new.
Proof.
  intros Hans. unfold attempt, chargeAndPayOut.
  fold chargeObj key. rewrite Hans.
  unfold tryCatch at 1, bind at 1, bind at 1, emit at 1.
  set (w1 := mkWorld (db w) (trace w ++ [_])%list).
  destruct (payOut _ _ _ _ _ _ _ _ _ _ _ w1) as [[done|e] w2] eqn:E.
  - intros [= <- <-]. apply payOut_noCharge in E as (new & E1 & F1).
    exists new. split; [|done]. rewrite E1. subst w1. cbn.
    by rewrite <- app_assoc.
  - intros H.
    apply payOut_noCharge in E as (new & E1 & F1).
    unfold bind in H.
    destruct (chargeFailed _ _ _ _ w2) as [[r|e'] w3] eqn:E3;
      injection H as <- <-;
      apply chargeFailed_noCharge in E3 as (new' & E2 & F2);
      exists (new ++ new')%list; (split; [|by apply Forall_app]);
      rewrite E2, E1; subst w1; cbn; by rewrite <- !app_assoc.
Qed.

Lemma attempt_charge_throws w m :
  Stripe.charges_create stripe chargeObj key = Stripe.ChargeThrows m ->
  attempt env stripe now req invoiceTip payingUser invoice pending
    populatedPayment w =
  (Ret (inl (utils.respondWithError (chargeFailureMessage m))),
   mkWorld
     (set_invoices
        (updateDoc (Invoice._id (doc invoice)) (Invoice.set_paidInFullAt None))
        (set_payments (removeDoc (Payment._id populatedPayment)) (db w)))
     (trace w ++ [Charge chargeObj key (Stripe.ChargeThrows m);
                  Mail (ADMIN_EMAIL env) None "Stripe Charge Failure"
                    "../app/payment/views/stripeChargeFailureEmail.html"])%list).
Proof.
  intros Hans. unfold attempt, chargeAndPayOut.
  fold chargeObj key. rewrite Hans.
  unfold tryCatch, bind, emit, throw, chargeFailed, sendEmail, emit, bind,
    Payment_remove, modifyDB, getDB, Invoice_save, modifyDB, ret. cbn.
  rewrite <- app_assoc; cbn; destruct m; reflexivity.
Qed.

End Attempt.

Lemma set_paidInFullAt_id d i : Invoice._id (Invoice.set_paidInFullAt d i) = Invoice._id i.
Proof. reflexivity. Qed.

(** What a run of [pay] that made a charge looks like. *)
Lemma pay_charged env stripe now req invoice payingUser w o w' c k a :
  pay env stripe now req invoice payingUser w = (o, w') ->
  Charge c k a ∈ newEffects w w' ->
  exists pp pending w1,
    (forall x, x ∈ payments (db w) -> Payment._id x <> Payment._id pp) /\
    Payment._invoice pp = _invoice (body req) /\
    Payment._payingUser pp = _payingUser (body req) /\
    Payment.transactions pp = [] /\
    w1 = mkWorld (set_payments (fun stored => stored ++ [pp])%list (db w)) (trace w) /\
    buildPending env (body req) invoice pp w1 = (Ret pending, w1) /\
    exists outcome w2,
      attempt env stripe now req (tip (body req)) payingUser invoice pending pp w1
        = (outcome, w2) /\
      match outcome with
      | Ret (inl response) => o = Ret response /\ w' = w2
      | Ret (inr (failed, marked, recorded)) =>
          answer now failed marked recorded w2 = (o, w')
      | Throw e => o = Throw e /\ w' = w2
      end.
Proof.
  unfold pay. intros Hrun Hin.
  unbind Hrun.
  - apply Payment_create_inv in E as [(e & [=] & _)|(pp & [= <-] & Hfresh & Hi & Hu & Ht & ->)].
    cbn in Hi, Hu, Ht.
    unbind Hrun.
    + pose proof (buildPending_reads _ _ _ _ _ _ _ E) as Hsame.
      unfold sameWorld in Hsame. subst w0.
      eexists a0, a1, _. do 4 (split; [done|]). split; [reflexivity|].
      split; [exact E|].
      unbind Hrun.
      * exists (Ret a2), w0. split; [done|].
        destruct a2 as [response|[[failed marked] recorded]]; [|done].
        by injection Hrun as <- <-.
      * exists (Throw e), w0. split; [done|]. by injection Hrun as <- <-.
    + pose proof (buildPending_reads _ _ _ _ _ _ _ E) as Hsame.
      unfold sameWorld in Hsame. subst w0. injection Hrun as <- <-.
      rewrite newEffects_same in Hin by done. by apply elem_of_nil in Hin.
  - apply Payment_create_inv in E as [(e' & [= ->] & ->)|(pp & [=] & _)].
    injection Hrun as <- <-.
    rewrite newEffects_same in Hin by done. by apply elem_of_nil in Hin.
Qed.

(** What a run of [createBody] that made a charge looks like. *)
Lemma createBody_charged env stripe now req w o w' c k a :
  createBody env stripe now req w = (o, w') ->
  Charge c k a ∈ newEffects w w' ->
  exists i found payingUser,
    _invoice (body req) = Some i /\
    findById i (invoices (db w)) = Some found /\
    Invoice.deletedAt found = None /\
    (_payingUser (body req) ≫= fun u => findById u (users (db w))) = Some payingUser /\
    paymentsOfInvoiceBy (db w) (_invoice (body req)) (_payingUser (body req)) = [] /\
    pay env stripe now req (populateInvoice (db w) found) payingUser w = (o, w').
Proof.
  unfold createBody. intros Hrun Hin.
  assert (Hearly : forall (o0 : Outcome Response), (o0, w) = (o, w') -> False).
  { intros o0 [= <- <-]. rewrite newEffects_same in Hin by done.
    by apply elem_of_nil in Hin. }
  unfold bind at 1, getDB at 1 in Hrun.
  destruct (_invoice (body req)) as [i|] eqn:Ei; cbn in Hrun;
    [|by apply Hearly in Hrun].
  destruct (findById i (invoices (db w))) as [found|] eqn:Ef; cbn in Hrun;
    [|by apply Hearly in Hrun].
  unfold bind, ret in Hrun. cbn in Hrun.
  destruct (bool_decide (is_Some (Invoice.deletedAt found))) eqn:Ed;
    [by apply Hearly in Hrun|].
  destruct (_payingUser (body req)) as [u|] eqn:Eu;
    [|by apply Hearly in Hrun].
  destruct (findById u (users (db w))) as [payingUser|] eqn:Epu;
    [|by apply Hearly in Hrun].
  destruct (negb (truthyStr (User.stripeCustomerId payingUser))
            || negb (User.accountSetupComplete payingUser));
    [by apply Hearly in Hrun|].
  destruct (bool_decide (length (paymentsOfInvoiceBy (db w) (Some i) (Some u)) = 0%nat)) eqn:El;
    cbn in Hrun; [|by apply Hearly in Hrun].
  exists i, found, payingUser. split; [done|]. split; [done|].
  split.
  { apply bool_decide_eq_false_1 in Ed. destruct (Invoice.deletedAt found); [|done].
    exfalso. apply Ed. eauto. }
  split; [done|]. split; [|done].
  apply bool_decide_eq_true_1 in El. by apply length_zero_iff_nil.
Qed.

Lemma create_inv env stripe now req w r w' :
  create env stripe now req w = (Ret r, w') ->
  createBody env stripe now req w = (Ret r, w') \/
  exists e, r = Next e /\ createBody env stripe now req w = (Throw e, w').
Proof.
  unfold create, tryCatch.
  destruct (createBody env stripe now req w) as [[r0|e] w0].
  - intros [= <- <-]. by left.
  - intros [= <- <-]. right. eauto.
Qed.

Lemma create_total env stripe now req w :
  exists r, fst (create env stripe now req w) = Ret r.
Proof.
  unfold create, tryCatch.
  destruct (createBody env stripe now req w) as [[r0|e] w0]; cbn; eauto.
Qed.

Lemma removeDoc_created (docs : list Payment.t) pp :
  (forall x, x ∈ docs -> Payment._id x <> Payment._id pp) ->
  removeDoc (Payment._id pp) (docs ++ [pp]) = docs.
Proof.
  intros Hfresh. rewrite removeDoc_app, removeDoc_fresh by exact Hfresh.
  unfold removeDoc. cbn. unfold idOf, Payment_document.
  rewrite bool_decide_eq_true_2 by done. cbn. apply app_nil_r.
Qed.

(** C4.  When the Stripe charge of [create] throws, the handler
    compensates: the payments are what they were before the call (the
    payment created for the attempt is removed), the stored invoice has
    [paidInFullAt] reset to null, the only things that left the server are
    the charge call and one mail to the administrator with the subject
    "Stripe Charge Failure", and the caller gets the 422 error response
    with the message of the error, or the default text when it has none. *)
Theorem charge_failure_is_compensated env stripe now req w r w' c k m
  (Hrun : create env stripe now req w = (Ret r, w'))
  (Hthrows : Charge c k (Stripe.ChargeThrows m) ∈ newEffects w w') :
  payments (db w') = payments (db w)
  /\ (exists i found,
        _invoice (body req) = Some i
        /\ findById i (invoices (db w)) = Some found
        /\ findById i (invoices (db w'))
           = Some (Invoice.set_paidInFullAt None found))
  /\ newEffects w w'
     = [Charge c k (Stripe.ChargeThrows m);
        Mail (ADMIN_EMAIL env) None "Stripe Charge Failure"
          "../app/payment/views/stripeChargeFailureEmail.html"]
  /\ r = utils.respondWithError
           match m with
           | EmptyString => DEFAULT_CHARGE_FAILURE
           | _ => m
           end.
Proof.
  assert (exists o, createBody env stripe now req w = (o, w')
                    /\ (forall r0, o = Ret r0 -> r = r0)) as (o & Hbody & Hr).
  { apply create_inv in Hrun as [H|(e & -> & H)]; eexists; (split; [exact H|]).
    - by intros r0 [= ->].
    - by intros r0 [=]. }
  destruct (createBody_charged _ _ _ _ _ _ _ _ _ _ Hbody Hthrows)
    as (i & found & payingUser & Hi & Hfound & _ & _ & _ & Hpay).
  destruct (pay_charged _ _ _ _ _ _ _ _ _ _ _ _ Hpay Hthrows)
    as (pp & pending & w1 & Hfresh & _ & _ & _ & Hw1 & _ & outcome & w2 & Hatt & Hout).
  set (chargeObj :=
         Stripe.mkCharge (toFixed0 (runningInvoiceTotal pending * QcZ 100))
           currency (User.stripeCustomerId payingUser) (User.email payingUser)) in *.
  set (key := if truthyStr (uuid (body req)) then uuid (body req) else None) in *.
  destruct (Stripe.charges_create stripe chargeObj key) as [chargeId fm|m'] eqn:Hans.
  - (* the charge returned: no throwing charge is in the trace *)
    exfalso.
    destruct (attempt_charge_returns _ _ _ _ _ _ _ _ _ _ _ _ _ _ Hans Hatt)
      as (new & Htr & Hnew).
    assert (trace w' = trace w2) as Htr'.
    { destruct outcome as [[response|[[failed marked] recorded]]|e].
      - by destruct Hout as [_ ->].
      - by apply answer_trace in Hout.
      - by destruct Hout as [_ ->]. }
    rewrite (newEffects_app w w' (Charge chargeObj key (Stripe.ChargeReturns chargeId fm) :: new))
      in Hthrows.
    2:{ rewrite Htr', Htr. by subst w1. }
    apply elem_of_cons in Hthrows as [[=]|Hin].
    rewrite Forall_forall in Hnew. by specialize (Hnew _ Hin).
  - rewrite (attempt_charge_throws _ _ _ _ _ _ _ _ _ _ _ Hans) in Hatt.
    injection Hatt as <- <-. destruct Hout as [-> ->].
    rewrite (newEffects_app w _ [Charge chargeObj key (Stripe.ChargeThrows m');
        Mail (ADMIN_EMAIL env) None "Stripe Charge Failure"
          "../app/payment/views/stripeChargeFailureEmail.html"]) in Hthrows |- *
      by (by subst w1).
    assert (c = chargeObj /\ k = key /\ m = m') as (-> & -> & ->).
    { apply elem_of_cons in Hthrows as [[= -> -> ->]|Hin]; [done|].
      apply elem_of_cons in Hin as [[=]|Hin]. by apply elem_of_nil in Hin. }
    subst w1. cbn [db payments invoices set_invoices set_payments trace
                   populateInvoice doc].
    split; [by apply removeDoc_created|].
    split.
    { exists i, found. split; [done|]. split; [done|].
      rewrite findById_updateDoc by done.
      destruct (findById_Some _ _ _ Hfound) as [Hid _].
      unfold idOf, Invoice_document in Hid.
      rewrite bool_decide_eq_true_2 by done. by rewrite Hfound. }
    split; [done|]. by apply Hr.
Qed.

Lemma emailInvoiceReceipt_invoices invoice :
  preserves sameInvoices (emailInvoiceReceipt invoice).
Proof. preserve. Qed.

Lemma emailInvoiceReceipt_payments invoice :
  preserves samePayments (emailInvoiceReceipt invoice).
Proof. preserve. Qed.

Lemma paymentsOfInvoice_ext d d' i :
  payments d' = payments d -> paymentsOfInvoice d' i = paymentsOfInvoice d i.
Proof. unfold paymentsOfInvoice. by intros ->. Qed.

Lemma settleInvoice_inv now req invoiceTip invoice w marked w' :
  settleInvoice now req invoiceTip invoice w = (Ret marked, w') ->
  payments (db w') = payments (db w) /\
  doc marked
  = markInvoice now invoiceTip
      (paymentsOfInvoice (db w') (_invoice (body req))) (doc invoice) /\
  invoices (db w') = saveDoc (doc marked) (invoices (db w)).
Proof.
  intros Hrun.
  pose proof (settleInvoice_payments _ _ _ _ _ _ _ Hrun) as Hpay.
  unfold samePayments in Hpay. split; [done|].
  rewrite (paymentsOfInvoice_ext _ _ _ Hpay).
  unfold settleInvoice in Hrun.
  unfold bind at 1, getDB at 1 in Hrun.
  unfold bind at 1, Invoice_save, modifyDB in Hrun.
  unbind_in Hrun as w1 E; [|done].
  injection Hrun as <- <-.
  split; [done|].
  match type of E with
  | (if ?b then _ else _) ?w0 = _ =>
      assert (sameInvoices w0 w1) as Hinv
  end.
  { destruct (bool_decide _).
    - exact (emailInvoiceReceipt_invoices _ _ _ _ E).
    - by injection E as _ <-. }
  unfold sameInvoices in Hinv. rewrite Hinv. reflexivity.
Qed.

Lemma payouts_invoices env stripe now newPayment invoice pp chargeId st xs :
  preserves sameInvoices
    (foldM (processTransfer env stripe now newPayment invoice pp chargeId) st xs).
Proof. apply preserves_foldM; [exact _|]. intros. apply processTransfer_invoices. Qed.

Lemma payOut_inv env stripe now req invoiceTip payingUser invoice pending pp
    chargeId fm w failed marked recorded w' :
  payOut env stripe now req invoiceTip payingUser invoice pending pp chargeId fm w
    = (Ret (failed, marked, recorded), w') ->
  truthyStr fm = false ->
  doc marked
  = markInvoice now invoiceTip
      (paymentsOfInvoice (db w') (_invoice (body req))) (doc invoice) /\
  invoices (db w') = saveDoc (doc marked) (invoices (db w)).
Proof.
  unfold payOut. intros Hrun Hfm. rewrite Hfm in Hrun. cbn [negb] in Hrun.
  unbind_in Hrun as w1 E; [|done].
  apply payouts_invoices in E. unfold sameInvoices in E.
  unbind_in Hrun as w2 E0; [|done].
  apply announcePayment_invoices in E0. unfold sameInvoices in E0.
  unbind_in Hrun as w3 E1; [|done].
  injection Hrun as <- <- <- <-.
  apply settleInvoice_inv in E1 as (_ & Hdoc & Hsave).
  split; [done|]. by rewrite Hsave, E0, E.
Qed.

Lemma attempt_inv env stripe now req invoiceTip payingUser invoice pending pp w o w' :
  attempt env stripe now req invoiceTip payingUser invoice pending pp w = (o, w') ->
  match o with
  | Ret (inl response) => exists message, response = utils.respondWithError message
  | Ret (inr done) =>
      exists chargeId fm w1,
        Stripe.charges_create stripe
          (Stripe.mkCharge (toFixed0 (runningInvoiceTotal pending * QcZ 100))
             currency (User.stripeCustomerId payingUser) (User.email payingUser))
          (if truthyStr (uuid (body req)) then uuid (body req) else None)
        = Stripe.ChargeReturns chargeId fm /\
        invoices (db w1) = invoices (db w) /\
        payOut env stripe now req invoiceTip payingUser invoice pending pp
          chargeId fm w1 = (Ret done, w')
  | Throw _ => False
  end.
Proof.
  unfold attempt, tryCatch, chargeAndPayOut.
  unfold bind at 1, bind at 1, emit at 1.
  destruct (Stripe.charges_create stripe _ _) as [chargeId fm|m] eqn:Hans.
  - match goal with
    | |- context [payOut ?a ?b ?c ?d ?e ?f ?g ?h ?i ?j ?k ?w1] =>
        destruct (payOut a b c d e f g h i j k w1) as [[done|e0] w2] eqn:E
    end.
    + intros [= <- <-]. exists chargeId, fm. eexists. split; [done|].
      split; [|exact E]. reflexivity.
    + unfold chargeFailed, bind, sendEmail, emit, Payment_remove, modifyDB, ret.
      intros [= <- <-]. eauto.
  - unfold throw, chargeFailed, bind, sendEmail, emit, Payment_remove, modifyDB, ret.
    intros [= <- <-]. eauto.
Qed.

Lemma markInvoice_id now tip prev i : Invoice._id (markInvoice now tip prev i) = Invoice._id i.
Proof. unfold markInvoice. by repeat case_bool_decide. Qed.

Lemma markInvoice_paidInFullAt now tip prev i :
  Invoice.paidInFullAt (markInvoice now tip prev i)
  = if bool_decide (length prev = length (Invoice._payingUsers i))
    then Some now else Invoice.paidInFullAt i.
Proof. unfold markInvoice. by repeat case_bool_decide. Qed.

(** C1.  When [create] answers with a payment after a charge that went
    through, the stored invoice is marked paid in full, at the time of the
    call, when the number of payments recorded against the invoice equals
    the number of entries of its [_payingUsers]; otherwise [paidInFullAt]
    is left as it was.  So on an invoice that was not marked before,
    [paidInFullAt] is set exactly when the two numbers are equal, and is
    null otherwise. *)
Theorem paid_in_full_with_last_payer env stripe now req w w' message payment
    c k chargeId fm
  (Hrun : create env stripe now req w
          = (Ret (Status 200 (Some (JPayment message payment))), w'))
  (Hcharged : Charge c k (Stripe.ChargeReturns chargeId fm) ∈ newEffects w w')
  (Hwent : truthyStr fm = false) :
  exists i found stored,
    _invoice (body req) = Some i
    /\ findById i (invoices (db w)) = Some found
    /\ findById i (invoices (db w')) = Some stored
    /\ let recorded := length (paymentsOfInvoice (db w') (Some i)) in
       let payers := length (Invoice._payingUsers found) in
       (recorded = payers -> Invoice.paidInFullAt stored = Some now)
       /\ (recorded <> payers ->
           Invoice.paidInFullAt stored = Invoice.paidInFullAt found)
       /\ (Invoice.paidInFullAt found = None ->
           (is_Some (Invoice.paidInFullAt stored) <-> recorded = payers)).
Proof.
  apply create_inv in Hrun as [Hbody|(e & [=] & _)].
  destruct (createBody_charged _ _ _ _ _ _ _ _ _ _ Hbody Hcharged)
    as (i & found & payingUser & Hi & Hfound & _ & _ & _ & Hpay).
  destruct (pay_charged _ _ _ _ _ _ _ _ _ _ _ _ Hpay Hcharged)
    as (pp & pending & w1 & _ & _ & _ & _ & Hw1 & _ & outcome & w2 & Hatt & Hout).
  pose proof (attempt_inv _ _ _ _ _ _ _ _ _ _ _ _ Hatt) as Hinv.
  pose proof (attempt_charge_returns env stripe now req (tip (body req))
                payingUser (populateInvoice (db w) found) pending pp w1) as Hone.
  destruct outcome as [[response|[[failed marked] recorded]]|e]; [| |done].
  { destruct Hinv as (msg & ->). by destruct Hout as [[=] _]. }
  destruct Hinv as (chargeId' & fm' & w1' & Hans & Hinvs & Hpayout).
  destruct (Hone _ _ _ _ Hans Hatt) as (new & Htr & Hnew).
  pose proof (answer_trace _ _ _ _ _ _ _ Hout) as Htr'.
  pose proof (answer_invoices _ _ _ _ _ _ _ Hout) as Hinv'.
  pose proof (answer_payments _ _ _ _ _ _ _ Hout) as Hpay'.
  unfold sameTrace in Htr'. unfold sameInvoices in Hinv'.
  unfold samePayments in Hpay'.
  erewrite newEffects_app in Hcharged.
  2:{ rewrite Htr', Htr. by subst w1. }
  apply elem_of_cons in Hcharged as [[= _ _ <- <-]|Hin].
  2:{ rewrite Forall_forall in Hnew. by specialize (Hnew _ Hin). }
  destruct (payOut_inv _ _ _ _ _ _ _ _ _ _ _ _ _ _ _ _ Hpayout Hwent)
    as (Hdoc & Hsave).
  rewrite Hi in Hdoc.
  destruct (findById_Some _ _ _ Hfound) as [Hid _].
  unfold idOf, Invoice_document in Hid.
  assert (Invoice._id (doc marked) = i) as Hmid.
  { rewrite Hdoc. etrans; [apply markInvoice_id|done]. }
  exists i, found, (doc marked). split; [done|]. split; [done|].
  split.
  { rewrite Hinv', Hsave, Hinvs. subst w1.
    cbn [db invoices set_payments].
    rewrite findById_saveDoc.
    rewrite bool_decide_eq_true_2 by (symmetry; exact Hmid).
    by rewrite Hfound. }
  rewrite (paymentsOfInvoice_ext _ _ _ Hpay').
  rewrite Hdoc, markInvoice_paidInFullAt. cbn [populateInvoice doc].
  cbn zeta. case_bool_decide as Hc.
  - split; [done|]. split; [done|]. intros _. split; [done|eauto].
  - split; [done|]. split; [done|]. intros ->. split; [|done].
    by intros [? [=]].
Qed.

(** A second payment for the same invoice and paying user is refused
    with the world untouched: nothing is written and nothing is sent, so no
    charge is attempted.  Once the earlier guards of the handler pass, the
    answer is the 422 response "A payment has already been made against
    this invoice for ...". *)
Lemma duplicate_payment_is_refused env stripe now req w existing
  (Hdup : existing ∈ paymentsOfInvoiceBy (db w) (_invoice (body req))
                       (_payingUser (body req))) :
  exists r,
    create env stripe now req w = (Ret r, w)
    /\ refusal r
    /\ forall found payingUser,
         (_invoice (body req) ≫= fun i => findById i (invoices (db w))) = Some found ->
         Invoice.deletedAt found = None ->
         (_payingUser (body req) ≫= fun u => findById u (users (db w)))
           = Some payingUser ->
         truthyStr (User.stripeCustomerId payingUser) = true ->
         User.accountSetupComplete payingUser = true ->
         r = utils.respondWithError (alreadyPaid payingUser).
Proof.
  unfold create, tryCatch, createBody.
  unfold bind at 1, getDB at 1.
  destruct (_invoice (body req) ≫= _) as [found|] eqn:Ef; cbn [deref].
  2:{ unfold bind, throw. eexists. split; [reflexivity|].
      split; [right; eauto|]. intros ? ? ?; discriminate. }
  unfold bind at 1, ret at 1. cbn [populateInvoice doc].
  destruct (Invoice.deletedAt found) as [deleted|] eqn:Ed.
  { rewrite bool_decide_eq_true_2 by eauto. unfold ret.
    eexists. split; [reflexivity|]. split; [left; eauto|].
    intros ? ? [= <-] ?; congruence. }
  rewrite bool_decide_eq_false_2 by (by intros [? [=]]).
  destruct (_payingUser (body req)) as [u|] eqn:Eu.
  2:{ unfold ret. eexists. split; [reflexivity|]. split; [left; eauto|].
      intros ? ? _ _ ?; discriminate. }
  destruct (findById u (users (db w))) as [payingUser|] eqn:Epu.
  2:{ unfold ret. eexists. split; [reflexivity|]. split; [left; eauto|].
      cbn. rewrite Epu. intros ? ? _ _ ?; discriminate. }
  destruct (truthyStr (User.stripeCustomerId payingUser)) eqn:Es; cbn [negb orb].
  2:{ unfold ret. eexists. split; [reflexivity|]. split; [left; eauto|].
      cbn. rewrite Epu. intros ? ? _ _ [= <-] ? ?; congruence. }
  destruct (User.accountSetupComplete payingUser) eqn:Ea; cbn [negb orb].
  2:{ unfold ret. eexists. split; [reflexivity|]. split; [left; eauto|].
      cbn. rewrite Epu. intros ? ? _ _ [= <-] ? ?; congruence. }
  rewrite bool_decide_eq_false_2.
  2:{ intros Hlen. apply length_zero_iff_nil in Hlen.
      rewrite Hlen in Hdup. by apply elem_of_nil in Hdup. }
  cbn [negb]. unfold ret.
  eexists. split; [reflexivity|]. split; [left; eauto|].
  cbn. rewrite Epu. intros ? ? _ _ [= <-] _ _. reflexivity.
Qed.

Global Instance keepsPayers_pre pid key : PreOrder (keepsPayers pid key).
Proof.
  split.
  - intros w H. split; [reflexivity | exact H].
  - intros w1 w2 w3 H12 H23 H1.
    destruct (H12 H1) as [S12 H2]. destruct (H23 H2) as [S23 H3].
    split; [by etrans | exact H3].
Qed.

Lemma keepsPayers_same pid key w w' :
  payments (db w') = payments (db w) -> keepsPayers pid key w w'.
Proof. intros E H. rewrite E. split; [reflexivity | exact H]. Qed.

Lemma keepsPayers_save pp txs w :
  keepsPayers (Payment._id pp) (payerOf pp) w
    (mkWorld (set_payments (saveDoc (Payment.set_transactions txs pp)) (db w))
             (trace w)).
Proof.
  intros H. cbn [db payments set_payments].
  unfold saveDoc, updateDoc. split.
  - replace (map payerOf (map _ (payments (db w)))) with (map payerOf (payments (db w)));
      [reflexivity|].
    rewrite map_map. apply map_ext_in. intros x Hx%list_elem_of_In.
    case_bool_decide as Hid; [|done].
    change (payerOf x = payerOf pp). by apply H.
  - intros x Hx Hid. apply list_elem_of_fmap in Hx as (y & -> & Hy).
    case_bool_decide; [done|]. by apply H.
Qed.

Lemma keepsPayers_remove pid key i w :
  keepsPayers pid key w
    (mkWorld (set_payments (removeDoc i) (db w)) (trace w)).
Proof.
  intros H. cbn [db payments set_payments]. unfold removeDoc. split.
  - clear H. induction (payments (db w)) as [|y l IH]; [constructor|].
    cbn [List.filter]. destruct (negb _); cbn [map].
    + apply sublist_skip, IH.
    + apply sublist_cons, IH.
  - intros x Hx%list_elem_of_In Hid. apply List.filter_In in Hx as [Hx _].
    apply H; [by apply list_elem_of_In | done].
Qed.

Ltac frame_prim ::=
  first
    [ reflexivity
    | exists []; split; [by rewrite app_nil_r | constructor]
    | eexists [_]; split; [reflexivity | repeat constructor]
    | apply keepsPayers_same; reflexivity
    | apply keepsPayers_save
    | apply keepsPayers_remove ].

#[local] Hint Unfold attempt chargeAndPayOut payOut : handlers.

Lemma sublist_filter_length {A} (g : A -> bool) l1 l2 :
  sublist l1 l2 -> (length (List.filter g l1) <= length (List.filter g l2))%nat.
Proof.
  induction 1 as [|x l1 l2 _ IH|x l1 l2 _ IH]; cbn; [lia| |];
    destruct (g x); cbn; lia.
Qed.

Lemma paymentsOfInvoiceBy_keys d i u :
  length (paymentsOfInvoiceBy d i u)
  = length (List.filter (fun key => bool_decide (key = (i, u)))
              (map payerOf (payments d))).
Proof.
  unfold paymentsOfInvoiceBy, find.
  induction (payments d) as [|p l IH]; [done|]. cbn.
  destruct (bool_decide (Payment._invoice p = i)) eqn:Ei;
    destruct (bool_decide (Payment._payingUser p = u)) eqn:Eu; cbn;
    [apply bool_decide_eq_true_1 in Ei; apply bool_decide_eq_true_1 in Eu
    |apply bool_decide_eq_false_1 in Eu
    |apply bool_decide_eq_false_1 in Ei
    |apply bool_decide_eq_false_1 in Ei].
  - rewrite bool_decide_eq_true_2 by (unfold payerOf; congruence). cbn. by rewrite IH.
  - rewrite bool_decide_eq_false_2 by (unfold payerOf; congruence). exact IH.
  - rewrite bool_decide_eq_false_2 by (unfold payerOf; congruence). exact IH.
  - rewrite bool_decide_eq_false_2 by (unfold payerOf; congruence). exact IH.
Qed.

Lemma pay_keepsPayers env stripe now req invoice payingUser w o w' :
  pay env stripe now req invoice payingUser w = (o, w') ->
  payments (db w') = payments (db w) \/
  exists pp,
    payerOf pp = (_invoice (body req), _payingUser (body req)) /\
    sublist (map payerOf (payments (db w')))
            (map payerOf (payments (db w) ++ [pp])).
Proof.
  unfold pay. intros Hrun.
  unbind_in Hrun as w1 E.
  - apply Payment_create_inv in E as [(e & [=] & _)|(pp & [= <-] & Hfresh & Hi & Hu & Ht & ->)].
    cbn in Hi, Hu.
    right. exists a. split; [unfold payerOf; congruence|].
    match type of Hrun with
    | ?m ?w1 = _ => assert (preserves (keepsPayers (Payment._id a) (payerOf a)) m) as Hk
    end.
    { preserve. }
    apply Hk in Hrun. apply Hrun.
    cbn [db payments set_payments].
    intros x [Hx|Hx%list_elem_of_singleton]%elem_of_app Hid; [|by subst].
    by apply Hfresh in Hx.
  - apply Payment_create_inv in E as [(e' & [= ->] & ->)|(pp & [=] & _)].
    injection Hrun as <- <-. by left.
Qed.

(** [create] keeps the payments at most one for each invoice and paying
    user, whatever the run does. *)
Lemma create_keeps_one_payment_per_payer env stripe now req w o w' :
  onePaymentPerPayer (db w) ->
  create env stripe now req w = (o, w') ->
  onePaymentPerPayer (db w').
Proof.
  intros Hone Hrun.
  assert (exists o0, createBody env stripe now req w = (o0, w')) as [o0 Hbody].
  { unfold create, tryCatch in Hrun.
    destruct (createBody env stripe now req w) as [[r|e] w0];
      injection Hrun as <- <-; eauto. }
  clear Hrun. unfold createBody in Hbody.
  unfold bind at 1, getDB at 1 in Hbody.
  assert (Hearly : forall (o1 : Outcome Response), (o1, w) = (o0, w') ->
                   onePaymentPerPayer (db w')).
  { by intros o1 [= <- <-]. }
  destruct (_invoice (body req)) as [i|] eqn:Ei; cbn in Hbody;
    [|by apply Hearly in Hbody].
  destruct (findById i (invoices (db w))) as [found|] eqn:Ef; cbn in Hbody;
    [|by apply Hearly in Hbody].
  unfold bind, ret in Hbody. cbn in Hbody.
  destruct (bool_decide (is_Some (Invoice.deletedAt found)));
    [by apply Hearly in Hbody|].
  destruct (_payingUser (body req)) as [u|] eqn:Eu;
    [|by apply Hearly in Hbody].
  destruct (findById u (users (db w))) as [payingUser|];
    [|by apply Hearly in Hbody].
  destruct (negb (truthyStr (User.stripeCustomerId payingUser))
            || negb (User.accountSetupComplete payingUser));
    [by apply Hearly in Hbody|].
  destruct (bool_decide (length (paymentsOfInvoiceBy (db w) (Some i) (Some u)) = 0%nat)) eqn:El;
    cbn in Hbody; [|by apply Hearly in Hbody].
  apply bool_decide_eq_true_1 in El.
  apply pay_keepsPayers in Hbody as [Hsame|(pp & Hkey & Hsub)].
  { intros i0 u0. unfold paymentsOfInvoiceBy. rewrite Hsame. apply Hone. }
  intros i0 u0. rewrite paymentsOfInvoiceBy_keys.
  etrans; [apply sublist_filter_length, Hsub|].
  rewrite map_app, List.filter_app, length_app. cbn.
  rewrite <- paymentsOfInvoiceBy_keys.
  rewrite Hkey, Ei, Eu.
  case_bool_decide as Hk; cbn.
  - injection Hk as <- <-. rewrite El. lia.
  - specialize (Hone i0 u0). lia.
Qed.














(** C10.  For an invoice and a paying user who already has a payment
    against it, [create] answers with an error and leaves the world as it
    was: no payment is created, and nothing is sent, so no charge is
    attempted; once the earlier guards pass, the error is "A payment has
    already been made against this invoice for ...".  And if every invoice
    has at most one payment for each paying user before a call of
    [create], the same holds after it. *)
Theorem one_payment_per_invoice_and_payer env stripe now req w :
  (forall existing,
      existing ∈ paymentsOfInvoiceBy (db w) (_invoice (body req))
                   (_payingUser (body req)) ->
      exists r,
        create env stripe now req w = (Ret r, w)
        /\ refusal r
        /\ forall found payingUser,
             (_invoice (body req) ≫= fun i => findById i (invoices (db w)))
               = Some found ->
             Invoice.deletedAt found = None ->
             (_payingUser (body req) ≫= fun u => findById u (users (db w)))
               = Some payingUser ->
             truthyStr (User.stripeCustomerId payingUser) = true ->
             User.accountSetupComplete payingUser = true ->
             r = utils.respondWithError (alreadyPaid payingUser))
  /\ (forall o w',
        onePaymentPerPayer (db w) ->
        create env stripe now req w = (o, w') ->
        onePaymentPerPayer (db w')).
Proof.
  split.
  - intros existing Hdup. exact (duplicate_payment_is_refused _ _ _ _ _ _ Hdup).
  - intros o w' Hone Hrun.
    exact (create_keeps_one_payment_per_payer _ _ _ _ _ _ _ Hone Hrun).
Qed.

End PaymentProperties.

(** ** [horse.model.js] and [horse.controller.js] *)
Section HorseProperties.
Import HorseController.

Global Instance keepsHorsesValid_pre : PreOrder keepsHorsesValid.
Proof.
  split; unfold keepsHorsesValid; [by intros w | intros w1 w2 w3; tauto].
Qed.

Lemma validate_owners h :
  Horse.validate h = [] -> ownersTotal100 h.
Proof.
  unfold Horse.validate, ownersTotal100. intros Hv Hne.
  apply app_eq_nil in Hv as [_ Hv]. apply app_eq_nil in Hv as [_ Hv].
  apply app_eq_nil in Hv as [_ Hv]. apply app_eq_nil in Hv as [Hv _].
  unfold Horse.ownersValidator in Hv.
  rewrite bool_decide_eq_false_2 in Hv.
  2:{ intros Hlen. by apply length_zero_iff_nil in Hlen. }
  cbn [negb Horse.validatorPasses] in Hv.
  case_bool_decide; [done|discriminate].
Qed.


Lemma Horse_save_inv doc w o w' :
  Horse_save doc w = (o, w') ->
  (o = Ret tt /\ Horse.validate doc = []
   /\ w' = mkWorld (set_horses (saveDoc doc) (db w)) (trace w))
  \/ (o = Throw (ValidationError (Horse.validate doc))
      /\ Horse.validate doc <> [] /\ w' = w).
Proof.
  unfold Horse_save. destruct (Horse.validate doc) as [|e errors].
  - intros [= <- <-]. by left.
  - intros [= <- <-]. by right.
Qed.

Lemma Horse_create_inv doc w o w' :
  Horse_create doc w = (o, w') ->
  let created :=
    Horse.mk (newId (horses (db w))) (Horse.barnName doc) (Horse.showName doc)
      (Horse.gender doc) (Horse._owners doc) (Horse._leasedTo doc)
      (Horse._trainer doc) (Horse._createdBy doc) in
  Horse.validate created = Horse.validate doc /\
  ((o = Ret created /\ Horse.validate doc = []
    /\ w' = mkWorld (set_horses (fun stored => stored ++ [created])%list (db w))
                    (trace w))
   \/ (o = Throw (ValidationError (Horse.validate doc))
       /\ Horse.validate doc <> [] /\ w' = w)).
Proof.
  intros Hrun created. unfold Horse_create, bind, getDB in Hrun.
  fold created in Hrun.
  assert (Hv : Horse.validate created = Horse.validate doc) by reflexivity.
  split; [exact Hv|]. rewrite Hv in Hrun.
  destruct (Horse.validate doc) as [|e errors].
  - unfold modifyDB, ret in Hrun. injection Hrun as <- <-. by left.
  - injection Hrun as <- <-. by right.
Qed.

Lemma Horse_save_valid doc : preserves keepsHorsesValid (Horse_save doc).
Proof.
  intros w o w' Hrun.
  apply Horse_save_inv in Hrun as [(-> & Hv & ->)|(_ & _ & ->)]; [|done].
  unfold keepsHorsesValid, horsesValid. cbn [db horses set_horses].
  unfold saveDoc, updateDoc. rewrite !Forall_forall.
  intros Hall x (y & -> & Hy)%list_elem_of_fmap.
  case_bool_decide; [by apply validate_owners | by apply Hall].
Qed.

Lemma Horse_create_valid doc : preserves keepsHorsesValid (Horse_create doc).
Proof.
  intros w o w' Hrun. apply Horse_create_inv in Hrun as [Hv Hrun]. cbn zeta in *.
  destruct Hrun as [(-> & Hok & ->)|(_ & _ & ->)]; [|done].
  unfold keepsHorsesValid, horsesValid. cbn [db horses set_horses].
  intros Hall. apply Forall_app. split; [done|].
  apply Forall_singleton. apply validate_owners. by rewrite Hv.
Qed.

Lemma keepsHorsesValid_same w w' :
  horses (db w') = horses (db w) -> keepsHorsesValid w w'.
Proof. unfold keepsHorsesValid, horsesValid. by intros ->. Qed.

Ltac known_frame ::=
  first [ apply Horse_save_valid | apply Horse_create_valid ].

Ltac frame_prim ::=
  first [ reflexivity | apply keepsHorsesValid_same; reflexivity ].



End HorseProperties.

(** ** [invoice.model.js]: the CSV export *)
Section CsvProperties.
Import InvoiceModel.

Lemma bind_Ret_inv {A B} (m : M A) (k : A -> M B) w b w' :
  bind m k w = (Ret b, w') ->
  exists a w1, m w = (Ret a, w1) /\ k a w1 = (Ret b, w').
Proof.
  unfold bind. destruct (m w) as [[a|e] w1]; [eauto|done].
Qed.

Lemma mapM_Ret_inv {A B} (f : A -> M B) (R : relation World) `{!PreOrder R} xs :
  (forall x, preserves R (f x)) ->
  forall w ys w',
    mapM f xs w = (Ret ys, w') ->
    R w w' /\ Forall2 (fun x y => exists w1 w2, R w w1 /\ f x w1 = (Ret y, w2)) xs ys.
Proof.
  intros Hf. induction xs as [|x xs IH]; intros w ys w'; cbn [mapM].
  - intros [= <- <-]. split; [reflexivity|constructor].
  - intros (y & w1 & Hy & Hrest)%bind_Ret_inv.
    apply bind_Ret_inv in Hrest as (ys' & w2 & Hys & [= <- <-]).
    pose proof (Hf _ _ _ _ Hy) as H1.
    destruct (IH _ _ _ Hys) as [H2 Hall].
    split; [by etrans|]. constructor.
    + exists w, w1. split; [reflexivity|done].
    + eapply Forall2_impl; [exact Hall|].
      intros x' y' (wa & wb & Hwa & Hrun). exists wa, wb. split; [by etrans|done].
Qed.

(** ** Strings *)

Lemma append_cons c (s t : string) : String c s ++ t = String c (s ++ t).
Proof. reflexivity. Qed.

Lemma length_append (s t : string) :
  String.length (s ++ t) = (String.length s + String.length t)%nat.
Proof.
  induction s as [|c s IH]; [reflexivity|].
  rewrite append_cons. cbn [String.length]. rewrite IH. reflexivity.
Qed.

Lemma append_assoc (s t u : string) : (s ++ t) ++ u = s ++ (t ++ u).
Proof.
  induction s as [|c s IH]; [reflexivity|]. rewrite !append_cons, IH. reflexivity.
Qed.


Lemma substring_append (s t : string) n :
  String.substring 0 (String.length s + n) (s ++ t) = s ++ String.substring 0 n t.
Proof.
  induction s as [|c s IH]; [reflexivity|].
  rewrite !append_cons. cbn [String.length Nat.add String.substring].
  rewrite IH. reflexivity.
Qed.

Lemma substring_all (s : string) : String.substring 0 (String.length s) s = s.
Proof.
  induction s as [|c s IH]; [reflexivity|].
  cbn [String.length String.substring]. rewrite IH. reflexivity.
Qed.



(** Cutting the last character of the cells, each with its comma, leaves
    the cells joined by commas. *)
Lemma concat_cons2 sep (x y : string) xs :
  String.concat sep (x :: y :: xs) = x ++ sep ++ String.concat sep (y :: xs).
Proof. reflexivity. Qed.





Lemma append_nil_r (s : string) : s ++ EmptyString = s.
Proof. induction s as [|c s IH]; [reflexivity|]. rewrite append_cons, IH. reflexivity. Qed.




Lemma concat_empty_cons (x : string) xs :
  String.concat EmptyString (x :: xs) = x ++ String.concat EmptyString xs.
Proof.
  destruct xs; [cbn [String.concat]; by rewrite append_nil_r | reflexivity].
Qed.








(** ** The sort *)
Section CsvLayout.

Context (env : Env) (formatL : Date -> string) (dateValue : string -> Z)
  (numberToString : Qc -> string).

Lemma insertTuple_perm user t sorted :
  insertTuple formatL dateValue user t sorted ≡ₚ t :: sorted.
Proof.
  induction sorted as [|first rest IH]; [reflexivity|].
  cbn [insertTuple]. case_bool_decide; [reflexivity|].
  rewrite IH. apply Permutation_swap.
Qed.

Lemma sortTuples_perm user ts : sortTuples formatL dateValue user ts ≡ₚ ts.
Proof.
  induction ts as [|t ts IH]; [reflexivity|].
  cbn [sortTuples fold_right]. rewrite insertTuple_perm.
  by constructor.
Qed.












End CsvLayout.

End CsvProperties.

(** ** The guards of the invoice and request handlers, and the answer of
    a payment *)
Section Guards.
Import Sample.

(** ** The guards of the invoice and request handlers *)

Lemma invoice_destroy_refused env now req w :
  PaymentController.paymentsOfInvoice (db w) (Some (InvoiceController.params_id req)) <> [] ->
  exists r,
    InvoiceController.destroy env now req w = (Ret r, w)
    /\ r <> utils.respondWithSuccess "Invoice successfully deleted"
    /\ forall found provider,
         findById (InvoiceController.params_id req) (invoices (db w)) = Some found ->
         findById (Invoice._serviceProvider found) (users (db w)) = Some provider ->
         User._id provider = User._id (InvoiceController.user req) ->
         r = utils.respondWithError InvoiceController.DESTROY_REFUSED.
Proof.
  intros Hpaid.
  unfold InvoiceController.destroy, tryCatch, InvoiceController.destroyBody.
  unfold bind at 1, getDB at 1.
  destruct (findById _ (invoices (db w))) as [found|] eqn:Ef.
  2:{ eexists. split; [reflexivity|]. split; [discriminate|]. intros ? ? [=]. }
  cbn [populateInvoice p_serviceProvider].
  destruct (findById (Invoice._serviceProvider found) (users (db w)))
    as [provider|] eqn:Ep; cbn [deref].
  2:{ eexists. split; [reflexivity|]. split; [discriminate|].
      intros ? ? [= <-] ?; congruence. }
  unfold bind at 1, ret at 1.
  case_bool_decide as Hauth.
  { eexists. split; [reflexivity|]. split; [discriminate|].
    intros ? ? [= <-] ? ?; congruence. }
  rewrite bool_decide_eq_false_2
    by (intros Hlen; by apply length_zero_iff_nil in Hlen).
  cbn [negb]. eexists. split; [reflexivity|]. split; [discriminate|]. done.
Qed.

Lemma invoice_update_refused req w :
  PaymentController.paymentsOfInvoice (db w)
    (InvoiceController._id (InvoiceController.body req)) <> [] ->
  InvoiceController.update req w
  = (Ret (utils.respondWithError InvoiceController.UPDATE_REFUSED), w).
Proof.
  intros Hpaid.
  unfold InvoiceController.update, tryCatch, InvoiceController.updateBody.
  unfold bind at 1, getDB at 1.
  rewrite bool_decide_eq_false_2
    by (intros Hlen; by apply length_zero_iff_nil in Hlen).
  reflexivity.
Qed.

Lemma request_update_refused formatDate now req w i original paid :
  RequestController._id (RequestController.body req) = Some i ->
  findById i (requests (db w)) = Some original ->
  Request.paidAt original = Some paid ->
  RequestController.update formatDate now req w
  = (Ret (utils.respondWithError RequestController.ALREADY_PAID), w).
Proof.
  intros Hi Hfound Hpaid.
  unfold RequestController.update, tryCatch, RequestController.updateBody.
  unfold bind at 1, getDB at 1. rewrite Hi. cbn [mbind option_bind].
  rewrite Hfound. cbn [deref]. unfold bind at 1, ret at 1.
  rewrite bool_decide_eq_true_2 by (rewrite Hpaid; eauto).
  reflexivity.
Qed.

(** With a failed payout in the count, the answer is the caution. *)
Lemma answer_caution now failed invoice populatedPayment w :
  (0 < failed)%nat ->
  PaymentController.answer now failed invoice populatedPayment w
  = (Ret (Status 200
            (Some (JPayment PaymentController.PAYOUT_CAUTION populatedPayment))),
     w).
Proof.
  intros H. unfold PaymentController.answer.
  by rewrite bool_decide_eq_true_2.
Qed.

(** C3, at an input where the code departs from it.  Invoice 22 has a
    payment.  [PUT /api/invoices/22] with a body whose [_id] is 20, an
    invoice without payments, is not refused: the handler looks for
    payments under the [_id] of the body and loads the invoice under the
    id of the URL.  The call is not refused, and request 12 of invoice 22
    has the services of the body.  With 22 as the [_id] of the body the
    same call is refused and changes nothing. *)
Theorem invoice_update_guard_reads_body_id :
  let run := InvoiceController.update (putInvoice 22 (Some 20%nat) 12) world in
  PaymentController.paymentsOfInvoice stable (Some 22%nat) = [payment30]
  /\ findById 12 (requests stable) = Some (request 12 (Some now))
  /\ fst run <> Ret (utils.respondWithError InvoiceController.UPDATE_REFUSED)
  /\ findById 12 (requests (db (snd run)))
     = Some (Request.set_services [trimming] (Request.servicesTotal [trimming])
               (request 12 (Some now)))
  /\ InvoiceController.update (putInvoice 22 (Some 22%nat) 12) world
     = (Ret (utils.respondWithError InvoiceController.UPDATE_REFUSED), world).
Proof.
  cbv zeta. split; [reflexivity|]. split; [reflexivity|].
  split; [vm_compute; discriminate|].
  split; [vm_compute; reflexivity|].
  apply invoice_update_refused. vm_compute. discriminate.
Qed.

(** C9, at an input where the code departs from it.  Request 12 is paid.
    [PUT /api/requests/12] with a body whose [_id] is 10, an unpaid
    request, is not refused: the handler reads [paidAt] from the request
    with the [_id] of the body and writes to the request with the id of
    the URL.  The call answers 200 and request 12 has the services of the
    body.  With 12 as the [_id] of the body the same call is refused and
    changes nothing. *)
Theorem request_update_guard_reads_body_id :
  let run := RequestController.update formatDate now (putRequest 12 (Some 10%nat)) world in
  findById 12 (requests stable) = Some (request 12 (Some now))
  /\ Request.paidAt (request 12 (Some now)) = Some now
  /\ (exists body, fst run = Ret (Status 200 body))
  /\ (exists stored,
        findById 12 (requests (db (snd run))) = Some stored
        /\ Request.services stored = [trimming]
        /\ Request.services (request 12 (Some now)) = [shoeing])
  /\ RequestController.update formatDate now (putRequest 12 (Some 12%nat)) world
     = (Ret (utils.respondWithError RequestController.ALREADY_PAID), world).
Proof.
  cbv zeta. split; [reflexivity|]. split; [reflexivity|].
  split; [eexists; vm_compute; reflexivity|].
  split; [eexists; split; [vm_compute; reflexivity|split; reflexivity]|].
  by eapply (request_update_refused _ _ _ _ 12%nat).
Qed.

(** C7, at an input where the code departs from it.  Invoice 21 lists Ray
    among its reassignees, but its request is not reassigned to him.  Pat
    pays; the charge goes through and the transfer to Sam throws, so one
    payout has failed.  Then the push to Ray reads his share of the
    transfers, which is not there; the error lands in the [catch] written
    for a failed charge: the answer is a 422 error, not the 200 caution,
    and the payment is removed although Pat was charged.  On invoice 20,
    without reassignees, the same failed payout is answered with the 200
    caution. *)
Theorem failed_payout_answered_as_failed_charge :
  let run :=
    PaymentController.create env stripeNoTransfers now (payInvoice 21) world in
  existsb chargeWentThrough (trace (snd run)) = true
  /\ existsb payoutFailed (trace (snd run)) = true
  /\ (exists message, fst run = Ret (Status 422 (Some (JMessage message))))
  /\ payments (db (snd run)) = payments stable
  /\ (exists payment,
        fst (PaymentController.create env stripeNoTransfers now (payInvoice 20) world)
        = Ret (Status 200
                 (Some (JPayment PaymentController.PAYOUT_CAUTION payment)))).
Proof.
  cbv zeta. split; [vm_compute; reflexivity|]. split; [vm_compute; reflexivity|].
  split; [eexists; vm_compute; reflexivity|].
  split; [vm_compute; reflexivity|].
  eexists; vm_compute; reflexivity.
Qed.

End Guards.

(** ** The theorems at work in the small stable *)
Section Examples.
Import PaymentController Sample.

Lemma one_payment_per_invoice_and_payer_witness :
  create env stripe now (payInvoice 22) world
  = (Ret (utils.respondWithError (alreadyPaid pat)), world).
Proof.
  destruct (proj1 (one_payment_per_invoice_and_payer env stripe now
                     (payInvoice 22) world) payment30)
    as (r & Hrun & _ & Hmessage).
  - apply list_elem_of_lookup. exists 0%nat. reflexivity.
  - rewrite Hrun. f_equal. f_equal.
    apply (Hmessage (invoice 22 [12%nat] [] (Some now)) pat); reflexivity.
Defined.

Lemma paid_in_full_with_last_payer_witness :
  exists stored,
    findById 20 (invoices (db (snd (create env stripe now (payInvoice 20) world))))
      = Some stored
    /\ Invoice.paidInFullAt stored = Some now.
Proof.
  edestruct (paid_in_full_with_last_payer env stripe now (payInvoice 20) world)
    as (i & found & stored & Hi & Hfound & Hstored & Hyes & _).
  - vm_compute. reflexivity.
  - apply list_elem_of_lookup. exists 0%nat. vm_compute. reflexivity.
  - reflexivity.
  - injection Hi as <-. vm_compute in Hfound. injection Hfound as <-.
    exists stored. split; [exact Hstored|]. apply Hyes. vm_compute. reflexivity.
Defined.

Lemma charge_failure_is_compensated_witness :
  let run := create env stripeNoCharges now (payInvoice 20) world in
  payments (db (snd run)) = payments stable
  /\ fst run = Ret (utils.respondWithError "Your card was declined.").
Proof.
  cbv zeta.
  edestruct (charge_failure_is_compensated env stripeNoCharges now
               (payInvoice 20) world)
    as (Hpayments & _ & _ & Hanswer).
  - vm_compute. reflexivity.
  - apply list_elem_of_lookup. exists 0%nat. vm_compute. reflexivity.
  - split; [exact Hpayments|]. vm_compute. reflexivity.
Defined.





End Examples.

(** * Further properties

    Properties of the same handlers and of the helpers around them: what
    a charge is made of and what follows it, what the handlers that delete
    and update write, and how the helpers of the mails, pushes and exports
    behave. *)

(** ** [components/utils.js] *)
(** ** [components/utils.js] *)
Section UtilsProperties.
Import utils.

Lemma uniq_spec xs : forall seen,
  NoDup (uniq xs seen)
  /\ (forall x, x ∈ uniq xs seen <-> x ∈ xs /\ x ∉ seen).
Proof.
  induction xs as [|x xs IH]; intros seen; cbn [uniq].
  - split; [constructor|]. intros x. split; [by intros ?%elem_of_nil|].
    by intros [?%elem_of_nil _].
  - case_bool_decide as Hseen.
    + destruct (IH seen) as [Hnd Hin]. split; [exact Hnd|].
      intros y. rewrite Hin, elem_of_cons. split; [tauto|].
      intros [[->|Hy] Hn]; [done|tauto].
    + destruct (IH (x :: seen)) as [Hnd Hin]. split.
      * constructor; [|exact Hnd]. rewrite Hin. intros [_ Hn]. apply Hn. by left.
      * intros y. rewrite !elem_of_cons, Hin, elem_of_cons.
        destruct (decide (y = x)) as [->|Hne]; [tauto|]. tauto.
Qed.

Lemma uniq_NoDup xs seen :
  NoDup xs -> (forall x, x ∈ xs -> x ∉ seen) -> uniq xs seen = xs.
Proof.
  revert seen. induction xs as [|x xs IH]; intros seen Hnd Hdis; [done|].
  cbn [uniq]. apply NoDup_cons in Hnd as [Hx Hnd].
  rewrite bool_decide_eq_false_2 by (apply Hdis; by left).
  f_equal. apply IH; [exact Hnd|].
  intros y Hy [->|Hs]%elem_of_cons; [done|]. apply (Hdis y); [by right|done].
Qed.

Lemma uniq_length xs seen : (length (uniq xs seen) <= length xs)%nat.
Proof.
  revert seen. induction xs as [|x xs IH]; intros seen; cbn [uniq]; [done|].
  case_bool_decide; cbn [length];
    [specialize (IH seen)|specialize (IH (x :: seen))]; lia.
Qed.

Lemma uniq_full xs seen :
  length (uniq xs seen) = length xs ->
  NoDup xs /\ forall x, x ∈ xs -> x ∉ seen.
Proof.
  revert seen. induction xs as [|x xs IH]; intros seen Hlen.
  - split; [constructor|]. by intros x ?%elem_of_nil.
  - cbn [uniq] in Hlen. case_bool_decide as Hseen; cbn [length] in Hlen.
    + pose proof (uniq_length xs seen). lia.
    + injection Hlen as Hlen. destruct (IH _ Hlen) as [Hnd Hdis]. split.
      * constructor; [|exact Hnd]. intros Hx. apply (Hdis x Hx). by left.
      * intros y [->|Hy]%elem_of_cons; [done|].
        intros Hs. apply (Hdis y Hy). by right.
Qed.

Lemma joinEmails_all i total (unique : list string) :
  (i + length unique = total)%nat ->
  joinEmails i total unique = String.concat ", " unique.
Proof.
  revert i. induction unique as [|email rest IH]; intros i Hlen; [done|].
  cbn [joinEmails length] in *. destruct rest as [|next rest].
  - cbn [joinEmails length] in *. rewrite bool_decide_eq_true_2 by lia.
    cbn [String.concat]. by rewrite !append_nil_r.
  - rewrite bool_decide_eq_false_2 by (cbn [length] in Hlen; lia).
    rewrite (IH (S i)) by (cbn [length] in *; lia). reflexivity.
Qed.

Lemma joinEmails_short i total (unique : list string) :
  (i + length unique < total)%nat ->
  joinEmails i total unique
  = String.concat EmptyString (map (fun email => email ++ ", ") unique).
Proof.
  revert i. induction unique as [|email rest IH]; intros i Hlen; [done|].
  cbn [joinEmails length map] in *.
  rewrite bool_decide_eq_false_2 by lia.
  rewrite (IH (S i)) by lia. rewrite concat_empty_cons, append_assoc. reflexivity.
Qed.

(** X1.  [buildEmailString], lines 113-125.  Distinct addresses are joined by
    [", "].  When an address occurs twice, it is kept once, but now every
    address, the last one too, is followed by [", "]: the index in the
    array without duplicates never reaches the last index of the array
    with them. *)
Theorem buildEmailString_separators (emails : list string) :
  (NoDup emails -> buildEmailString emails = String.concat ", " emails)
  /\ (~ NoDup emails ->
      exists unique,
        NoDup unique
        /\ (forall email, email ∈ unique <-> email ∈ emails)
        /\ buildEmailString emails
           = String.concat EmptyString
               (map (fun email => email ++ ", ") unique)).
Proof.
  unfold buildEmailString. split.
  - intros Hnd. rewrite uniq_NoDup by (done || by intros ? _ ?%elem_of_nil).
    by apply joinEmails_all.
  - intros Hdup. exists (uniq emails []).
    destruct (uniq_spec emails []) as [Hnd Hin]. split; [exact Hnd|]. split.
    + intros email. rewrite Hin. split; [tauto|]. intros ?; split; [done|].
      by intros ?%elem_of_nil.
    + apply joinEmails_short. cbn.
      pose proof (uniq_length emails []) as Hle.
      destruct (decide (length (uniq emails []) = length emails)) as [Heq|]; [|lia].
      by apply uniq_full in Heq as [? _].
Qed.

Lemma filter_lookup_whitelist {A} (fields : gmap string A)
    (whitelist : list string) key :
  filter (fun entry : string * A => bool_decide (fst entry ∈ whitelist)) fields
    !! key
  = if bool_decide (key ∈ whitelist) then fields !! key else None.
Proof.
  case_bool_decide as Hin.
  - destruct (fields !! key) as [v|] eqn:E.
    + apply map_lookup_filter_Some. split; [done|]. cbn. by apply bool_decide_pack.
    + apply map_lookup_filter_None. by left.
  - apply map_lookup_filter_None. right. intros v _ Hp. cbn in Hp.
    by apply bool_decide_unpack in Hp.
Qed.

(** X2.  [sanitizeObject], lines 82-99: an object keeps exactly its properties
    named in the white list, with their values; sanitizing twice keeps the
    properties in both lists; arrays and falsy values are left alone. *)
Theorem sanitizeObject_keeps_the_white_list {A} (fields : gmap string A)
    (whitelist other : list string) :
  (exists kept,
      sanitizeObject (Obj fields) whitelist = Obj kept
      /\ (forall key,
            kept !! key = if bool_decide (key ∈ whitelist) then fields !! key
                          else None)
      /\ sanitizeObject (sanitizeObject (Obj fields) whitelist) other
         = sanitizeObject (Obj fields)
             (List.filter (fun key => bool_decide (key ∈ other)) whitelist))
  /\ (forall items : list A, sanitizeObject (Arr items) whitelist = Arr items)
  /\ sanitizeObject (@Falsy A) whitelist = Falsy.
Proof.
  split; [|done]. eexists. split; [reflexivity|].
  split; [apply filter_lookup_whitelist|].
  cbn [sanitizeObject]. f_equal. apply map_eq. intros key.
  rewrite !filter_lookup_whitelist.
  destruct (decide (key ∈ other)) as [Ho|Ho];
    destruct (decide (key ∈ whitelist)) as [Hw|Hw].
  - rewrite (bool_decide_eq_true_2 _ Ho), (bool_decide_eq_true_2 _ Hw).
    rewrite bool_decide_eq_true_2; [done|].
    apply list_elem_of_In, List.filter_In. split; [by apply list_elem_of_In|].
    by apply bool_decide_eq_true_2.
  - rewrite (bool_decide_eq_true_2 _ Ho), (bool_decide_eq_false_2 _ Hw).
    rewrite bool_decide_eq_false_2; [done|].
    intros [Hin _]%list_elem_of_In%List.filter_In. by apply Hw, list_elem_of_In.
  - rewrite (bool_decide_eq_false_2 _ Ho).
    rewrite bool_decide_eq_false_2; [done|].
    intros [_ Hin%bool_decide_eq_true_1]%list_elem_of_In%List.filter_In. done.
  - rewrite (bool_decide_eq_false_2 _ Ho).
    rewrite bool_decide_eq_false_2; [done|].
    intros [_ Hin%bool_decide_eq_true_1]%list_elem_of_In%List.filter_In. done.
Qed.

End UtilsProperties.

(** ** [request.model.js] and the reassignees of an invoice *)
Lemma sumOf_cons x xs : sumOf (x :: xs) = x + sumOf xs.
Proof. reflexivity. Qed.

Lemma fold_left_sum {A} (f : A -> Qc) xs : forall acc,
  fold_left (fun a x => a + f x) xs acc = acc + sumOf (map f xs).
Proof.
  induction xs as [|x xs IH]; intros acc; cbn [fold_left map].
  - change (sumOf []) with (Q2Qc 0). ring.
  - rewrite IH, sumOf_cons. ring.
Qed.

Lemma sumOf_app xs ys : sumOf (xs ++ ys) = sumOf xs + sumOf ys.
Proof.
  induction xs as [|x xs IH]; cbn [app].
  - change (sumOf []) with (Q2Qc 0). ring.
  - rewrite !sumOf_cons, IH. ring.
Qed.

Section RequestModelProperties.
Import Request.

Lemma getServices_fold requests : forall out,
  fold_left (fun outputServices request =>
    fold_left (fun acc s => (acc ++ [s])%list) (services request) outputServices)
    requests out
  = (out ++ concat (map services requests))%list.
Proof.
  assert (forall (ss : list Service) out,
            fold_left (fun acc s => (acc ++ [s])%list) ss out = (out ++ ss)%list)
    as Hinner.
  { induction ss as [|s ss IH]; intros out; cbn [fold_left].
    - by rewrite app_nil_r.
    - rewrite IH, <- app_assoc. reflexivity. }
  induction requests as [|r rs IH]; intros out; cbn [fold_left map concat].
  - by rewrite app_nil_r.
  - rewrite IH, Hinner, <- app_assoc. reflexivity.
Qed.

Lemma getServiceCount_fold requests : forall acc,
  fold_left (fun serviceTotal request =>
    fold_left (fun acc s => acc + quantityOrOne s) (services request) serviceTotal)
    requests acc
  = acc + sumOf (map quantityOrOne (concat (map services requests))).
Proof.
  induction requests as [|r rs IH]; intros acc; cbn [fold_left map concat].
  - change (sumOf []) with (Q2Qc 0). ring.
  - rewrite IH, fold_left_sum, map_app, sumOf_app. ring.
Qed.

(** X3.  [getServices] and [getServiceCount], lines 49-68: the services of the
    requests in order, and the sum of their quantities, where a service
    without a quantity, or with the quantity 0, counts as one.  So for
    services without quantities the count is their number. *)
Theorem getServiceCount_counts_the_services (requests : list Request.t) :
  getServices requests = concat (map services requests)
  /\ getServiceCount requests
     = sumOf (map quantityOrOne (getServices requests))
  /\ (forall s, quantity s = None \/ quantity s = Some 0 -> quantityOrOne s = 1)
  /\ (Forall (fun s => quantity s = None) (getServices requests) ->
      getServiceCount requests
      = QcZ (Z.of_nat (length (getServices requests)))).
Proof.
  assert (getServices requests = concat (map services requests)) as Hs.
  { unfold getServices. by rewrite getServices_fold. }
  assert (getServiceCount requests
          = sumOf (map quantityOrOne (getServices requests))) as Hc.
  { unfold getServiceCount. rewrite getServiceCount_fold, Hs. ring. }
  split; [exact Hs|]. split; [exact Hc|]. split.
  - intros s [H|H]; unfold quantityOrOne; rewrite H; [done|]. reflexivity.
  - rewrite Hc. generalize (getServices requests). clear.
    induction l as [|s l IH]; intros Hall; [reflexivity|].
    apply Forall_cons in Hall as [Hs Hl].
    cbn [map length]. rewrite sumOf_cons.
    rewrite (IH Hl). unfold quantityOrOne. rewrite Hs.
    rewrite Nat2Z.inj_succ. unfold QcZ.
    apply Qc_is_canon. cbn [this Qcplus Q2Qc]. rewrite !Qred_correct.
    unfold Z.succ. rewrite inject_Z_plus. ring.
Qed.

End RequestModelProperties.

Section ReassigneeProperties.
Import InvoiceController.

Lemma getInvoiceReassignees_fold requests : forall acc,
  NoDup (map User._id acc) ->
  let result :=
    fold_left
      (fun reassignees request =>
         match r_reassignedTo request with
         | Some reassignee =>
             if existsb (fun o => bool_decide (User._id o = User._id reassignee))
                        reassignees
             then reassignees
             else (reassignees ++ [reassignee])%list
         | None => reassignees
         end)
      requests acc in
  NoDup (map User._id result)
  /\ (forall u, u ∈ result ->
        u ∈ acc \/ exists r, r ∈ requests /\ r_reassignedTo r = Some u)
  /\ (forall u, u ∈ acc -> u ∈ result)
  /\ (forall r u, r ∈ requests -> r_reassignedTo r = Some u ->
        User._id u ∈ map User._id result).
Proof.
  induction requests as [|r rs IH]; intros acc Hnd; cbn [fold_left].
  - split; [exact Hnd|]. split; [by left|]. split; [done|].
    by intros r u ?%elem_of_nil.
  - set (acc' := match r_reassignedTo r with Some _ => _ | None => _ end).
    assert (NoDup (map User._id acc')
            /\ (forall u, u ∈ acc' -> u ∈ acc \/ r_reassignedTo r = Some u)
            /\ (forall u, u ∈ acc -> u ∈ acc')
            /\ (forall u, r_reassignedTo r = Some u ->
                  User._id u ∈ map User._id acc')) as (Hnd' & Hfrom & Hkeep & Hhas).
    { subst acc'. destruct (r_reassignedTo r) as [reassignee|];
        [|split; [exact Hnd|]; split; [by left|]; split; [done|]; intros ? [=]].
      destruct (existsb _ acc) eqn:Ex.
      - split; [exact Hnd|]. split; [by left|]. split; [done|].
        intros u [= <-]. apply existsb_exists in Ex as (o & Ho & Heq).
        apply bool_decide_eq_true_1 in Heq. rewrite <- Heq.
        apply list_elem_of_fmap. exists o. split; [done|by apply list_elem_of_In].
      - split; [|split; [|split]].
        + rewrite map_app. apply NoDup_app. split; [exact Hnd|]. split.
          * intros i Hi Hi'. cbn [map] in Hi'.
            apply list_elem_of_singleton in Hi'. subst i.
            apply list_elem_of_fmap in Hi as (o & Heq & Ho).
            assert (existsb (fun o => bool_decide (User._id o = User._id reassignee)) acc = true);
              [|congruence].
            apply existsb_exists. exists o. split; [by apply list_elem_of_In|].
            by apply bool_decide_eq_true_2.
          * cbn. apply NoDup_singleton.
        + intros u [Hu|Hu]%elem_of_app; [by left|].
          apply list_elem_of_singleton in Hu. subst u. by right.
        + intros u Hu. apply elem_of_app. by left.
        + intros u [= <-]. rewrite map_app. apply elem_of_app. right. by left. }
    destruct (IH acc' Hnd') as (H1 & H2 & H3 & H4).
    split; [exact H1|]. split; [|split].
    + intros u Hu. destruct (H2 u Hu) as [Hacc|(r' & Hr' & Hu')].
      * destruct (Hfrom u Hacc) as [?|?]; [by left|]. right. exists r. split; [by left|done].
      * right. exists r'. split; [by right|done].
    + intros u Hu. by apply H3, Hkeep.
    + intros r' u [->|Hr']%elem_of_cons Hu.
      * apply Hhas in Hu. apply list_elem_of_fmap in Hu as (o & Heq & Ho).
        apply list_elem_of_fmap. exists o. split; [done|]. by apply H3.
      * by apply (H4 r' u).
Qed.

(** X4.  [getInvoiceReassignees], lines 128-141: no user is listed twice, every
    user listed has a request reassigned to them, and the user of every
    reassigned request is listed. *)
Theorem getInvoiceReassignees_lists_each_once (requests : list PRequest) :
  let reassignees := getInvoiceReassignees requests in
  NoDup (map User._id reassignees)
  /\ (forall u, u ∈ reassignees ->
        exists r, r ∈ requests /\ r_reassignedTo r = Some u)
  /\ (forall r u, r ∈ requests -> r_reassignedTo r = Some u ->
        User._id u ∈ map User._id reassignees).
Proof.
  destruct (getInvoiceReassignees_fold requests [] (NoDup_nil_2))
    as (H1 & H2 & _ & H4).
  split; [exact H1|]. split; [|exact H4].
  intros u Hu. destruct (H2 u Hu) as [?%elem_of_nil|?]; done.
Qed.

End ReassigneeProperties.

(** ** [payment.controller.js]: the charge and what follows it *)
Section FurtherPayments.
Import PaymentController.

(** ** [ownerPercentage] *)



(** ** The guards and the effects of [create] *)

Lemma createBody_cases env stripe now req w o w' :
  createBody env stripe now req w = (o, w') ->
  (w' = w /\ ((exists e, o = Throw e)
              \/ exists message, o = Ret (utils.respondWithError message)))
  \/ exists i found payingUser,
       _invoice (body req) = Some i
       /\ findById i (invoices (db w)) = Some found
       /\ Invoice.deletedAt found = None
       /\ (_payingUser (body req) ≫= fun u => findById u (users (db w)))
          = Some payingUser
       /\ truthyStr (User.stripeCustomerId payingUser) = true
       /\ User.accountSetupComplete payingUser = true
       /\ paymentsOfInvoiceBy (db w) (_invoice (body req))
            (_payingUser (body req)) = []
       /\ pay env stripe now req (populateInvoice (db w) found) payingUser w
          = (o, w').
Proof.
  unfold createBody. unfold bind at 1, getDB at 1.
  destruct (_invoice (body req)) as [i|] eqn:Ei; cbn [mbind option_bind];
    [|intros [= <- <-]; left; split; [done|left; eauto]].
  destruct (findById i (invoices (db w))) as [found|] eqn:Ef; cbn [deref];
    [|intros [= <- <-]; left; split; [done|left; eauto]].
  unfold bind at 1, ret at 1. cbn [populateInvoice doc].
  destruct (Invoice.deletedAt found) as [deleted|] eqn:Ed.
  { rewrite bool_decide_eq_true_2 by eauto.
    intros [= <- <-]. left. split; [done|right; eauto]. }
  rewrite bool_decide_eq_false_2 by (by intros [? [=]]).
  destruct (_payingUser (body req)) as [u|] eqn:Eu;
    [|intros [= <- <-]; left; split; [done|right; eauto]].
  destruct (findById u (users (db w))) as [payingUser|] eqn:Epu;
    [|intros [= <- <-]; left; split; [done|right; eauto]].
  destruct (truthyStr (User.stripeCustomerId payingUser)) eqn:Es; cbn [negb orb];
    [|intros [= <- <-]; left; split; [done|right; eauto]].
  destruct (User.accountSetupComplete payingUser) eqn:Ea; cbn [negb orb];
    [|intros [= <- <-]; left; split; [done|right; eauto]].
  case_bool_decide as Hprev; cbn [negb];
    [|intros [= <- <-]; left; split; [done|right; eauto]].
  apply length_zero_iff_nil in Hprev.
  intros Hpay. right. exists i, found, payingUser.
  cbn [mbind option_bind]. rewrite Epu. done.
Qed.

Section AttemptEffects.

Context (env : Env) (stripe : Stripe.Api) (now : Date) (req : Req)
  (invoiceTip : option Qc) (payingUser : User.t) (invoice : PInvoice)
  (pending : Pending) (populatedPayment : Payment.t).

Lemma payOut_paidFrom chargeId fm :
  preserves (emitsOnly (paidFrom chargeId))
    (payOut env stripe now req invoiceTip payingUser invoice pending
       populatedPayment chargeId fm).
Proof.
  unfold payOut. preserve.
  cbn [paidFrom Stripe.source_transaction]. by apply bool_decide_eq_true_2.
Qed.

Lemma chargeFailed_paidFrom chargeId error :
  preserves (emitsOnly (paidFrom chargeId))
    (chargeFailed env invoice populatedPayment error).
Proof. preserve. Qed.

Lemma attempt_effects w o w' :
  attempt env stripe now req invoiceTip payingUser invoice pending
    populatedPayment w = (o, w') ->
  let '(c, k) := chargeFor req payingUser pending in
  exists rest,
    trace w' = (trace w ++ Charge c k (Stripe.charges_create stripe c k) :: rest)%list
    /\ match Stripe.charges_create stripe c k with
       | Stripe.ChargeReturns chargeId fm =>
           Forall (fun e => paidFrom chargeId e = true) rest
           /\ (truthyStr fm = true ->
               rest = [] /\ db w' = db w
               /\ o = Ret (inr (0%nat, invoice, populatedPayment)))
       | Stripe.ChargeThrows m =>
           rest = [Mail (ADMIN_EMAIL env) None "Stripe Charge Failure"
                     "../app/payment/views/stripeChargeFailureEmail.html"]
       end.
Proof.
  unfold chargeFor. cbv zeta.
  set (c := Stripe.mkCharge _ _ _ _). set (k := if truthyStr _ then _ else _).
  destruct (Stripe.charges_create stripe c k) as [chargeId fm|m] eqn:Hans.
  - unfold attempt, chargeAndPayOut. fold c k. rewrite Hans.
    unfold tryCatch at 1, bind at 1, bind at 1, emit at 1.
    set (w1 := mkWorld (db w) (trace w ++ [_])%list).
    destruct (payOut _ _ _ _ _ _ _ _ _ _ _ w1) as [[done|e] w2] eqn:E.
    + intros [= <- <-].
      pose proof E as (new & E1 & F1)%payOut_paidFrom.
      exists new. split; [rewrite E1; subst w1; cbn; by rewrite <- app_assoc|].
      split; [exact F1|]. intros Hfm. unfold payOut in E. rewrite Hfm in E.
      cbn [negb] in E. injection E as <- <-.
      subst w1. cbn [trace db] in *.
      split; [|done]. apply (f_equal (drop (length (trace w ++ [Charge c k (Stripe.ChargeReturns chargeId fm)])))) in E1.
      rewrite drop_all, drop_app_length in E1. done.
    + intros H.
      pose proof E as (new & E1 & F1)%payOut_paidFrom.
      unfold bind in H.
      destruct (chargeFailed _ _ _ _ w2) as [[r|e'] w3] eqn:E3;
        injection H as <- <-;
        apply (chargeFailed_paidFrom chargeId) in E3 as (new' & E2 & F2);
        exists (new ++ new')%list;
        (split; [rewrite E2, E1; subst w1; cbn; by rewrite <- !app_assoc|]);
        (split; [by apply Forall_app|]);
        intros Hfm; unfold payOut in E; rewrite Hfm in E; discriminate E.
  - intros Hrun. rewrite (attempt_charge_throws _ _ _ _ _ _ _ _ _ _ _ Hans) in Hrun.
    injection Hrun as <- <-. eexists. split; [reflexivity|done].
Qed.

End AttemptEffects.

Lemma pay_cases env stripe now req invoice payingUser w o w' :
  pay env stripe now req invoice payingUser w = (o, w') ->
  (exists e, o = Throw e /\ trace w' = trace w)
  \/ exists pp pending w1 outcome w2,
       (forall x, x ∈ payments (db w) -> Payment._id x <> Payment._id pp)
       /\ Payment._invoice pp = _invoice (body req)
       /\ Payment._payingUser pp = _payingUser (body req)
       /\ Payment.transactions pp = []
       /\ w1 = mkWorld (set_payments (fun stored => stored ++ [pp])%list (db w))
                 (trace w)
       /\ buildPending env (body req) invoice pp w1 = (Ret pending, w1)
       /\ attempt env stripe now req (tip (body req)) payingUser invoice
            pending pp w1 = (outcome, w2)
       /\ match outcome with
          | Ret (inl response) => o = Ret response /\ w' = w2
          | Ret (inr (failed, marked, recorded)) =>
              answer now failed marked recorded w2 = (o, w')
          | Throw e => o = Throw e /\ w' = w2
          end.
Proof.
  unfold pay. intros Hrun. unbind_in Hrun as w1 E.
  - apply Payment_create_inv in E
      as [(e & [=] & _)|(pp & [= <-] & Hfresh & Hi & Hu & Ht & ->)].
    cbn [Payment._invoice Payment._payingUser Payment.transactions] in Hi, Hu, Ht.
    unbind_in Hrun as w2 E.
    + pose proof (buildPending_reads _ _ _ _ _ _ _ E) as Hsame.
      unfold sameWorld in Hsame. subst w2.
      right. unbind_in Hrun as w2 E2.
      * eexists _, _, _, _, _. split; [exact Hfresh|].
        split; [exact Hi|]. split; [exact Hu|]. split; [exact Ht|].
        split; [reflexivity|]. split; [exact E|]. split; [exact E2|].
        cbv beta iota.
        match goal with
        | |- match ?x with _ => _ end =>
            destruct x as [response|[[failed marked] recorded]]
        end.
        -- by injection Hrun as <- <-.
        -- exact Hrun.
      * eexists _, _, _, _, _. split; [exact Hfresh|].
        split; [exact Hi|]. split; [exact Hu|]. split; [exact Ht|].
        split; [reflexivity|]. split; [exact E|]. split; [exact E2|].
        cbv beta iota. by injection Hrun as <- <-.
    + pose proof (buildPending_reads _ _ _ _ _ _ _ E) as Hsame.
      unfold sameWorld in Hsame. subst w2.
      injection Hrun as <- <-. left. eauto.
  - apply Payment_create_inv in E
      as [(e' & [= <-] & ->)|(pp & [=] & _)].
    injection Hrun as <- <-. left. eauto.
Qed.

(** X6.  [create], lines 344-795.  One call makes at most one charge, and the
    charge is the first thing that leaves the server: before it nothing is
    sent, and whatever follows it is no charge.  Every transfer that
    follows is funded by this charge (its [source_transaction] is the id
    of the charge), so there is no transfer after a charge that threw or
    that came back with a failure message. *)
Theorem create_charges_once_and_first env stripe now req w :
  let w' := snd (create env stripe now req w) in
  newEffects w w' = []
  \/ exists c k answer rest,
       newEffects w w' = Charge c k answer :: rest
       /\ answer = Stripe.charges_create stripe c k
       /\ Forall (fun e => isCharge e = false) rest
       /\ forall t r, Transfer t r ∈ rest ->
            exists chargeId fm,
              answer = Stripe.ChargeReturns chargeId fm
              /\ truthyStr fm = false
              /\ Stripe.source_transaction t = Some chargeId.
Proof.
  cbv zeta. unfold create, tryCatch.
  destruct (createBody env stripe now req w) as [[r|e] w1] eqn:Hbody;
    cbn [snd ret].
  all: apply createBody_cases in Hbody
         as [[-> _]|(i & found & payingUser & _ & _ & _ & _ & _ & _ & _ & Hpay)];
       [left; by apply newEffects_same|].
  all: apply pay_cases in Hpay
         as [(e' & _ & Htr)|(pp & pending & w1' & outcome & w2 & _ & _ & _ & _ & -> & _ & Hatt & Hout)];
       [left; by apply newEffects_same|].
  all: right; pose proof (attempt_effects _ _ _ _ _ _ _ _ _ _ _ _ Hatt) as Heff;
       unfold chargeFor in Heff; cbv zeta in Heff;
       destruct Heff as (rest & Htrace & Hrest); cbn [trace] in Htrace.
  all: assert (trace w1 = trace w2) as Hsame by
         (destruct outcome as [[response|[[failed marked] recorded]]|e'];
          [by destruct Hout as [_ ->]
          |by apply answer_trace in Hout
          |by destruct Hout as [_ ->]]).
  all: eexists _, _, _, rest; split;
       [apply newEffects_app; rewrite Hsame; exact Htrace|];
       split; [reflexivity|].
  all: destruct (Stripe.charges_create stripe _ _) as [chargeId fm|m];
       [destruct Hrest as [Hall Hfm]; split;
        [eapply Forall_impl; [exact Hall|]; intros [] He; cbn in *; done|];
        intros t r' Hin; exists chargeId, fm; split; [done|];
        rewrite Forall_forall in Hall; pose proof (Hall _ Hin) as Ht; cbn in Ht;
        apply bool_decide_eq_true_1 in Ht; split; [|done];
        destruct (truthyStr fm) eqn:Efm; [|done];
        destruct (Hfm eq_refl) as [-> _]; by apply elem_of_nil in Hin
       |subst rest; split; [by repeat constructor|];
        intros t r' Hin; apply list_elem_of_singleton in Hin; discriminate Hin].
Qed.

Section PaymentAnswers.

#[local] Hint Unfold attempt chargeAndPayOut payOut : handlers.

Lemma attempt_requests env stripe now req invoiceTip payingUser invoice pending pp :
  preserves sameRequests
    (attempt env stripe now req invoiceTip payingUser invoice pending pp).
Proof. preserve. Qed.

Lemma buildPending_requests env newPayment invoice pp :
  preserves sameRequests (buildPending env newPayment invoice pp).
Proof. preserve. Qed.

(** X7.  [create], lines 494-790, with a charge that Stripe returns carrying a
    failure message.  Nothing is paid out and nothing is announced: the
    charge is the only thing that leaves the server.  The payment record
    that was created before the charge stays, the invoice is not touched,
    and the answer is a 200 with the message of a payment that went
    through. *)
Theorem charge_with_failure_message_is_answered_as_paid
    env stripe now req w o w' c k chargeId fm
  (Hrun : create env stripe now req w = (o, w'))
  (Hcharged : Charge c k (Stripe.ChargeReturns chargeId fm) ∈ newEffects w w')
  (Hfailed : truthyStr fm = true) :
  newEffects w w' = [Charge c k (Stripe.ChargeReturns chargeId fm)]
  /\ invoices (db w') = invoices (db w)
  /\ exists payment message,
       payments (db w') = (payments (db w) ++ [payment])%list
       /\ Payment._invoice payment = _invoice (body req)
       /\ Payment._payingUser payment = _payingUser (body req)
       /\ Payment.transactions payment = []
       /\ o = Ret (Status 200 (Some (JPayment message payment)))
       /\ (message = "Payment successful" \/ message = "Invoice paid in full").
Proof.
  assert (exists r, createBody env stripe now req w = (r, w')
                    /\ (forall a, r = Ret a -> o = Ret a)) as (r & Hbody & Hret).
  { unfold create, tryCatch in Hrun.
    destruct (createBody env stripe now req w) as [[a|e] w1] eqn:Hbody.
    - injection Hrun as <- <-. eauto.
    - injection Hrun as <- <-. eexists. split; [reflexivity|]. by intros ? [=]. }
  apply createBody_cases in Hbody
    as [[-> _]|(i & found & payingUser & _ & _ & _ & _ & _ & _ & _ & Hpay)].
  { rewrite newEffects_same in Hcharged by done. by apply elem_of_nil in Hcharged. }
  apply pay_cases in Hpay
    as [(e' & _ & Htr)
       |(pp & pending & w1 & outcome & w2 & _ & Hi & Hu & Ht & -> & _ & Hatt & Hout)].
  { rewrite newEffects_same in Hcharged by done. by apply elem_of_nil in Hcharged. }
  pose proof (attempt_effects _ _ _ _ _ _ _ _ _ _ _ _ Hatt) as Heff.
  unfold chargeFor in Heff. cbv zeta in Heff.
  destruct Heff as (rest & Htrace & Hrest). cbn [trace] in Htrace.
  assert (trace w' = trace w2) as Hsame.
  { destruct outcome as [[response|[[failed marked] recorded]]|e'].
    - by destruct Hout as [_ ->].
    - by apply answer_trace in Hout.
    - by destruct Hout as [_ ->]. }
  rewrite (newEffects_app w w' _ (eq_trans Hsame Htrace)) in Hcharged |- *.
  apply elem_of_cons in Hcharged as [[= Hc Hk Hans]|Hin].
  2:{ exfalso. destruct (Stripe.charges_create stripe _ _) as [chargeId' fm'|m].
      - destruct Hrest as [Hall _]. rewrite Forall_forall in Hall.
        by specialize (Hall _ Hin).
      - subst rest. apply list_elem_of_singleton in Hin. discriminate Hin. }
  subst c k. rewrite <- Hans in Hrest |- *.
  destruct Hrest as [_ Hfm]. destruct (Hfm Hfailed) as (-> & Hdb & ->).
  split; [done|].
  pose proof (answer_invoices _ _ _ _ _ _ _ Hout) as Hinv.
  pose proof (answer_payments _ _ _ _ _ _ _ Hout) as Hpays.
  unfold sameInvoices in Hinv. unfold samePayments in Hpays.
  rewrite Hinv, Hpays, Hdb. cbn [db invoices payments set_payments].
  split; [done|].
  unfold answer in Hout. rewrite bool_decide_eq_false_2 in Hout by lia.
  case_bool_decide as Hfull.
  - unfold bind in Hout.
    destruct (forEach _ _ w2) as [[[]|e] w3] eqn:Hmark.
    + injection Hout as <- <-. eexists _, _. do 4 (split; [done|]).
      split; [apply Hret; reflexivity|by right].
    + exfalso. revert Hmark. clear. generalize w2.
      induction (p_requests _) as [|x xs IH]; intros w0; [done|].
      cbn [forEach]. unfold bind, Request_save, modifyDB. apply IH.
  - injection Hout as <- <-. eexists _, _. do 4 (split; [done|]).
    split; [apply Hret; reflexivity|by left].
Qed.

Lemma forEach_mark (mark : Request.t -> Request.t) (xs : list Request.t) w :
  forEach (fun request => Request_save (mark request)) xs w
  = (Ret tt,
     mkWorld (set_requests
                (fun stored =>
                   fold_left (fun acc request => saveDoc (mark request) acc)
                             xs stored)
                (db w))
             (trace w)).
Proof.
  revert w. induction xs as [|x xs IH]; intros w; cbn [forEach fold_left].
  - by destruct w as [[]].
  - unfold bind, Request_save, modifyDB. rewrite IH. by destruct w as [[]].
Qed.

Lemma fold_mark_other now (xs : list Request.t) r : forall stored,
  r ∉ map Request._id xs ->
  findById r (fold_left (fun acc request =>
                           saveDoc (Request.set_paidAt (Some now) request) acc)
                        xs stored)
  = findById r stored.
Proof.
  induction xs as [|x xs IH]; intros stored Hr; [done|].
  cbn [fold_left]. cbn [map] in Hr. apply not_elem_of_cons in Hr as [Hne Hr].
  rewrite IH by done. rewrite findById_saveDoc.
  by rewrite bool_decide_eq_false_2.
Qed.

Lemma fold_mark_listed now (xs : list Request.t) : forall stored,
  (forall x y, x ∈ xs -> y ∈ xs -> Request._id x = Request._id y -> x = y) ->
  (forall x, x ∈ xs -> is_Some (findById (Request._id x) stored)) ->
  forall x, x ∈ xs ->
    findById (Request._id x)
      (fold_left (fun acc request =>
                    saveDoc (Request.set_paidAt (Some now) request) acc)
                 xs stored)
    = Some (Request.set_paidAt (Some now) x).
Proof.
  induction xs as [|a xs IH]; intros stored Hinj Hfound x Hx;
    [by apply elem_of_nil in Hx|].
  cbn [fold_left].
  assert (forall y, y ∈ xs ->
            is_Some (findById (Request._id y)
                       (saveDoc (Request.set_paidAt (Some now) a) stored)))
    as Hfound'.
  { intros y Hy. rewrite findById_saveDoc.
    destruct (Hfound y) as [z Hz]; [by right|]. rewrite Hz.
    case_bool_decide; eauto. }
  destruct (decide (Request._id x ∈ map Request._id xs)) as [Hin|Hout].
  - apply list_elem_of_fmap in Hin as (y & Hid & Hy).
    assert (x = y) as -> by (apply Hinj; [done|by right|done]).
    apply IH; [|done|done].
    intros ? ? ? ?. apply Hinj; by right.
  - rewrite fold_mark_other by done.
    apply elem_of_cons in Hx as [->|Hx];
      [|exfalso; apply Hout; apply list_elem_of_fmap; eauto].
    rewrite findById_saveDoc. cbn [idOf Request_document Request.set_paidAt Request._id].
    unfold idOf, Request_document. cbn [Request.set_paidAt Request._id].
    rewrite bool_decide_eq_true_2 by done.
    destruct (Hfound a) as [z Hz]; [by left|]. unfold idOf, Request_document in Hz.
    by rewrite Hz.
Qed.

Lemma populated_requests d (ids : list Id) x :
  x ∈ omap (fun r => findById r (requests d)) ids ->
  Request._id x ∈ ids /\ findById (Request._id x) (requests d) = Some x.
Proof.
  intros (r & Hr & Hfind)%list_elem_of_omap.
  destruct (findById_Some _ _ _ Hfind) as [Hid _].
  unfold idOf, Request_document in Hid. subst r. done.
Qed.

(** X8.  [create], lines 758-790.  When the answer is "Invoice paid in full",
    every request of the invoice that is in the database is stored as paid
    at the time of the call, with its other fields as they were, and no
    other request has changed. *)
Theorem paid_in_full_marks_the_requests env stripe now req w w' payment
  (Hrun : create env stripe now req w
          = (Ret (Status 200 (Some (JPayment "Invoice paid in full" payment))),
             w')) :
  exists i found,
    _invoice (body req) = Some i
    /\ findById i (invoices (db w)) = Some found
    /\ (forall r stored,
          r ∈ Invoice._requests found ->
          findById r (requests (db w)) = Some stored ->
          findById r (requests (db w'))
          = Some (Request.set_paidAt (Some now) stored))
    /\ (forall r,
          r ∉ Invoice._requests found ->
          findById r (requests (db w')) = findById r (requests (db w))).
Proof.
  apply create_inv in Hrun as [Hbody|(e & [=] & _)].
  apply createBody_cases in Hbody
    as [[_ [(? & [=])|(? & [=])]]
       |(i & found & payingUser & Hi & Hfound & _ & _ & _ & _ & _ & Hpay)].
  apply pay_cases in Hpay
    as [(? & [=] & _)
       |(pp & pending & w1 & outcome & w2 & _ & _ & _ & _ & -> & Hpend & Hatt & Hout)].
  exists i, found. split; [done|]. split; [done|].
  pose proof (attempt_requests _ _ _ _ _ _ _ _ _ _ _ _ Hatt) as Hreqs.
  unfold sameRequests in Hreqs. cbn [db requests set_payments] in Hreqs.
  destruct outcome as [[response|[[failed marked] recorded]]|e]; [| |by destruct Hout].
  { destruct Hout as [[= <-] _].
    pose proof (attempt_inv _ _ _ _ _ _ _ _ _ _ _ _ Hatt) as (msg & [=]). }
  pose proof (attempt_inv _ _ _ _ _ _ _ _ _ _ _ _ Hatt)
    as (chargeId & fm & w0 & _ & _ & Hpayout).
  assert (p_requests marked = p_requests (populateInvoice (db w) found)) as Hsame.
  { unfold payOut in Hpayout. destruct (negb (truthyStr fm)).
    - unbind_in Hpayout as wa Ea; [|done].
      unbind_in Hpayout as wb Eb; [|done].
      unbind_in Hpayout as wc Ec; [|done].
      injection Hpayout as _ <- _ _.
      unfold settleInvoice in Ec. unfold bind at 1, getDB at 1 in Ec.
      unbind_in Ec as wd Ed; [|done]. unbind_in Ec as we Ee; [|done].
      by injection Ec as <- _.
    - by injection Hpayout as _ <- _ _. }
  unfold answer in Hout. case_bool_decide; [done|].
  case_bool_decide; [|done].
  unfold bind in Hout. rewrite (forEach_mark (Request.set_paidAt (Some now))) in Hout.
  injection Hout as _ <-. cbn [db requests set_requests]. rewrite Hreqs, Hsame.
  cbn [populateInvoice p_requests]. split.
  - intros r stored Hr Hstored.
    destruct (findById_Some _ _ _ Hstored) as [Hid _].
    unfold idOf, Request_document in Hid. subst r.
    apply fold_mark_listed.
    + intros x y [_ Hx]%populated_requests [_ Hy]%populated_requests Hxy.
      rewrite Hxy in Hx. congruence.
    + intros x [_ Hx]%populated_requests. eauto.
    + apply list_elem_of_omap. eauto.
  - intros r Hr. apply fold_mark_other.
    intros (x & -> & [Hx _]%populated_requests)%list_elem_of_fmap. done.
Qed.

End PaymentAnswers.

Section PendingTotals.
Context (env : Env) (newPayment : Body).




End PendingTotals.

Section Messages.

Lemma mapM_deref_present {A} what (present : list A) w :
  mapM (deref what) (map Some present) w = (Ret present, w).
Proof.
  induction present as [|x xs IH]; [done|].
  cbn [map mapM deref]. unfold bind at 1, ret at 1. unfold bind at 1.
  by rewrite IH.
Qed.

Lemma mapM_deref_missing {A} what (recipients : list (option A)) w :
  None ∈ recipients ->
  exists e, mapM (deref what) recipients w = (Throw e, w).
Proof.
  induction recipients as [|x xs IH]; [by intros ?%elem_of_nil|].
  intros Hin. cbn [mapM]. destruct x as [a|].
  - apply elem_of_cons in Hin as [[=]|Hin]. destruct (IH Hin) as (e & He).
    exists e. cbn [deref]. unfold bind at 1, ret at 1. unfold bind at 1.
    by rewrite He.
  - eexists. reflexivity.
Qed.

Lemma elem_of_concat_lists {A} (x : A) (ls : list (list A)) :
  x ∈ concat ls <-> exists l, l ∈ ls /\ x ∈ l.
Proof.
  rewrite list_elem_of_In, in_concat. split.
  - intros (l & Hl & Hx). exists l. by rewrite !list_elem_of_In.
  - intros (l & Hl & Hx). exists l. by rewrite <- !list_elem_of_In.
Qed.

(** X10.  [sendPushNotification], lines 77-96.  With every recipient present,
    there is at most one push: none when the recipients have no device at
    all, and otherwise one that names every device of every recipient
    exactly once.  A recipient that is [null] makes the call throw before
    anything is sent. *)
Theorem push_names_each_device_once (recipients : list (option User.t))
    (message : string) (w : World) :
  (forall present,
      recipients = map Some present ->
      let deviceIds := utils.uniq (concat (map User.deviceIds present)) [] in
      NoDup deviceIds
      /\ (forall device,
            device ∈ deviceIds
            <-> exists user, user ∈ present /\ device ∈ User.deviceIds user)
      /\ sendPushNotification recipients message w
         = (Ret tt,
            if bool_decide (deviceIds = []) then w
            else mkWorld (db w) (trace w ++ [Push deviceIds message])))
  /\ (None ∈ recipients ->
      exists e, sendPushNotification recipients message w = (Throw e, w)).
Proof.
  split.
  - intros present -> deviceIds.
    destruct (uniq_spec (concat (map User.deviceIds present)) []) as [Hnd Hin].
    split; [exact Hnd|]. split.
    + intros device. subst deviceIds. rewrite Hin. split.
      * intros [(l & (user & -> & Huser)%list_elem_of_fmap & Hl)%elem_of_concat_lists _].
        eauto.
      * intros (user & Huser & Hdevice). split; [|by intros ?%elem_of_nil].
        apply elem_of_concat_lists. exists (User.deviceIds user).
        split; [|done]. apply list_elem_of_fmap. eauto.
    + unfold sendPushNotification, bind. rewrite mapM_deref_present.
      fold deviceIds. by case_bool_decide.
  - intros Hin. destruct (mapM_deref_missing "deviceIds" _ w Hin) as (e & He).
    exists e. unfold sendPushNotification, bind. by rewrite He.
Qed.

Lemma buildEmailString_one email : utils.buildEmailString [email] = email.
Proof.
  unfold utils.buildEmailString. rewrite uniq_NoDup.
  - rewrite joinEmails_all by done. reflexivity.
  - apply NoDup_singleton.
  - by intros x _ ?%elem_of_nil.
Qed.

Lemma forEach_mail (f : User.t -> Effect) (xs : list User.t) w :
  forEach (fun x => emit (f x)) xs w
  = (Ret tt, mkWorld (db w) (trace w ++ map f xs)).
Proof.
  revert w. induction xs as [|x xs IH]; intros w; cbn [forEach map].
  - rewrite app_nil_r. by destruct w.
  - unfold bind, emit. rewrite IH. cbn [db trace]. by rewrite <- app_assoc.
Qed.

(** X11.  [emailInvoiceReceipt], lines 122-220.  The receipts of a paid invoice
    go out together or not at all.  Either the call throws with nothing
    sent, or it sends one mail to the paying users and approvers, one to
    the service provider and one to each reassignee, in this order, and
    nothing else. *)
Theorem receipts_go_out_together (invoice : PInvoice) (w : World) :
  (exists e, emailInvoiceReceipt invoice w = (Throw e, w))
  \/ exists payers approvers provider,
       p_payingUsers invoice
         = map (fun payer => (Some (fst payer), snd payer)) payers
       /\ p_approvers invoice = map Some approvers
       /\ p_serviceProvider invoice = Some provider
       /\ emailInvoiceReceipt invoice w
          = (Ret tt,
             mkWorld (db w)
               (trace w
                ++ Mail (utils.buildEmailString
                           (map (fun payer => User.email (fst payer)) payers
                            ++ map User.email approvers))
                        None "HorseLinc - Invoice Paid In Full"
                        "../app/invoice/views/invoiceReceiptManager.html"
                :: Mail (User.email provider) None
                        "HorseLinc - Invoice Paid In Full"
                        "../app/invoice/views/invoiceReceiptProvider.html"
                :: map (fun reassignee =>
                          Mail (User.email reassignee) None
                               "HorseLinc - Invoice Paid In Full"
                               "../app/invoice/views/invoiceReceiptReassignee.html")
                       (p_reassignees invoice))).
Proof.
  unfold emailInvoiceReceipt.
  assert (forall (l : list (option User.t * Qc)),
            (exists e, mapM (fun p => deref "email" (fst p)) l w = (Throw e, w))
            \/ exists payers : list (User.t * Qc),
                 l = map (fun payer => (Some (fst payer), snd payer)) payers
                 /\ mapM (fun p => deref "email" (fst p)) l w
                    = (Ret (map fst payers), w)) as Hpayers.
  { induction l as [|[[u|] q] l IH]; cbn [mapM fst deref].
    - right. by exists [].
    - unfold bind at 1 3, ret at 1 3. unfold bind at 1 2.
      destruct IH as [(e & ->)|(payers & -> & ->)]; [left; eauto|].
      right. by exists ((u, q) :: payers).
    - left. eexists. reflexivity. }
  assert (forall (l : list (option User.t)),
            (exists e, mapM (deref "email") l w = (Throw e, w))
            \/ exists present, l = map Some present) as Happrovers.
  { induction l as [|[u|] l IH].
    - right. by exists [].
    - destruct IH as [(e & He)|(present & ->)].
      + left. exists e. cbn [mapM deref]. unfold bind at 1, ret at 1.
        unfold bind at 1. by rewrite He.
      + right. by exists (u :: present).
    - left. eexists. reflexivity. }
  destruct (Hpayers (p_payingUsers invoice)) as [(e & He)|(payers & Hp & Hm)].
  { left. exists e. unfold bind at 1. by rewrite He. }
  destruct (Happrovers (p_approvers invoice)) as [(e & He)|(approvers & Ha)].
  { left. exists e. unfold bind at 1. rewrite Hm. unfold bind at 1.
    by rewrite He. }
  assert (forall A (k : list User.t -> list User.t -> M A),
            (let* payers := mapM (fun p => deref "email" (fst p))
                                 (p_payingUsers invoice) in
             let* approvers := mapM (deref "email") (p_approvers invoice) in
             k payers approvers) w
            = k (map fst payers) approvers w) as Hread.
  { intros A k. unfold bind at 1. rewrite Hm. unfold bind at 1.
    by rewrite Ha, mapM_deref_present. }
  destruct (p_horse invoice) as [horse|];
    [|left; eexists; rewrite Hread; reflexivity].
  destruct (p_trainer invoice) as [trainer|];
    [|left; eexists; rewrite Hread; reflexivity].
  destruct (p_serviceProvider invoice) as [provider|];
    [|left; eexists; rewrite Hread; reflexivity].
  right. exists payers, approvers, provider.
  split; [done|]. split; [done|]. split; [done|].
  rewrite Hread. cbn [deref]. unfold bind at 1, ret at 1.
  unfold bind at 1, ret at 1. unfold bind at 1, ret at 1.
  unfold sendEmail. unfold bind at 1, emit at 1. unfold bind at 1, emit at 1.
  rewrite (forEach_mail
             (fun reassignee =>
                Mail (User.email reassignee) None
                     "HorseLinc - Invoice Paid In Full"
                     "../app/invoice/views/invoiceReceiptReassignee.html")).
  cbn [db trace]. rewrite buildEmailString_one, <- !app_assoc, map_map.
  reflexivity.
Qed.

End Messages.

End FurtherPayments.

(** ** [invoice.controller.js]: [destroy] and [update] *)
(** ** Marking the stored documents of a list *)
Section Marking.

Context (mark : Request.t -> Request.t).
Hypothesis mark_id : forall x, Request._id (mark x) = Request._id x.
Hypothesis mark_twice : forall x, mark (mark x) = mark x.

Lemma findById_markStored stored x r :
  findById r (markStored mark stored x)
  = if bool_decide (r = Request._id x) then mark <$> findById r stored
    else findById r stored.
Proof.
  unfold markStored.
  destruct (findById (Request._id x) stored) as [found|] eqn:Ef.
  - rewrite findById_saveDoc. destruct (findById_Some _ _ _ Ef) as [Hid _].
    assert (idOf (mark found) = Request._id x) as Hmark
      by (unfold idOf, Request_document in *; by rewrite mark_id).
    destruct (decide (r = Request._id x)) as [->|Hne].
    + rewrite !bool_decide_eq_true_2 by done. by rewrite Ef.
    + rewrite !bool_decide_eq_false_2 by congruence. done.
  - case_bool_decide as Hr; [|done]. subst r. by rewrite Ef.
Qed.

Lemma findById_markAll xs : forall stored r,
  findById r (fold_left (markStored mark) xs stored)
  = if bool_decide (r ∈ map Request._id xs) then mark <$> findById r stored
    else findById r stored.
Proof.
  induction xs as [|x xs IH]; intros stored r; cbn [fold_left map].
  - rewrite bool_decide_eq_false_2 by (by intros ?%elem_of_nil). done.
  - rewrite IH, findById_markStored.
    destruct (decide (r = Request._id x)) as [->|Hne].
    + rewrite (bool_decide_eq_true_2 (Request._id x = Request._id x)) by done.
      rewrite (bool_decide_eq_true_2 (_ ∈ _ :: _)) by left.
      case_bool_decide; [|done].
      destruct (findById (Request._id x) stored); cbn; [|done].
      by rewrite mark_twice.
    + rewrite (bool_decide_eq_false_2 (r = Request._id x)) by done.
      destruct (decide (r ∈ map Request._id xs)) as [Hin|Hout].
      * rewrite !bool_decide_eq_true_2; [done|by right|done].
      * rewrite !bool_decide_eq_false_2; [done| |done].
        by intros [?|?]%elem_of_cons.
Qed.

Lemma ids_markStored stored x :
  map Request._id (markStored mark stored x) = map Request._id stored.
Proof.
  unfold markStored. destruct (findById _ stored) as [found|] eqn:Ef; [|done].
  destruct (findById_Some _ _ _ Ef) as [Hid _].
  unfold idOf, Request_document in Hid.
  unfold saveDoc, updateDoc. rewrite map_map. apply map_ext_in.
  intros a _. case_bool_decide as Ha; [|done].
  unfold idOf, Request_document in Ha. by rewrite mark_id in *.
Qed.

Lemma ids_markAll xs : forall stored,
  map Request._id (fold_left (markStored mark) xs stored) = map Request._id stored.
Proof.
  induction xs as [|x xs IH]; intros stored; cbn [fold_left]; [done|].
  by rewrite IH, ids_markStored.
Qed.

Lemma forEach_markStored (xs : list Request.t) w :
  forEach (fun request =>
             let* d := getDB in
             match findById (Request._id request) (requests d) with
             | Some invoiceRequest => Request_save (mark invoiceRequest)
             | None => ret tt
             end) xs w
  = (Ret tt,
     mkWorld (set_requests (fold_left (markStored mark) xs) (db w)) (trace w)).
Proof.
  revert w. induction xs as [|x xs IH]; intros w; cbn [forEach fold_left].
  - by destruct w as [[]].
  - unfold bind at 1. unfold bind at 1, getDB at 1.
    assert (forall (f : list Request.t -> list Request.t) d,
              set_requests (fold_left (markStored mark) xs) (set_requests f d)
              = set_requests (fun stored => fold_left (markStored mark) xs (f stored))
                             d) as Hset by done.
    destruct (findById (Request._id x) (requests (db w))) as [found|] eqn:Ef.
    + assert (markStored mark (requests (db w)) x
              = saveDoc (mark found) (requests (db w))) as Hstep
        by (unfold markStored; by rewrite Ef).
      unfold Request_save, modifyDB. rewrite IH. cbn [db trace].
      rewrite Hset. unfold set_requests. cbn [fold_left]. by rewrite Hstep.
    + assert (markStored mark (requests (db w)) x = requests (db w)) as Hstep
        by (unfold markStored; by rewrite Ef).
      unfold ret. rewrite IH. unfold set_requests. cbn [fold_left].
      by rewrite Hstep.
Qed.

End Marking.

Lemma ids_populated d (ids : list Id) r :
  r ∈ map Request._id (omap (fun i => findById i (requests d)) ids)
  <-> r ∈ ids /\ is_Some (findById r (requests d)).
Proof.
  rewrite list_elem_of_fmap. split.
  - intros (x & -> & [Hin Hx]%populated_requests). eauto.
  - intros [Hin [x Hx]]. exists x.
    destruct (findById_Some _ _ _ Hx) as [Hid _].
    unfold idOf, Request_document in Hid. split; [done|].
    apply list_elem_of_omap. eauto.
Qed.

Section InvoiceDestroy.
Import InvoiceController.

Lemma pushes_keep_db (m : M unit) :
  preserves sameInvoices m -> preserves sameRequests m ->
  preserves samePayments m ->
  forall w o w', m w = (o, w') ->
    invoices (db w') = invoices (db w)
    /\ requests (db w') = requests (db w)
    /\ payments (db w') = payments (db w).
Proof.
  intros Hi Hr Hp w o w' Hrun.
  split; [exact (Hi _ _ _ Hrun)|].
  split; [exact (Hr _ _ _ Hrun)|exact (Hp _ _ _ Hrun)].
Qed.

Lemma sendPushNotification_invoices recipients message :
  preserves sameInvoices (sendPushNotification recipients message).
Proof. unfold sendPushNotification. preserve. Qed.

Lemma sendPushNotification_requests recipients message :
  preserves sameRequests (sendPushNotification recipients message).
Proof. unfold sendPushNotification. preserve. Qed.

Lemma sendPushNotification_payments recipients message :
  preserves samePayments (sendPushNotification recipients message).
Proof. unfold sendPushNotification. preserve. Qed.

Lemma getTotalForUser_reads invoice user :
  preserves sameWorld (getTotalForUser invoice user).
Proof. unfold getTotalForUser. preserve. Qed.

(** X12.  [destroy], lines 838-897.  A call that answers "Invoice successfully
    deleted" was made by the service provider of an invoice without
    payments, and it removes nothing: the invoice stays in its place with
    [deletedAt] set to the time of the call, every stored request of the
    invoice gets the same [deletedAt] and keeps its other fields, the other
    requests and the payments are as they were. *)
Theorem invoice_destroy_is_a_soft_delete env now req w w'
  (Hrun : destroy env now req w
          = (Ret (utils.respondWithSuccess "Invoice successfully deleted"), w')) :
  exists found provider,
    findById (params_id req) (invoices (db w)) = Some found
    /\ findById (Invoice._serviceProvider found) (users (db w)) = Some provider
    /\ User._id provider = User._id (user req)
    /\ PaymentController.paymentsOfInvoice (db w) (Some (params_id req)) = []
    /\ invoices (db w')
       = saveDoc (Invoice.set_deletedAt (Some now) found) (invoices (db w))
    /\ map Request._id (requests (db w')) = map Request._id (requests (db w))
    /\ (forall r,
          findById r (requests (db w'))
          = if bool_decide (r ∈ Invoice._requests found)
            then Request.set_deletedAt (Some now) <$> findById r (requests (db w))
            else findById r (requests (db w)))
    /\ payments (db w') = payments (db w).
Proof.
  unfold destroy, tryCatch in Hrun.
  destruct (destroyBody env now req w) as [[r|e] w1] eqn:Hbody; [|done].
  injection Hrun as -> ->. unfold destroyBody in Hbody.
  unfold bind at 1, getDB at 1 in Hbody.
  destruct (findById (params_id req) (invoices (db w))) as [found|] eqn:Ef; [|done].
  cbn [populateInvoice p_serviceProvider] in Hbody.
  destruct (findById (Invoice._serviceProvider found) (users (db w)))
    as [provider|] eqn:Ep; cbn [deref] in Hbody; [|done].
  unfold bind at 1, ret at 1 in Hbody.
  case_bool_decide as Hauth; [done|].
  case_bool_decide as Hpaid; cbn [negb] in Hbody; [|done].
  apply length_zero_iff_nil in Hpaid.
  exists found, provider. split; [done|]. split; [done|].
  split; [by destruct (decide (User._id provider = User._id (user req)))|].
  split; [done|].
  unfold bind at 1, Invoice_save at 1, modifyDB at 1 in Hbody.
  cbn [withDoc doc p_requests] in Hbody.
  unfold bind at 1 in Hbody.
  rewrite (forEach_markStored (Request.set_deletedAt (Some now))) in Hbody.
  cbn [db trace] in Hbody.
  match type of Hbody with
  | bind ?m _ ?w0 = _ =>
      assert (preserves sameInvoices m /\ preserves sameRequests m
              /\ preserves samePayments m) as (Hi1 & Hr1 & Hp1)
  end.
  { split; [|split]; apply preserves_forEach; try exact _; intros reassignee;
      (apply preserves_bind; [exact _| |intros total]);
      first [ apply sendPushNotification_invoices
            | apply sendPushNotification_requests
            | apply sendPushNotification_payments
            | idtac ];
      unfold getTotalForUser; preserve. }
  unbind_in Hbody as w2 E2; [|done].
  destruct (pushes_keep_db _ Hi1 Hr1 Hp1 _ _ _ E2) as (Hi2 & Hr2 & Hp2).
  unbind_in Hbody as w3 E3; [|done]. injection Hbody as <-.
  pose proof (sendPushNotification_invoices _ _ _ _ _ E3) as Hi3.
  pose proof (sendPushNotification_requests _ _ _ _ _ E3) as Hr3.
  pose proof (sendPushNotification_payments _ _ _ _ _ E3) as Hp3.
  unfold sameInvoices in Hi3. unfold sameRequests in Hr3.
  unfold samePayments in Hp3.
  rewrite Hi3, Hr3, Hp3, Hi2, Hr2, Hp2.
  cbn [db invoices requests payments set_requests set_invoices].
  split; [done|]. split; [by apply ids_markAll|]. split; [|done].
  intros r. rewrite findById_markAll by done.
  destruct (decide (r ∈ Invoice._requests found)) as [Hin|Hout].
  - rewrite (bool_decide_eq_true_2 (r ∈ Invoice._requests found)) by done.
    case_bool_decide as Hpop; [done|].
    destruct (findById r (requests (db w))) as [x|] eqn:Hx; [|done].
    exfalso. apply Hpop. apply ids_populated. eauto.
  - rewrite (bool_decide_eq_false_2 (r ∈ Invoice._requests found)) by done.
    rewrite bool_decide_eq_false_2; [done|].
    by intros [? _]%ids_populated.
Qed.

(** X13.  [destroy] of the invoice controller with [create] of the payment
    controller.  Once an invoice has been deleted, nobody can pay it: the
    payment is refused with "This invoice has been deleted.", and nothing
    is written or sent, so no charge is made. *)
Theorem deleted_invoice_cannot_be_paid env stripe now later req payment w w'
  (Hdeleted : destroy env now req w
              = (Ret (utils.respondWithSuccess "Invoice successfully deleted"),
                 w'))
  (Hsame : PaymentController._invoice (PaymentController.body payment)
           = Some (params_id req)) :
  PaymentController.create env stripe later payment w'
  = (Ret (utils.respondWithError "This invoice has been deleted."), w').
Proof.
  assert (exists found,
            findById (params_id req) (invoices (db w)) = Some found
            /\ invoices (db w')
               = saveDoc (Invoice.set_deletedAt (Some now) found)
                         (invoices (db w))) as (found & Hfound & Hinvoices).
  { unfold destroy, tryCatch in Hdeleted.
    destruct (destroyBody env now req w) as [[r|e] w1] eqn:Hbody; [|done].
    injection Hdeleted as -> ->. unfold destroyBody in Hbody.
    unfold bind at 1, getDB at 1 in Hbody.
    destruct (findById (params_id req) (invoices (db w))) as [found|] eqn:Ef;
      [|done].
    exists found. split; [done|].
    cbn [populateInvoice p_serviceProvider] in Hbody.
    destruct (findById (Invoice._serviceProvider found) (users (db w)))
      as [provider|] eqn:Ep; cbn [deref] in Hbody; [|done].
    unfold bind at 1, ret at 1 in Hbody.
    case_bool_decide as Hauth; [done|].
    case_bool_decide as Hpaid; cbn [negb] in Hbody; [|done].
    unfold bind at 1, Invoice_save at 1, modifyDB at 1 in Hbody.
    cbn [withDoc doc p_requests] in Hbody.
    unfold bind at 1 in Hbody.
    rewrite (forEach_markStored (Request.set_deletedAt (Some now))) in Hbody.
    cbn [db trace] in Hbody.
    match type of Hbody with
    | bind ?m _ ?w0 = _ => assert (preserves sameInvoices m) as Hi1
    end.
    { apply preserves_forEach; [exact _|]. intros reassignee.
      apply preserves_bind; [exact _| |intros total].
      - unfold getTotalForUser. preserve.
      - apply sendPushNotification_invoices. }
    unbind_in Hbody as w2 E2; [|done].
    pose proof (Hi1 _ _ _ E2) as Hi2. unfold sameInvoices in Hi2.
    unbind_in Hbody as w3 E3; [|done]. injection Hbody as <-.
    pose proof (sendPushNotification_invoices _ _ _ _ _ E3) as Hi3.
    unfold sameInvoices in Hi3. by rewrite Hi3, Hi2. }
  unfold PaymentController.create, tryCatch, PaymentController.createBody.
  unfold bind at 1, getDB at 1. rewrite Hsame. cbn [mbind option_bind].
  rewrite Hinvoices, findById_saveDoc.
  destruct (findById_Some _ _ _ Hfound) as [Hid _].
  unfold idOf, Invoice_document in *. cbn [Invoice.set_deletedAt Invoice._id].
  rewrite bool_decide_eq_true_2 by (symmetry; exact Hid).
  rewrite Hfound. cbn [fmap option_fmap option_map deref].
  unfold bind at 1, ret at 1. cbn [populateInvoice doc Invoice.set_deletedAt Invoice.deletedAt].
  rewrite bool_decide_eq_true_2 by eauto. reflexivity.
Qed.

End InvoiceDestroy.

Section InvoiceUpdate.
Import InvoiceController.

Lemma findById_withServices stored request r :
  findById r (withServices stored request)
  = if bool_decide (r = r_id request)
    then Request.set_services (r_services request)
           (Request.servicesTotal (r_services request))
         <$> findById r stored
    else findById r stored.
Proof.
  unfold withServices.
  destruct (findById (r_id request) stored) as [found|] eqn:Ef.
  - rewrite findById_saveDoc. destruct (findById_Some _ _ _ Ef) as [Hid _].
    unfold idOf, Request_document in *.
    cbn [Request.set_services Request._id].
    destruct (decide (r = r_id request)) as [->|Hne].
    + rewrite !bool_decide_eq_true_2 by done. by rewrite Ef.
    + rewrite !bool_decide_eq_false_2 by congruence. done.
  - case_bool_decide as Hr; [|done]. subst r. by rewrite Ef.
Qed.

Lemma known_withServices stored request r :
  is_Some (findById r (withServices stored request))
  <-> is_Some (findById r stored).
Proof.
  rewrite findById_withServices. case_bool_decide; [|done].
  by rewrite fmap_is_Some.
Qed.

Lemma updateRequests_run (listed : list BodyRequest) : forall acc w,
  foldM updateRequest acc listed w
  = (Ret (acc + sumOf (map (fun request =>
                              Request.servicesTotal (r_services request))
                           (known (db w) listed))),
     mkWorld (set_requests (fun stored => fold_left withServices listed stored)
                           (db w))
             (trace w)).
Proof.
  induction listed as [|request listed IH]; intros acc w; cbn [foldM].
  - unfold ret. f_equal; [|by destruct w as [[]]].
    f_equal. change (sumOf _) with (Q2Qc 0). ring.
  - unfold bind at 1. unfold updateRequest at 1. unfold bind at 1, getDB at 1.
    cbn [fold_left].
    assert (known (db w) (request :: listed)
            = if bool_decide (is_Some (findById (r_id request) (requests (db w))))
              then request :: known (db w) listed
              else known (db w) listed) as -> by reflexivity.
    assert (forall d1,
              requests d1 = withServices (requests (db w)) request ->
              known d1 listed = known (db w) listed) as Hknown.
    { intros w1 Hw1. unfold known. apply List.filter_ext. intros b.
      apply bool_decide_ext. rewrite Hw1. apply known_withServices. }
    destruct (findById (r_id request) (requests (db w))) as [oldRequest|] eqn:Ef.
    + assert (withServices (requests (db w)) request
              = saveDoc (Request.set_services (r_services request)
                           (Request.servicesTotal (r_services request))
                           oldRequest)
                        (requests (db w))) as Hstep
        by (unfold withServices; by rewrite Ef).
      rewrite bool_decide_eq_true_2 by eauto.
      unfold bind at 1, Request_save at 1, modifyDB at 1. unfold ret at 1.
      rewrite IH. cbn [db trace].
      rewrite (Hknown (set_requests _ (db w))) by (by rewrite Hstep).
      unfold set_requests.
      cbn [users horses requests invoices payments notifications].
      rewrite Hstep. cbn [map]. rewrite sumOf_cons. f_equal. f_equal. ring.
    + assert (withServices (requests (db w)) request = requests (db w))
        as Hstep by (unfold withServices; by rewrite Ef).
      rewrite bool_decide_eq_false_2 by (by intros [? [=]]).
      unfold ret at 1. rewrite IH. unfold set_requests.
      cbn [users horses requests invoices payments notifications].
      rewrite Hstep. reflexivity.
Qed.

Lemma withServices_others (listed : list BodyRequest) r : forall stored,
  r ∉ map r_id listed ->
  findById r (fold_left withServices listed stored) = findById r stored.
Proof.
  induction listed as [|request listed IH]; intros stored Hr; [done|].
  cbn [fold_left]. cbn [map] in Hr. apply not_elem_of_cons in Hr as [Hne Hr].
  rewrite IH by done. rewrite findById_withServices.
  by rewrite bool_decide_eq_false_2.
Qed.

Lemma withServices_listed (listed : list BodyRequest) r : forall stored updated,
  r ∈ map r_id listed ->
  findById r (fold_left withServices listed stored) = Some updated ->
  exists request,
    request ∈ listed /\ r_id request = r
    /\ Request.services updated = r_services request
    /\ Request.total updated = Request.servicesTotal (r_services request).
Proof.
  induction listed as [|request listed IH] using rev_ind;
    intros stored updated Hr Hfound; [by apply elem_of_nil in Hr|].
  rewrite fold_left_app in Hfound. cbn [fold_left] in Hfound.
  rewrite findById_withServices in Hfound.
  case_bool_decide as Hlast.
  - destruct (findById r (fold_left withServices listed stored)) as [old|];
      [|done].
    injection Hfound as <-. exists request.
    split; [apply elem_of_app; right; by left|]. done.
  - rewrite map_app in Hr. apply elem_of_app in Hr as [Hr|Hr].
    + destruct (IH _ _ Hr Hfound) as (b & Hb & Hrest).
      exists b. split; [apply elem_of_app; by left|done].
    + apply list_elem_of_singleton in Hr. done.
Qed.

(** X14.  [update], lines 517-608, when the body carries the [_id] of the
    invoice of the URL.  An update that is answered with the invoice
    stores, as the amount of the invoice, the sum of the totals recomputed
    from the services of the requests of the body that exist; a request of
    the body that does not exist adds nothing.  Every request that the
    body names has the services of the body and the total recomputed from
    them, and the requests that the body does not name are as they
    were. *)
Theorem invoice_update_recomputes_the_amount req w w' stored
  (Hid : _id (body req) = Some (params_id req))
  (Hrun : update req w = (Ret (Status 200 (Some (JInvoice stored))), w')) :
  findById (params_id req) (invoices (db w')) = Some stored
  /\ Invoice.amount stored
     = sumOf (map (fun request => Request.servicesTotal (r_services request))
                  (known (db w) (_requests (body req))))
  /\ Invoice._requests stored = map r_id (_requests (body req))
  /\ (forall r updated,
        r ∈ map r_id (_requests (body req)) ->
        findById r (requests (db w')) = Some updated ->
        exists request,
          request ∈ _requests (body req) /\ r_id request = r
          /\ Request.services updated = r_services request
          /\ Request.total updated = Request.servicesTotal (r_services request))
  /\ (forall r,
        r ∉ map r_id (_requests (body req)) ->
        findById r (requests (db w')) = findById r (requests (db w))).
Proof.
  unfold update, tryCatch in Hrun.
  destruct (updateBody req w) as [[r|e] w1] eqn:Hbody; [|done].
  injection Hrun as -> ->. unfold updateBody in Hbody.
  unfold bind at 1, getDB at 1 in Hbody.
  case_bool_decide as Hpaid; cbn [negb] in Hbody; [|done].
  unfold bind at 1 in Hbody. rewrite updateRequests_run in Hbody.
  unfold bind at 1, getDB at 1 in Hbody. cbn [db invoices set_requests] in Hbody.
  destruct (findById (params_id req) (invoices (db w))) as [invoice|] eqn:Ef;
    [|done].
  destruct (findById_Some _ _ _ Ef) as [Hinv _].
  unfold idOf, Invoice_document in Hinv.
  cbv zeta in Hbody.
  set (assigned := assign invoice (body req) _) in Hbody.
  assert (Invoice._id assigned = params_id req) as Hassigned.
  { subst assigned. unfold assign. cbn [Invoice._id]. by rewrite Hid. }
  unfold bind at 1, Invoice_save at 1, modifyDB at 1 in Hbody.
  unfold bind at 1, getDB at 1 in Hbody.
  cbn [db invoices set_invoices set_requests trace] in Hbody.
  rewrite findById_saveDoc in Hbody.
  rewrite bool_decide_eq_true_2 in Hbody by done.
  rewrite Hassigned, Ef in Hbody.
  cbn [fmap option_fmap option_map deref] in Hbody.
  unfold bind at 1, ret at 1 in Hbody.
  unbind_in Hbody as w2 E2; [|done].
  unbind_in Hbody as w3 E3; [|done].
  unbind_in Hbody as w4 E4; [|done].
  unbind_in Hbody as w5 E5; [|done].
  injection Hbody as <- <-.
  assert (db w5 = db w2) as Hdb.
  { apply getTotalForUser_reads in E3. unfold sameWorld in E3. subst w3.
    assert (w4 = w2) as ->.
    { destruct (p_horse _) in E4; [|done].
      apply (f_equal snd) in E4. by cbn in E4. }
    unfold sendPushNotification in E5. unbind_in E5 as w6 E6; [|done].
    assert (w6 = w2) as ->.
    { eapply (mapM_Ret_inv _ sameWorld) in E6 as [Hw _];
        [symmetry; exact Hw|].
      intros x. apply preserves_deref. exact _. }
    destruct (bool_decide _) in E5;
      apply (f_equal (fun run => db (snd run))) in E5; by cbn in E5. }
  assert (db w2
          = set_invoices (saveDoc assigned)
              (set_requests
                 (fun stored => fold_left withServices (_requests (body req)) stored)
                 (db w))) as Hw2.
  { destruct (p_serviceProvider _) in E2; [|done].
    apply (f_equal (fun run => db (snd run))) in E2. by cbn in E2. }
  rewrite Hdb, Hw2. cbn [invoices requests set_invoices set_requests].
  split.
  { rewrite findById_saveDoc. rewrite bool_decide_eq_true_2 by done.
    by rewrite Ef. }
  split.
  { subst assigned. unfold assign. cbn [Invoice.amount]. ring. }
  split; [done|].
  split.
  - intros r updated. apply withServices_listed.
  - intros r. apply withServices_others.
Qed.

End InvoiceUpdate.

(** ** [request.controller.js]: [update], [destroy], [destroyMultiple] *)
Section InvoiceTotals.
Import InvoiceController.

(** X15.  [getTotalForUser], lines 105-120.  For a user who is neither the
    service provider of the invoice nor a horse manager, the total is the
    sum of the totals of all the requests of the invoice that are
    reassigned, to whomever: it does not depend on the user. *)
Theorem reassignee_total_counts_every_reassigned_request
    (invoice : PInvoice) (user provider : User.t) (w : World)
  (Hprovider : p_serviceProvider invoice = Some provider)
  (Hother : User._id user <> User._id provider)
  (Hrole : User.isManager user = false) :
  getTotalForUser invoice user w
  = (Ret (sumOf (map Request.total
                     (List.filter
                        (fun request =>
                           bool_decide (is_Some (Request._reassignedTo request)))
                        (p_requests invoice)))),
     w).
Proof.
  unfold getTotalForUser. rewrite Hprovider. cbn [deref].
  unfold bind, ret. rewrite bool_decide_eq_false_2 by done. rewrite Hrole.
  cbn [orb]. f_equal. f_equal.
  assert (forall acc,
            fold_left
              (fun totalForUser request =>
                 if bool_decide (is_Some (Request._reassignedTo request))
                 then totalForUser + Request.total request
                 else totalForUser)
              (p_requests invoice) acc
            = acc + sumOf (map Request.total
                             (List.filter
                                (fun request =>
                                   bool_decide
                                     (is_Some (Request._reassignedTo request)))
                                (p_requests invoice)))) as Hfold.
  { induction (p_requests invoice) as [|x xs IH]; intros acc;
      cbn [fold_left List.filter].
    - change (sumOf (map _ [])) with (Q2Qc 0). ring.
    - rewrite IH. destruct (bool_decide _); [|done].
      cbn [map]. rewrite sumOf_cons. ring. }
  rewrite Hfold. ring.
Qed.

End InvoiceTotals.

Section RequestHandlers.
Import RequestController.

Lemma Notification_create_requests n :
  preserves sameRequests (Notification_create n).
Proof. preserve. Qed.

(** X16.  [update], lines 915-1061.  An update that is answered with the
    request has stored it under the id of the URL with the services of the
    body and with the total recomputed from them.  The stored request
    keeps its [_id], [paidAt], [deletedAt] and [createdAt], and no other
    request changes. *)
Theorem request_update_recomputes_the_total formatDate now req w w' saved
  (Hrun : update formatDate now req w
          = (Ret (Status 200 (Some (JRequest saved))), w')) :
  exists request listed,
    findById (params_id req) (requests (db w)) = Some request
    /\ services (body req) = Some listed
    /\ findById (params_id req) (requests (db w')) = Some saved
    /\ Request.services saved = listed
    /\ Request.total saved = Request.servicesTotal listed
    /\ Request._id saved = params_id req
    /\ Request.paidAt saved = Request.paidAt request
    /\ Request.deletedAt saved = Request.deletedAt request
    /\ Request.createdAt saved = Request.createdAt request
    /\ forall r, r <> params_id req ->
         findById r (requests (db w')) = findById r (requests (db w)).
Proof.
  unfold update, tryCatch in Hrun.
  destruct (updateBody formatDate now req w) as [[r|e] w1] eqn:Hbody; [|done].
  injection Hrun as -> ->. unfold updateBody in Hbody.
  unfold bind at 1, getDB at 1 in Hbody.
  unbind_in Hbody as w1 E1; [|done].
  assert (w1 = w) as ->.
  { destruct (_ ≫= _) in E1; [|done]. apply (f_equal snd) in E1. by cbn in E1. }
  clear E1.
  destruct (bool_decide (is_Some (Request.paidAt a))); [done|].
  unbind_in Hbody as w1 E1; [|done].
  assert (w1 = w) as ->.
  { destruct (_serviceProvider _) in E1; [|done].
    apply (f_equal snd) in E1. by cbn in E1. }
  clear E1. cbv zeta in Hbody.
  unbind_in Hbody as w1 E1; [|done].
  destruct (services (body req)) as [listed|] eqn:Hlisted; [|done].
  injection E1 as <- <-.
  unfold bind at 1, getDB at 1 in Hbody.
  destruct (findById (params_id req) (requests (db w))) as [request|] eqn:Ef;
    [|done].
  destruct (findById_Some _ _ _ Ef) as [Hid _].
  unfold idOf, Request_document in Hid.
  unbind_in Hbody as w1 E1; [|done].
  assert (w1 = w) as ->.
  { destruct (_ ≫= _) in E1; [|done]. apply (f_equal snd) in E1. by cbn in E1. }
  clear E1.
  unfold bind at 1, Request_save at 1, modifyDB at 1 in Hbody.
  unbind_in Hbody as w1 E1; [|done].
  assert (w1 = mkWorld (set_requests (saveDoc saved) (db w)) (trace w)
          /\ exists u, saved = assign request (body req) u listed
                       /\ total u = Request.servicesTotal listed) as [-> Hsaved].
  { destruct (_horseManager (body req)) in E1; [|done].
    apply (f_equal snd) in E1. cbn [snd ret] in E1. subst w1.
    unbind_in Hbody as w2 E2; [|done]. injection Hbody as <- _.
    split; [done|]. eexists. split; [reflexivity|done]. }
  clear E1.
  unbind_in Hbody as w2 E2; [|done]. injection Hbody as _ <-.
  assert (sameRequests
            (mkWorld (set_requests (saveDoc saved) (db w)) (trace w)) w2)
    as Hreqs.
  { revert E2. generalize (mkWorld (set_requests (saveDoc saved) (db w)) (trace w)).
    intros w0 E2.
    repeat match type of E2 with
           | (match ?x with _ => _ end) _ = _ => destruct x
           | (if ?b then _ else _) _ = _ => destruct b
           end;
      first [ exact (Notification_create_requests _ _ _ _ E2)
            | apply (f_equal snd) in E2; cbn [snd ret] in E2; by subst w2 ]. }
  unfold sameRequests in Hreqs. cbn [db requests set_requests] in Hreqs.
  destruct Hsaved as (u & Hsaved & Htotal).
  assert (Request._id saved = params_id req) as Hsid
    by (rewrite Hsaved; cbn [assign Request._id]; exact Hid).
  exists request, listed. split; [done|]. split; [done|].
  rewrite Hreqs. split.
  { rewrite findById_saveDoc.
    rewrite bool_decide_eq_true_2 by (symmetry; exact Hsid). by rewrite Ef. }
  split; [by rewrite Hsaved|]. split; [by rewrite Hsaved|].
  split; [done|]. split; [by rewrite Hsaved|]. split; [by rewrite Hsaved|].
  split; [by rewrite Hsaved|].
  intros r Hr. rewrite findById_saveDoc.
  rewrite bool_decide_eq_false_2; [done|].
  intros ->. apply Hr. exact Hsid.
Qed.





End RequestHandlers.

(** ** [horse.controller.js]: [updateMultipleOwners] and [destroy] *)
Section HorseHandlers.
Import HorseController.


Lemma findById_removeDoc (docs : list Horse.t) i j :
  findById j (removeDoc i docs)
  = if bool_decide (j = i) then None else findById j docs.
Proof.
  unfold findById, removeDoc.
  induction docs as [|x docs IH]; cbn [List.filter List.find].
  - by case_bool_decide.
  - destruct (decide (idOf x = i)) as [Hx|Hx].
    + rewrite (bool_decide_eq_true_2 (idOf x = i)) by done. cbn [negb].
      rewrite IH. case_bool_decide as Hj; [done|].
      rewrite (bool_decide_eq_false_2 (idOf x = j)) by congruence. done.
    + rewrite (bool_decide_eq_false_2 (idOf x = i)) by done. cbn [negb List.find].
      destruct (decide (idOf x = j)) as [Hxj|Hxj].
      * rewrite (bool_decide_eq_true_2 (idOf x = j)) by done.
        by rewrite bool_decide_eq_false_2 by congruence.
      * rewrite (bool_decide_eq_false_2 (idOf x = j)) by done. exact IH.
Qed.

(** X20.  [destroy], lines 582-612.  The answer is 204 only for the trainer or
    an owner of a horse none of whose requests is unpaid, and then the
    horse is gone and the other horses are as they were.  Any other
    answer leaves everything as it was; a horse that does not exist is
    answered with an error, never with 404, because its owners are read
    before the handler looks whether it was found. *)
Theorem horse_destroy_guards (params_id : Id) (user : User.t) (w : World) :
  let run := destroy params_id user w in
  fst run <> Ret utils.handleEntityNotFound
  /\ (findById params_id (horses (db w)) = None ->
      exists e, run = (Ret (Next e), w))
  /\ (fst run <> Ret (Status 204 None) -> snd run = w)
  /\ (fst run = Ret (Status 204 None) ->
      exists horse,
        findById params_id (horses (db w)) = Some horse
        /\ (Horse._trainer horse = Some (User._id user)
            \/ User._id user ∈ map Owner._user (Horse._owners horse))
        /\ (forall request,
              request ∈ requests (db w) ->
              Request._horse request = Some params_id ->
              is_Some (Request.paidAt request))
        /\ findById params_id (horses (db (snd run))) = None
        /\ (forall other, other <> params_id ->
              findById other (horses (db (snd run)))
              = findById other (horses (db w)))
        /\ requests (db (snd run)) = requests (db w)
        /\ trace (snd run) = trace w).
Proof.
  cbv zeta. destruct (destroy params_id user w) as [o w'] eqn:Hrun.
  cbn [fst snd]. unfold destroy, tryCatch, destroyBody in Hrun.
  unfold bind at 1, getDB at 1 in Hrun.
  destruct (findById params_id (horses (db w))) as [horse|] eqn:Hfound.
  2:{ injection Hrun as <- <-. split; [done|]. split; [eauto|].
      split; [done|]. done. }
  destruct (findById_Some _ _ _ Hfound) as [Hid _].
  unfold idOf, Horse_document in Hid.
  cbn [deref] in Hrun. unfold bind at 1, ret at 1 in Hrun.
  destruct (negb (bool_decide (Horse._trainer horse = Some (User._id user)))
            && negb (bool_decide (User._id user
                                  ∈ map Owner._user (Horse._owners horse))))
    eqn:Haccess.
  { injection Hrun as <- <-. split; [done|]. split; [done|].
    split; [done|]. done. }
  case_bool_decide as Hunpaid; cbn [negb] in Hrun.
  2:{ injection Hrun as <- <-. split; [done|]. split; [done|].
      split; [done|]. done. }
  injection Hrun as <- <-. split; [done|]. split; [done|]. split; [done|].
  intros _. exists horse. split; [done|]. split.
  { apply andb_false_iff in Haccess as [Ht|Ho].
    - left. apply negb_false_iff in Ht. by apply bool_decide_eq_true_1 in Ht.
    - right. apply negb_false_iff in Ho. by apply bool_decide_eq_true_1 in Ho. }
  split.
  { intros request Hin Hhorse. apply length_zero_iff_nil in Hunpaid.
    destruct (Request.paidAt request) as [paid|] eqn:Hpaid; [eauto|].
    exfalso. unfold find in Hunpaid.
    assert (request ∈ @nil Request.t) as Habs; [|by apply elem_of_nil in Habs].
    rewrite <- Hunpaid. apply list_elem_of_In, filter_In.
    split; [by apply list_elem_of_In|].
    rewrite Hid, Hhorse, Hpaid. by rewrite !bool_decide_eq_true_2. }
  cbn [db horses requests set_horses trace]. rewrite Hid.
  split; [by rewrite findById_removeDoc, bool_decide_eq_true_2|].
  split; [|done].
  intros other Hother. by rewrite findById_removeDoc, bool_decide_eq_false_2.
Qed.

End HorseHandlers.

(** ** [invoice.model.js]: the order and the names of the export *)
Section CsvSort.
Import InvoiceModel.

Context (formatL : Date -> string) (dateValue : string -> Z).

Lemma insertTuple_newestFirst user t sorted :
  newestFirst (sortKey formatL dateValue user) sorted ->
  newestFirst (sortKey formatL dateValue user)
    (insertTuple formatL dateValue user t sorted).
Proof.
  induction sorted as [|first rest IH]; cbn [insertTuple newestFirst].
  - intros _. split; [constructor|done].
  - intros [Hfirst Hrest]. case_bool_decide as Hle; cbn [newestFirst].
    + split; [|done]. constructor; [done|].
      eapply Forall_impl; [exact Hfirst|]. cbn. intros later Hlater. lia.
    + split; [|by apply IH].
      rewrite insertTuple_perm. constructor; [lia|done].
Qed.

(** X21.  [convertAllToCsv], lines 556-566: the sort of the rows.  The rows of
    an export are the rows that were built, each once, ordered so that no
    row comes before a row with a later date: the invoice date for a horse
    manager, the payment date for a service provider. *)
Theorem export_rows_are_newest_first (user : User.t) (ts : list Tuple) :
  let sorted := sortTuples formatL dateValue user ts in
  sorted ≡ₚ ts
  /\ newestFirst (sortKey formatL dateValue user) sorted.
Proof.
  cbv zeta. split; [apply sortTuples_perm|].
  induction ts as [|t ts IH]; [done|].
  cbn [sortTuples fold_right]. by apply insertTuple_newestFirst.
Qed.

End CsvSort.

Section CsvNames.
Import InvoiceModel.

Lemma sliceEnd_whole (s sep : string) :
  sliceEnd (String.length sep) (s ++ sep) = s.
Proof.
  unfold sliceEnd. rewrite length_append.
  replace (String.length s + String.length sep - String.length sep)%nat
    with (String.length s + 0)%nat by lia.
  rewrite substring_append. cbn [String.substring].
  destruct sep; apply append_nil_r.
Qed.

Lemma sliceEnd_long n (s t : string) :
  (n <= String.length t)%nat -> sliceEnd n (s ++ t) = s ++ sliceEnd n t.
Proof.
  intros Hn. unfold sliceEnd. rewrite length_append.
  replace (String.length s + String.length t - n)%nat
    with (String.length s + (String.length t - n))%nat by lia.
  apply substring_append.
Qed.

Lemma separators_trimmed (sep : string) (cells : list string) :
  sliceEnd (String.length sep)
    (String.concat EmptyString (map (fun cell => cell ++ sep) cells))
  = String.concat sep cells.
Proof.
  induction cells as [|cell cells IH].
  - cbn [map String.concat]. unfold sliceEnd. by destruct (_ - _)%nat.
  - destruct cells as [|next cells].
    + cbn [map String.concat]. apply sliceEnd_whole.
    + rewrite concat_cons2, <- IH.
      change (map (fun c => c ++ sep) (cell :: next :: cells))
        with ((cell ++ sep) :: map (fun c => c ++ sep) (next :: cells)).
      set (rest := map (fun c => c ++ sep) (next :: cells)) in *.
      assert (String.concat EmptyString ((cell ++ sep) :: rest)
              = (cell ++ sep) ++ String.concat EmptyString rest) as ->.
      { subst rest. cbn [map]. by rewrite concat_cons2. }
      rewrite sliceEnd_long, append_assoc; [done|].
      subst rest. cbn [map]. destruct (map _ cells).
      * cbn [String.concat]. rewrite length_append. lia.
      * rewrite concat_cons2, !length_append. lia.
Qed.

(** X22.  [toCsvRow], lines 190-260: the cells with names.  The names of the
    reassignees and of the paying users are joined with a semicolon and a
    space, with nothing after the last name; an invoice without
    reassignees shows "N/A", and a paying user who is gone makes the row
    fail. *)
Theorem export_names_are_joined (this : XInvoice) (w : World) :
  getReassigneeNames this
  = match p_reassignees (x_invoice this) with
    | [] => "N/A"
    | reassignees => String.concat "; " (map User.name reassignees)
    end
  /\ (forall payers,
        map fst (p_payingUsers (x_invoice this)) = map Some payers ->
        getPayerNames this w
        = (Ret (String.concat "; " (map User.name payers)), w))
  /\ (None ∈ map fst (p_payingUsers (x_invoice this)) ->
      exists e, getPayerNames this w = (Throw e, w)).
Proof.
  split; [|split].
  - unfold getReassigneeNames.
    destruct (p_reassignees (x_invoice this)) as [|r rs]; [done|].
    rewrite <- (separators_trimmed "; "). by rewrite map_map.
  - intros payers Hpayers. unfold getPayerNames.
    assert (mapM (fun payer : option User.t * Qc => deref "name" (fst payer))
                 (p_payingUsers (x_invoice this)) w
            = (Ret payers, w)) as Hnames.
    { revert payers Hpayers.
      induction (p_payingUsers (x_invoice this)) as [|[u q] l IH];
        intros [|p payers] [=]; [done|].
      subst u. cbn [mapM fst deref]. unfold bind at 1, ret at 1.
      unfold bind at 1. by rewrite (IH payers). }
    unfold bind. rewrite Hnames. unfold ret.
    rewrite <- (separators_trimmed "; "). by rewrite map_map.
  - intros Hin. unfold getPayerNames.
    assert (exists e,
              mapM (fun payer : option User.t * Qc => deref "name" (fst payer))
                   (p_payingUsers (x_invoice this)) w
              = (Throw e, w)) as (e & He).
    { induction (p_payingUsers (x_invoice this)) as [|[[u|] q] l IH];
        [by apply elem_of_nil in Hin| |eexists; reflexivity].
      cbn [map fst] in Hin. apply elem_of_cons in Hin as [[=]|Hin].
      destruct (IH Hin) as (e & He). exists e.
      cbn [mapM fst deref]. unfold bind at 1, ret at 1. unfold bind at 1.
      by rewrite He. }
    exists e. unfold bind. by rewrite He.
Qed.

End CsvNames.

Section UnpreparedPayment.
Import PaymentController.

(** X23.  [create], lines 413-490.  The payment is stored before its transfers
    are prepared, outside the [try] of the charge.  When preparing them
    fails (a request of the invoice whose provider is gone), the error
    goes to [next] with nothing charged and nothing sent, but the payment
    stays; from then on [create] refuses this payer for this invoice, as
    if they had paid. *)
Theorem unprepared_payment_blocks_the_payer env stripe now req w e w'
  (Hrun : create env stripe now req w = (Ret (Next e), w'))
  (Hstored : payments (db w') <> payments (db w)) :
  newEffects w w' = []
  /\ (exists payment,
        payments (db w') = (payments (db w) ++ [payment])%list
        /\ Payment._invoice payment = _invoice (body req)
        /\ Payment._payingUser payment = _payingUser (body req)
        /\ Payment.transactions payment = [])
  /\ forall later,
       exists r, create env stripe later req w' = (Ret r, w') /\ refusal r.
Proof.
  assert (createBody env stripe now req w = (Throw e, w')) as Hbody.
  { unfold create, tryCatch in Hrun.
    destruct (createBody env stripe now req w) as [[r|e'] w1] eqn:Hbody.
    - injection Hrun as -> ->.
      apply createBody_cases in Hbody
        as [[_ [(? & [=])|(? & [=])]]|(i & found & payingUser & _ & _ & _ & _ & _ & _ & _ & Hpay)].
      apply pay_cases in Hpay
        as [(? & [=] & _)
           |(pp & pending & w1' & outcome & w2 & _ & _ & _ & _ & -> & _ & Hatt & Hout)].
      exfalso.
      pose proof (attempt_inv _ _ _ _ _ _ _ _ _ _ _ _ Hatt) as Hinv.
      destruct outcome as [[response|[[failed marked] recorded]]|e'];
        [| |done].
      + destruct Hinv as (msg & ->). by destruct Hout as [[=] _].
      + unfold answer in Hout. repeat case_bool_decide; try done.
        unfold bind in Hout.
        rewrite (forEach_mark (Request.set_paidAt (Some now))) in Hout.
        done.
    - by injection Hrun as -> ->. }
  apply createBody_cases in Hbody
    as [[-> _]|(i & found & payingUser & _ & _ & _ & _ & _ & _ & _ & Hpay)];
    [done|].
  unfold pay in Hpay. unbind_in Hpay as w1 E1.
  2:{ apply Payment_create_inv in E1 as [(? & _ & ->)|(? & [=] & _)].
      by injection Hpay as _ <-. }
  apply Payment_create_inv in E1
    as [(? & [=] & _)|(pp & [= <-] & _ & Hi & Hu & Ht & ->)].
  cbn [Payment._invoice Payment._payingUser Payment.transactions] in Hi, Hu, Ht.
  unbind_in Hpay as w2 E2.
  { exfalso. unbind_in Hpay as w3 E3.
    - destruct a1 as [response|[[failed marked] recorded]]; [done|].
      unfold answer in Hpay. repeat case_bool_decide; try done.
      unfold bind in Hpay.
      rewrite (forEach_mark (Request.set_paidAt (Some now))) in Hpay. done.
    - by apply attempt_inv in E3. }
  injection Hpay as _ <-.
  apply buildPending_reads in E2. unfold sameWorld in E2. subst w2.
  cbn [db trace payments set_payments].
  split; [by apply newEffects_same|].
  split; [by exists a|].
  intros later.
  destruct (duplicate_payment_is_refused env stripe later req
              (mkWorld (set_payments (fun stored => stored ++ [a])%list (db w))
                       (trace w)) a) as (r & Hr & Href & _).
  { unfold paymentsOfInvoiceBy, find. cbn [db payments set_payments].
    apply list_elem_of_In, filter_In. split.
    - apply in_or_app. right. by left.
    - rewrite Hi, Hu. by rewrite !bool_decide_eq_true_2. }
  eauto.
Qed.

End UnpreparedPayment.

Section SameDay.
Import RequestController.

(** X24.  [Request.isSameDay], lines 75-81, which decides whether the
    notification of a reassignment is pushed.  The check compares the
    start of the day of the request with the start of today and accepts a
    difference of up to 24 hours, so it holds for tomorrow and for every
    day before today as well as for today, and fails from the day after
    tomorrow on.  A request without a date counts as one of today. *)
Theorem isSameDay_holds_for_the_past_and_tomorrow (now : Date) :
  (forall d, isSameDay now (Some d) = true
             <-> (d / 86400000 <= now / 86400000 + 1)%Z)
  /\ (forall d, (d <= now)%Z -> isSameDay now (Some d) = true)
  /\ (forall d, (now + 2 * 86400000 <= d)%Z -> isSameDay now (Some d) = false)
  /\ isSameDay now None = true.
Proof.
  assert (forall d, isSameDay now (Some d) = true
                    <-> (d / 86400000 <= now / 86400000 + 1)%Z) as Hiff.
  { intros d. unfold isSameDay, startOfDay. cbn [default from_option id].
    rewrite bool_decide_eq_true. lia. }
  split; [exact Hiff|]. split; [|split].
  - intros d Hd. apply Hiff.
    pose proof (Z.div_le_mono d now 86400000 ltac:(lia) Hd). lia.
  - intros d Hd. apply not_true_is_false. rewrite Hiff.
    pose proof (Z.div_le_mono (now + 2 * 86400000) d 86400000 ltac:(lia) Hd)
      as Hmono.
    rewrite Z.div_add in Hmono by lia. lia.
  - unfold isSameDay, startOfDay. cbn [default from_option id].
    apply bool_decide_eq_true. lia.
Qed.

End SameDay.

(** ** The further properties at work in the small stable *)
Section MoreExamples.
Import PaymentController Sample.

Lemma charge_with_failure_message_is_answered_as_paid_witness :
  let run := create env stripeDeclined now (payInvoice 20) world in
  exists payment message,
    fst run = Ret (Status 200 (Some (JPayment message payment)))
    /\ payments (db (snd run)) = (payments stable ++ [payment])%list
    /\ length (newEffects world (snd run)) = 1%nat.
Proof.
  cbv zeta.
  edestruct (charge_with_failure_message_is_answered_as_paid env stripeDeclined
               now (payInvoice 20) world)
    as (Heffects & _ & payment & message & Hpayments & _ & _ & _ & Hanswer & _).
  - apply surjective_pairing.
  - apply list_elem_of_lookup. exists 0%nat. vm_compute. reflexivity.
  - reflexivity.
  - exists payment, message. split; [exact Hanswer|]. split; [exact Hpayments|].
    by rewrite Heffects.
Defined.

Lemma paid_in_full_marks_the_requests_witness :
  findById 10
    (requests (db (snd (create env stripe now (payInvoice 20) world))))
  = Some (Request.set_paidAt (Some now) (request 10 None)).
Proof.
  edestruct (paid_in_full_marks_the_requests env stripe now (payInvoice 20)
               world)
    as (i & found & Hi & Hfound & Hmarked & _).
  - vm_compute. reflexivity.
  - injection Hi as <-. vm_compute in Hfound. injection Hfound as <-.
    etrans; [|apply (Hmarked 10%nat (request 10 None))].
    + vm_compute. reflexivity.
    + apply list_elem_of_lookup. exists 0%nat. reflexivity.
    + reflexivity.
Defined.


Lemma invoice_destroy_is_a_soft_delete_witness :
  let run := InvoiceController.destroy env now (deleteInvoice 20) world in
  findById 20 (invoices (db (snd run)))
  = Some (Invoice.set_deletedAt (Some now) (invoice 20 [10%nat] [] None))
  /\ payments (db (snd run)) = payments stable.
Proof.
  cbv zeta.
  edestruct (invoice_destroy_is_a_soft_delete env now (deleteInvoice 20) world)
    as (found & provider & Hfound & _ & _ & _ & Hinvoices & _ & _ & Hpayments).
  - vm_compute. reflexivity.
  - vm_compute in Hfound. injection Hfound as <-.
    split; [|exact Hpayments].
    etrans; [exact (f_equal (findById 20) Hinvoices)|].
    vm_compute. reflexivity.
Defined.

Lemma deleted_invoice_cannot_be_paid_witness :
  let deleted :=
    snd (InvoiceController.destroy env now (deleteInvoice 20) world) in
  create env stripe now (payInvoice 20) deleted
  = (Ret (utils.respondWithError "This invoice has been deleted."), deleted).
Proof.
  cbv zeta.
  apply (deleted_invoice_cannot_be_paid env stripe now now (deleteInvoice 20)
           (payInvoice 20) world).
  - vm_compute. reflexivity.
  - reflexivity.
Defined.

Lemma invoice_update_recomputes_the_amount_witness :
  exists stored,
    fst (InvoiceController.update (putInvoice 20 (Some 20%nat) 10) world)
    = Ret (Status 200 (Some (JInvoice stored)))
    /\ Invoice.amount stored
       = sumOf [Request.servicesTotal [trimming]].
Proof.
  edestruct (invoice_update_recomputes_the_amount
               (putInvoice 20 (Some 20%nat) 10) world)
    as (_ & Hamount & _).
  - reflexivity.
  - vm_compute. reflexivity.
  - eexists. split; [vm_compute; reflexivity|]. exact Hamount.
Defined.

Lemma reassignee_total_counts_every_reassigned_request_witness :
  InvoiceController.getTotalForUser invoiceOfRay kim world
  = (Ret (sumOf [QcZ 100]), world).
Proof.
  apply (reassignee_total_counts_every_reassigned_request invoiceOfRay kim sam
           world).
  - reflexivity.
  - vm_compute. lia.
  - reflexivity.
Defined.

Lemma request_update_recomputes_the_total_witness :
  exists saved,
    fst (RequestController.update formatDate now (putRequest 10 (Some 10%nat))
           world)
    = Ret (Status 200 (Some (JRequest saved)))
    /\ Request.total saved = Request.servicesTotal [trimming].
Proof.
  edestruct (request_update_recomputes_the_total formatDate now
               (putRequest 10 (Some 10%nat)) world)
    as (request & listed & _ & Hlisted & _ & _ & Htotal & _).
  - vm_compute. reflexivity.
  - injection Hlisted as <-. eexists. split; [vm_compute; reflexivity|].
    exact Htotal.
Defined.



Lemma unprepared_payment_blocks_the_payer_witness :
  let run := create env stripe now (payInvoice 20) worldWithoutSam in
  newEffects worldWithoutSam (snd run) = []
  /\ length (payments (db (snd run))) = 2%nat
  /\ exists r,
       create env stripe now (payInvoice 20) (snd run) = (Ret r, snd run)
       /\ refusal r.
Proof.
  cbv zeta.
  edestruct (unprepared_payment_blocks_the_payer env stripe now (payInvoice 20)
               worldWithoutSam)
    as (Heffects & (payment & Hpayments & _) & Hblocked).
  - vm_compute. reflexivity.
  - vm_compute. discriminate.
  - split; [exact Heffects|]. split; [|exact (Hblocked now)].
    vm_compute. reflexivity.
Defined.

End MoreExamples.

Section LeaseChange.
Import HorseController.

Lemma Notification_create_run n w :
  exists pushes,
    Notification_create n w
    = (Ret tt, mkWorld (add_notification n (db w)) (trace w ++ pushes)%list).
Proof.
  unfold Notification_create, bind, getDB, modifyDB.
  destruct (Notification.sendPush n); [|exists []; by rewrite app_nil_r].
  destruct (bool_decide _); [exists []; by rewrite app_nil_r|].
  eexists [_]. reflexivity.
Qed.

(** X25.  [update], lines 476-523.  When the lease of a horse passes from one
    user to another, both notifications, the one of the new lease and the
    one of the lease that ended, go to the new lessee: the recipient of the
    second one is read from the horse after the new lessee has been
    assigned to it.  The old lessee is not told. *)
Theorem changed_lease_tells_only_the_new_lessee req w w' answer horse old new
  (Hrun : update req w = (Ret (Status 200 answer), w'))
  (Hfound : findById (params_id req) (horses (db w)) = Some horse)
  (Hold : Horse._leasedTo horse = Some old)
  (Hnew : _leasedTo (body req) = Some (Some new))
  (Hchanged : old <> new) :
  exists ownerName horseName,
    notifications (db w')
    = (notifications (db w)
       ++ [Notification.mk (lesseeAdded ownerName horseName) [new] true;
           Notification.mk (lesseeRemoved ownerName horseName) [new] true])%list.
Proof.
  unfold update, tryCatch in Hrun.
  destruct (updateBody req w) as [[r|e] w1] eqn:Hbody; [|done].
  injection Hrun as -> ->. unfold updateBody in Hbody.
  unfold bind at 1, getDB at 1 in Hbody. rewrite Hfound in Hbody.
  unbind_in Hbody as w1 E1; [|done].
  assert (w1 = w) as ->.
  { destruct (_owner (body req)) as [o|]; [|by injection E1].
    destruct (bool_decide (is_Some (o_id o))); [|by injection E1].
    cbn [deref] in E1. unfold bind at 1, ret at 1 in E1.
    destruct (negb _); by injection E1. }
  clear E1. destruct a; [done|].
  rewrite Hold, Hnew in Hbody. cbn [mjoin option_join mbind option_bind] in Hbody.
  unbind_in Hbody as w1 E1; [|done].
  apply Horse_save_inv in E1 as [(_ & _ & ->)|([=] & _)].
  unbind_in Hbody as w2 E2; [|done]. injection Hbody as _ <-.
  rewrite bool_decide_eq_false_2 in E2 by done. cbn [negb] in E2.
  unfold bind at 1 in E2.
  match type of E2 with
  | context [Notification_create ?n ?w0] =>
      destruct (Notification_create_run n w0) as (p1 & Hn1)
  end.
  rewrite Hn1 in E2.
  match type of E2 with
  | Notification_create ?n ?w0 = _ =>
      destruct (Notification_create_run n w0) as (p2 & Hn2)
  end.
  rewrite Hn2 in E2. injection E2 as _ <-.
  unfold add_notification, set_horses.
  cbn [db notifications users horses requests invoices payments].
  eexists _, _. rewrite <- (app_assoc _ [_] [_]). reflexivity.
Qed.

End LeaseChange.

Section LeaseExample.
Import HorseController.

Lemma changed_lease_tells_only_the_new_lessee_witness :
  map Notification._recipients
      (notifications (db (snd (update leaseToSam worldWithLease))))
  = [[2%nat]; [2%nat]].
Proof.
  edestruct (changed_lease_tells_only_the_new_lessee leaseToSam worldWithLease)
    as (ownerName & horseName & Hnotified).
  - vm_compute. reflexivity.
  - reflexivity.
  - reflexivity.
  - reflexivity.
  - lia.
  - etrans; [exact (f_equal (map Notification._recipients) Hnotified)|].
    reflexivity.
Defined.

End LeaseExample.

Section PayoutOrder.
Import PaymentController.

Context (env : Env) (stripe : Stripe.Api) (now : Date) (newPayment : Body)
  (invoice : PInvoice) (populatedPayment : Payment.t) (chargeId : string).

Lemma afterTransfer_noStripe st request answer transferToken :
  preserves (emitsOnly notStripe)
    (let* (failed, recorded) :=
       finallyThen
         (match answer with
          | Stripe.TransferReturns _ => ret (failedPayoutCount st)
          | Stripe.TransferThrows _ =>
              reportFailedPayout env invoice request ;;;
              ret (S (failedPayoutCount st))
          end)
         (let* transaction :=
            transactionFor now newPayment chargeId request transferToken in
          let recorded := (transactions st ++ [transaction])%list in
          Payment_save (Payment.set_transactions recorded populatedPayment) ;;;
          ret recorded) in
     ret (mkPayouts failed recorded)).
Proof. preserve. Qed.

Lemma processTransfer_step st pending request w o w' :
  processTransfer env stripe now newPayment invoice populatedPayment chargeId
    st (pending, request) w = (o, w') ->
  let sent := fundedBy chargeId pending in
  let reply :=
    Stripe.transfers_create stripe
      (length (List.filter isTransfer (trace w))) sent in
  exists others,
    trace w' = (trace w ++ Transfer sent reply :: others)%list
    /\ Forall (fun e => notStripe e = true) others
    /\ forall st',
         o = Ret st' ->
         failedPayoutCount st'
         = (failedPayoutCount st
            + if payoutFailed (Transfer sent reply) then 1 else 0)%nat.
Proof.
  intros Hrun sent reply. unfold processTransfer in Hrun.
  unfold bind at 1, getTrace at 1 in Hrun.
  unfold bind at 1, emit at 1 in Hrun.
  change (Stripe.mkTransfer _ _ _ (Some chargeId)) with sent in Hrun.
  fold reply in Hrun.
  pose proof (afterTransfer_noStripe st request reply _ _ _ _ Hrun)
    as (others & Htrace & Hothers).
  cbn [trace] in Htrace. exists others.
  split; [by rewrite Htrace, <- app_assoc|]. split; [exact Hothers|].
  intros st' ->. unfold bind at 1, finallyThen in Hrun.
  destruct reply as [id|message]; cbn [payoutFailed].
  - unfold ret at 1 in Hrun.
    match type of Hrun with
    | context [match ?m ?w0 with _ => _ end] =>
        destruct (m w0) as [[recorded|e] w2]; [|done]
    end.
    injection Hrun as <- _. cbn [failedPayoutCount]. lia.
  - unfold bind at 1 in Hrun.
    destruct (reportFailedPayout env invoice request _) as [[[]|e] w1].
    + unfold ret at 1 in Hrun.
      match type of Hrun with
      | context [match ?m ?w0 with _ => _ end] =>
          destruct (m w0) as [[recorded|e] w2]; [|done]
      end.
      injection Hrun as <- _. cbn [failedPayoutCount]. lia.
    + match type of Hrun with
      | context [match ?m ?w0 with _ => _ end] =>
          destruct (m w0) as [[recorded|e'] w2]; done
      end.
Qed.

Lemma transferOf_noStripe others :
  Forall (fun e => notStripe e = true) others ->
  omap transferOf others = [] /\ List.filter payoutFailed others = [].
Proof.
  induction 1 as [|e others He _ [IH1 IH2]]; [done|].
  destruct e; cbn in *; try done.
Qed.

Lemma transferOf_cons t r others :
  omap transferOf (Transfer t r :: others) = t :: omap transferOf others.
Proof. reflexivity. Qed.

(** X26.  [create], lines 521-685: the loop over the pending transfers.  The
    transfers are sent to Stripe one after the other in the order in which
    they were queued, each once and each funded by the charge.  A transfer
    that Stripe refuses does not stop the loop: when the loop returns,
    every pending transfer has been sent, and the counter of failed payouts
    has gone up by the number of transfers that were refused.  The loop
    ends early only with an error, and then what was sent is a first part
    of what was queued. *)
Theorem payouts_go_in_order (st : Payouts)
    (pending : list (Stripe.Transfer * option PRequest)) (w : World) :
  let run :=
    foldM (processTransfer env stripe now newPayment invoice populatedPayment
             chargeId) st pending w in
  let sent := newEffects w (snd run) in
  exists attempted,
    attempted `prefix_of` pending
    /\ omap transferOf sent
       = map (fun entry => fundedBy chargeId (fst entry)) attempted
    /\ forall st',
         fst run = Ret st' ->
         attempted = pending
         /\ failedPayoutCount st'
            = (failedPayoutCount st + length (List.filter payoutFailed sent))%nat.
Proof.
  cbv zeta.
  assert (forall st w o w',
            foldM (processTransfer env stripe now newPayment invoice
                     populatedPayment chargeId) st pending w = (o, w') ->
            exists attempted new,
              trace w' = (trace w ++ new)%list
              /\ attempted `prefix_of` pending
              /\ omap transferOf new
                 = map (fun entry => fundedBy chargeId (fst entry)) attempted
              /\ forall st',
                   o = Ret st' ->
                   attempted = pending
                   /\ failedPayoutCount st'
                      = (failedPayoutCount st
                         + length (List.filter payoutFailed new))%nat) as Hloop.
  { clear st w. induction pending as [|[t request] rest IH]; intros st w o w'.
    - intros [= <- <-]. exists [], []. rewrite app_nil_r. split; [done|].
      split; [done|]. split; [done|]. intros st' [= <-]. split; [done|].
      cbn. lia.
    - cbn [foldM]. unfold bind at 1.
      destruct (processTransfer env stripe now newPayment invoice
                  populatedPayment chargeId st (t, request) w)
        as [[st1|e] w1] eqn:Hstep;
        destruct (processTransfer_step _ _ _ _ _ _ Hstep)
          as (others & Htrace & Hothers & Hcount);
        destruct (transferOf_noStripe _ Hothers) as [Hnone Hnofail];
        intros Hrest.
      + destruct (IH _ _ _ _ Hrest)
          as (attempted & new & Hnew & Hprefix & Hsent & Hall).
        exists ((t, request) :: attempted),
               (Transfer (fundedBy chargeId t)
                  (Stripe.transfers_create stripe
                     (length (List.filter isTransfer (trace w)))
                     (fundedBy chargeId t)) :: others ++ new)%list.
        split; [rewrite Hnew, Htrace, <- app_assoc; reflexivity|].
        split; [by apply prefix_cons|].
        split.
        { rewrite transferOf_cons, omap_app, Hnone, Hsent. reflexivity. }
        intros st' Hret. destruct (Hall st' Hret) as [-> Hfailed].
        split; [done|]. rewrite Hfailed, (Hcount st1 eq_refl).
        cbn [List.filter]. rewrite List.filter_app, Hnofail. cbn [app].
        destruct (payoutFailed _); cbn [length]; lia.
      + injection Hrest as <- <-.
        exists [(t, request)],
               (Transfer (fundedBy chargeId t)
                  (Stripe.transfers_create stripe
                     (length (List.filter isTransfer (trace w)))
                     (fundedBy chargeId t)) :: others)%list.
        split; [exact Htrace|].
        split; [apply prefix_cons, prefix_nil|].
        split; [by rewrite transferOf_cons, Hnone|].
        done. }
  destruct (foldM _ st pending w) as [o w'] eqn:Hrun. cbn [fst snd].
  destruct (Hloop _ _ _ _ Hrun)
    as (attempted & new & Htrace & Hprefix & Hsent & Hall).
  exists attempted. rewrite (newEffects_app _ _ _ Htrace). done.
Qed.

End PayoutOrder.

Section InvoiceTip.
Import PaymentController.

Lemma markInvoice_tip now tip prev i :
  Invoice.tip (markInvoice now tip prev i)
  = if bool_decide (length prev = 1%nat) then tip else Invoice.tip i.
Proof. unfold markInvoice. by repeat case_bool_decide. Qed.

(** X27.  [create], lines 710-722.  The tip kept on the invoice is the tip of
    the body of the first payment: when [create] answers with a payment
    after a charge that went through, the stored invoice has the tip of the
    body if this payment is the only one recorded against the invoice, and
    the tip it had before otherwise.  The tip of a later payer is charged
    and transferred, but the invoice does not show it. *)
Theorem invoice_keeps_the_tip_of_the_first_payment
    env stripe now req w w' message payment c k chargeId fm
  (Hrun : create env stripe now req w
          = (Ret (Status 200 (Some (JPayment message payment))), w'))
  (Hcharged : Charge c k (Stripe.ChargeReturns chargeId fm) ∈ newEffects w w')
  (Hwent : truthyStr fm = false) :
  exists i found stored,
    _invoice (body req) = Some i
    /\ findById i (invoices (db w)) = Some found
    /\ findById i (invoices (db w')) = Some stored
    /\ let recorded := length (paymentsOfInvoice (db w') (Some i)) in
       (recorded = 1%nat ->
        orZero (Invoice.tip stored) = orZero (tip (body req)))
       /\ (recorded <> 1%nat ->
           orZero (Invoice.tip stored) = orZero (Invoice.tip found)).
Proof.
  apply create_inv in Hrun as [Hbody|(e & [=] & _)].
  destruct (createBody_charged _ _ _ _ _ _ _ _ _ _ Hbody Hcharged)
    as (i & found & payingUser & Hi & Hfound & _ & _ & _ & Hpay).
  destruct (pay_charged _ _ _ _ _ _ _ _ _ _ _ _ Hpay Hcharged)
    as (pp & pending & w1 & _ & _ & _ & _ & Hw1 & _ & outcome & w2 & Hatt & Hout).
  pose proof (attempt_inv _ _ _ _ _ _ _ _ _ _ _ _ Hatt) as Hinv.
  pose proof (attempt_charge_returns env stripe now req (tip (body req))
                payingUser (populateInvoice (db w) found) pending pp w1) as Hone.
  destruct outcome as [[response|[[failed marked] recorded]]|e]; [| |done].
  { destruct Hinv as (msg & ->). by destruct Hout as [[=] _]. }
  destruct Hinv as (chargeId' & fm' & w1' & Hans & Hinvs & Hpayout).
  destruct (Hone _ _ _ _ Hans Hatt) as (new & Htr & Hnew).
  pose proof (answer_trace _ _ _ _ _ _ _ Hout) as Htr'.
  pose proof (answer_invoices _ _ _ _ _ _ _ Hout) as Hinv'.
  pose proof (answer_payments _ _ _ _ _ _ _ Hout) as Hpay'.
  unfold sameTrace in Htr'. unfold sameInvoices in Hinv'.
  unfold samePayments in Hpay'.
  erewrite newEffects_app in Hcharged.
  2:{ rewrite Htr', Htr. by subst w1. }
  apply elem_of_cons in Hcharged as [[= _ _ <- <-]|Hin].
  2:{ rewrite Forall_forall in Hnew. by specialize (Hnew _ Hin). }
  destruct (payOut_inv _ _ _ _ _ _ _ _ _ _ _ _ _ _ _ _ Hpayout Hwent)
    as (Hdoc & Hsave).
  rewrite Hi in Hdoc.
  destruct (findById_Some _ _ _ Hfound) as [Hid _].
  unfold idOf, Invoice_document in Hid.
  assert (Invoice._id (doc marked) = i) as Hmid.
  { rewrite Hdoc. etrans; [apply markInvoice_id|done]. }
  exists i, found, (doc marked). split; [done|]. split; [done|].
  split.
  { rewrite Hinv', Hsave, Hinvs. subst w1.
    cbn [db invoices set_payments].
    rewrite findById_saveDoc.
    rewrite bool_decide_eq_true_2 by (symmetry; exact Hmid).
    by rewrite Hfound. }
  rewrite (paymentsOfInvoice_ext _ _ _ Hpay').
  rewrite Hdoc, markInvoice_tip. cbn [populateInvoice doc].
  cbn zeta. case_bool_decide as Hc; split; done.
Qed.

End InvoiceTip.

Section TipExample.
Import PaymentController Sample.

Lemma invoice_keeps_the_tip_of_the_first_payment_witness :
  exists stored,
    findById 20
      (invoices (db (snd (create env stripe now payWithTip world))))
    = Some stored
    /\ orZero (Invoice.tip stored) = orZero (Some (QcZ 10)).
Proof.
  edestruct (invoice_keeps_the_tip_of_the_first_payment env stripe now
               payWithTip world)
    as (i & found & stored & Hi & Hfound & Hstored & Hfirst & _).
  - vm_compute. reflexivity.
  - apply list_elem_of_lookup. exists 0%nat. vm_compute. reflexivity.
  - reflexivity.
  - injection Hi as <-. exists stored. split; [exact Hstored|].
    apply Hfirst. vm_compute. reflexivity.
Defined.

End TipExample.
